(** * minechat: a shallow embedding of the listener and the two sender scripts

    The development follows the three source files:
    - [Listen]      src/listen-minechat.py
    - [WriteDash]   src/write-minechat.py
    - [WriteUnder]  src/write_minechat.py

    Python text ([str]) is a list of Unicode code points, [bytes] a list of
    octets.  Network, clock and file system are an explicit [world] that the
    code threads through a state-and-exception monad; everything the scripts
    do to the outside is recorded in the world's event trace. *)

From Stdlib Require Import List Sorted NArith ZArith QArith Bool Lia String Ascii.
Import ListNotations.

Set Implicit Arguments.
Set Warnings "-register-all".
Local Open Scope N_scope.

(** ** Text and bytes *)

Definition str := list N.     (* Python str: code points, 0 .. 0x10FFFF *)
Definition bytes := list N.   (* Python bytes: octets, 0 .. 255 *)

(** An ASCII literal as Python text. *)
Definition lit (s : string) : str :=
  List.map N_of_ascii (list_ascii_of_string s).

(** The same with every apostrophe read as a double quote, for JSON texts. *)
Definition jlit (s : string) : str :=
  List.map (fun c => if c =? 39 then 34 else c) (lit s).

Definition NL : N := 10.
Definition SP : N := 32.

(** [str.isspace] for one character (CPython's [_PyUnicode_IsWhitespace]). *)
Definition isspace (c : N) : bool :=
  ((9 <=? c) && (c <=? 13)) || ((28 <=? c) && (c <=? 32))
  || (c =? 133) || (c =? 160) || (c =? 5760)
  || ((8192 <=? c) && (c <=? 8202))
  || (c =? 8232) || (c =? 8233) || (c =? 8239) || (c =? 8287) || (c =? 12288).

Arguments isspace : simpl never.

(** [str.lstrip()], [str.rstrip()], [str.strip()] without argument. *)
Fixpoint lstrip (s : str) : str :=
  match s with
  | c :: r => if isspace c then lstrip r else s
  | [] => []
  end.

Definition rstrip (s : str) : str := rev (lstrip (rev s)).

Definition strip (s : str) : str := rstrip (lstrip s).

(** [s.replace("\n", " ")]: a one-character pattern, so a pointwise map. *)
Definition replace_nl (s : str) : str :=
  List.map (fun c => if c =? NL then SP else c) s.

(** [s.split("\n", 1)[0]]: the text before the first newline. *)
Fixpoint first_line (s : str) : str :=
  match s with
  | [] => []
  | c :: r => if c =? NL then [] else c :: first_line r
  end.

(** Text-mode reading turns [\r\n] and a lone [\r] into [\n]. *)
Fixpoint universal_newlines (s : str) : str :=
  match s with
  | [] => []
  | c :: r =>
      if c =? 13 then
        NL :: universal_newlines
                match r with
                | d :: r' => if d =? NL then r' else r
                | [] => r
                end
      else c :: universal_newlines r
  end.

(** ** UTF-8, as [str.encode()] and [bytes.decode()] use it *)

Definition is_surrogate (c : N) : bool := (55296 <=? c) && (c <=? 57343).

(** One code point; [None] is [UnicodeEncodeError] (a lone surrogate). *)
Definition encode_char (c : N) : option bytes :=
  if c <? 128 then Some [c]
  else if c <? 2048 then Some [192 + c / 64; 128 + c mod 64]
  else if is_surrogate c then None
  else if c <? 65536 then
    Some [224 + c / 4096; 128 + (c / 64) mod 64; 128 + c mod 64]
  else if c <? 1114112 then
    Some [240 + c / 262144; 128 + (c / 4096) mod 64;
          128 + (c / 64) mod 64; 128 + c mod 64]
  else None.

Fixpoint encode (s : str) : option bytes :=
  match s with
  | [] => Some []
  | c :: r =>
      match encode_char c, encode r with
      | Some b, Some br => Some (b ++ br)
      | _, _ => None
      end
  end.

Definition is_cont (b : N) : bool := (128 <=? b) && (b <=? 191).

(** Decode the well-formed sequence at the head of [b], if there is one:
    the code point and the rest of the input. *)
Definition decode_char (b : bytes) : option (N * bytes) :=
  match b with
  | [] => None
  | b0 :: r0 =>
      if b0 <? 128 then Some (b0, r0)
      else if (194 <=? b0) && (b0 <=? 223) then
        match r0 with
        | b1 :: r1 =>
            if is_cont b1 then Some ((b0 - 192) * 64 + (b1 - 128), r1) else None
        | _ => None
        end
      else if (224 <=? b0) && (b0 <=? 239) then
        match r0 with
        | b1 :: b2 :: r2 =>
            if is_cont b1 && is_cont b2
               && (if b0 =? 224 then 160 <=? b1 else true)
               && (if b0 =? 237 then b1 <=? 159 else true)
            then Some ((b0 - 224) * 4096 + (b1 - 128) * 64 + (b2 - 128), r2)
            else None
        | _ => None
        end
      else if (240 <=? b0) && (b0 <=? 244) then
        match r0 with
        | b1 :: b2 :: b3 :: r3 =>
            if is_cont b1 && is_cont b2 && is_cont b3
               && (if b0 =? 240 then 144 <=? b1 else true)
               && (if b0 =? 244 then b1 <=? 143 else true)
            then Some ((b0 - 240) * 262144 + (b1 - 128) * 4096
                       + (b2 - 128) * 64 + (b3 - 128), r3)
            else None
        | _ => None
        end
      else None
  end.

(** [bytes.decode()]: strict; [None] is [UnicodeDecodeError].  The fuel is
    the number of bytes, one sequence consumes at least one. *)
Fixpoint decode_fuel (n : nat) (b : bytes) : option str :=
  match b with
  | [] => Some []
  | _ =>
      match n with
      | O => None
      | S n' =>
          match decode_char b with
          | Some (c, r) =>
              match decode_fuel n' r with
              | Some s => Some (c :: s)
              | None => None
              end
          | None => None
          end
      end
  end.

Definition decode (b : bytes) : option str := decode_fuel (List.length b) b.

(** [bytes.decode(errors="ignore")]: an offending byte is dropped and
    decoding resumes behind it. *)
Fixpoint decode_ignore_fuel (n : nat) (b : bytes) : str :=
  match n, b with
  | S n', b0 :: r0 =>
      match decode_char b with
      | Some (c, r) => c :: decode_ignore_fuel n' r
      | None => decode_ignore_fuel n' r0
      end
  | _, _ => []
  end.

Definition decode_ignore (b : bytes) : str := decode_ignore_fuel (List.length b) b.

(** ** JSON values, as [json.loads] builds them *)

Inductive pyfloat :=
| FDec (m e : Z)        (* the float written m * 10^e *)
| FNaN
| FInf (neg : bool).

Inductive json :=
| JNull
| JBool (b : bool)
| JInt (z : Z)
| JFloat (f : pyfloat)
| JStr (s : str)
| JList (l : list json)
| JDict (d : list (str * json)).   (* insertion order, keys unique *)

Definition str_eqb (a b : str) : bool :=
  if list_eq_dec N.eq_dec a b then true else false.

(** [d.get(k)] on a dict: [None] when the key is absent. *)
Fixpoint dict_get (k : str) (d : list (str * json)) : option json :=
  match d with
  | [] => None
  | (k', v) :: r => if str_eqb k k' then Some v else dict_get k r
  end.

(** [d[k] = v]: an existing key keeps its place. *)
Fixpoint dict_set (k : str) (v : json) (d : list (str * json)) : list (str * json) :=
  match d with
  | [] => [(k, v)]
  | (k', v') :: r => if str_eqb k k' then (k, v) :: r else (k', v') :: dict_set k v r
  end.

(** Truth value of a Python object, as [if not token] tests it.  (A decimal
    literal so small that the float underflows to 0.0 is not told apart
    from its mantissa here.) *)
Definition truthy (j : json) : bool :=
  match j with
  | JNull => false
  | JBool b => b
  | JInt z => negb (Z.eqb z 0)
  | JFloat (FDec m _) => negb (Z.eqb m 0)
  | JFloat _ => true
  | JStr s => negb (str_eqb s [])
  | JList l => match l with [] => false | _ => true end
  | JDict d => match d with [] => false | _ => true end
  end.

(** The [json] module is a library, not part of the scripts: the code is
    embedded over any parser, [None] standing for [json.JSONDecodeError]. *)
Class JsonLib := { json_loads : str -> option json }.

(** *** A reference parser

    A recursive-descent reading of the JSON grammar the way [json.loads]
    accepts it (strict strings, NaN and Infinity literals included); the
    closed examples below run the scripts over it. *)

Definition is_ws (c : N) : bool := (c =? 32) || (c =? 9) || (c =? 10) || (c =? 13).

Fixpoint skip_ws (s : str) : str :=
  match s with
  | c :: r => if is_ws c then skip_ws r else s
  | [] => []
  end.

Fixpoint strip_prefix (p s : str) : option str :=
  match p, s with
  | [], _ => Some s
  | a :: p', b :: s' => if a =? b then strip_prefix p' s' else None
  | _ :: _, [] => None
  end.

Definition is_digit (c : N) : bool := (48 <=? c) && (c <=? 57).

Definition hex_val (c : N) : option N :=
  if is_digit c then Some (c - 48)
  else if (97 <=? c) && (c <=? 102) then Some (c - 87)
  else if (65 <=? c) && (c <=? 70) then Some (c - 55)
  else None.

(** Four hexadecimal digits of a [\uXXXX] escape. *)
Definition hex4 (s : str) : option (N * str) :=
  match s with
  | a :: b :: c :: d :: r =>
      match hex_val a, hex_val b, hex_val c, hex_val d with
      | Some x, Some y, Some z, Some w => Some (((x * 16 + y) * 16 + z) * 16 + w, r)
      | _, _, _, _ => None
      end
  | _ => None
  end.

Definition simple_escape (c : N) : option N :=
  if c =? 34 then Some 34 else if c =? 92 then Some 92
  else if c =? 47 then Some 47 else if c =? 98 then Some 8
  else if c =? 102 then Some 12 else if c =? 110 then Some 10
  else if c =? 114 then Some 13 else if c =? 116 then Some 9
  else None.

(** The body of a string, behind its opening quote. *)
Fixpoint parse_string (n : nat) (s : str) : option (str * str) :=
  match n, s with
  | S n', c :: r =>
      if c =? 34 then Some ([], r)
      else if c <? 32 then None
      else if c =? 92 then
        match r with
        | e :: r1 =>
            if e =? 117 then
              match hex4 r1 with
              | Some (u, r2) =>
                  let pair :=
                    if (55296 <=? u) && (u <=? 56319) then
                      match strip_prefix [92; 117] r2 with
                      | Some r3 =>
                          match hex4 r3 with
                          | Some (u2, r4) =>
                              if (56320 <=? u2) && (u2 <=? 57343)
                              then Some (65536 + (u - 55296) * 1024 + (u2 - 56320), r4)
                              else None
                          | None => None
                          end
                      | None => None
                      end
                    else None in
                  let '(ch, rest) := match pair with Some p => p | None => (u, r2) end in
                  match parse_string n' rest with
                  | Some (t, r') => Some (ch :: t, r')
                  | None => None
                  end
              | None => None
              end
            else
              match simple_escape e, parse_string n' r1 with
              | Some ch, Some (t, r') => Some (ch :: t, r')
              | _, _ => None
              end
        | [] => None
        end
      else
        match parse_string n' r with
        | Some (t, r') => Some (c :: t, r')
        | None => None
        end
  | _, _ => None
  end.

Fixpoint take_digits (s : str) : list N * str :=
  match s with
  | c :: r => if is_digit c then let '(d, r') := take_digits r in (c :: d, r') else ([], s)
  | [] => ([], [])
  end.

Definition digits_val (d : list N) : Z :=
  fold_left (fun acc c => (acc * 10 + Z.of_N (c - 48))%Z) d 0%Z.

(** A number literal: an optional minus, an integer part without leading
    zero, an optional fraction and an optional exponent; a fraction or an
    exponent makes it a float. *)
Definition parse_number (s : str) : option (json * str) :=
  let '(neg, s1) := match s with
                    | c :: r => if c =? 45 then (true, r) else (false, s)
                    | [] => (false, s)
                    end in
  let '(ip, s2) := match s1 with
                   | c :: r => if c =? 48 then ([c], r) else take_digits s1
                   | [] => ([], s1)
                   end in
  match ip with
  | [] => None
  | _ =>
      let sign (z : Z) := if neg then Z.opp z else z in
      let '(fp, s3) := match s2 with
                       | c :: r =>
                           if c =? 46 then
                             match take_digits r with
                             | ([], _) => ([], s2)
                             | (d, r') => (d, r')
                             end
                           else ([], s2)
                       | [] => ([], s2)
                       end in
      let '(ex, s4) := match s3 with
                       | c :: r =>
                           if (c =? 101) || (c =? 69) then
                             let '(eneg, r1) := match r with
                                                | g :: r' => if g =? 45 then (true, r')
                                                             else if g =? 43 then (false, r')
                                                             else (false, r)
                                                | [] => (false, r)
                                                end in
                             match take_digits r1 with
                             | ([], _) => (None, s3)
                             | (d, r') => (Some (if eneg then Z.opp (digits_val d) else digits_val d), r')
                             end
                           else (None, s3)
                       | [] => (None, s3)
                       end in
      match fp, ex with
      | [], None => Some (JInt (sign (digits_val ip)), s4)
      | _, _ =>
          let e := match ex with Some e => e | None => 0%Z end in
          Some (JFloat (FDec (sign (digits_val (ip ++ fp))) (e - Z.of_nat (List.length fp))), s4)
      end
  end.

Definition parse_atom (s : str) : option (json * str) :=
  match strip_prefix (lit "null") s with
  | Some r => Some (JNull, r)
  | None =>
  match strip_prefix (lit "true") s with
  | Some r => Some (JBool true, r)
  | None =>
  match strip_prefix (lit "false") s with
  | Some r => Some (JBool false, r)
  | None =>
  match parse_number s with
  | Some v => Some v
  | None =>
  match strip_prefix (lit "NaN") s with
  | Some r => Some (JFloat FNaN, r)
  | None =>
  match strip_prefix (lit "Infinity") s with
  | Some r => Some (JFloat (FInf false), r)
  | None =>
  match strip_prefix (lit "-Infinity") s with
  | Some r => Some (JFloat (FInf true), r)
  | None => None
  end end end end end end end.

(** One value at the head of [s]; whitespace around it is the caller's. *)
Fixpoint parse_value (n : nat) (s : str) {struct n} : option (json * str) :=
  match n, s with
  | S n', c :: r =>
      if c =? 34 then
        match parse_string (List.length r) r with
        | Some (t, r') => Some (JStr t, r')
        | None => None
        end
      else if c =? 123 then
        match skip_ws r with
        | c1 :: r1 => if c1 =? 125 then Some (JDict [], r1)
                      else parse_members n' [] (c1 :: r1)
        | [] => None
        end
      else if c =? 91 then
        match skip_ws r with
        | c1 :: r1 => if c1 =? 93 then Some (JList [], r1)
                      else parse_elements n' [] (c1 :: r1)
        | [] => None
        end
      else parse_atom s
  | _, _ => None
  end

(** The members of an object, from the opening quote of a key on. *)
with parse_members (n : nat) (acc : list (str * json)) (s : str) {struct n}
  : option (json * str) :=
  match n, s with
  | S n', c :: r =>
      if c =? 34 then
        match parse_string (List.length r) r with
        | Some (k, r1) =>
            match skip_ws r1 with
            | c2 :: r2 =>
                if c2 =? 58 then
                  match parse_value n' (skip_ws r2) with
                  | Some (v, r3) =>
                      match skip_ws r3 with
                      | c4 :: r4 =>
                          if c4 =? 125 then Some (JDict (dict_set k v acc), r4)
                          else if c4 =? 44 then parse_members n' (dict_set k v acc) (skip_ws r4)
                          else None
                      | [] => None
                      end
                  | None => None
                  end
                else None
            | [] => None
            end
        | None => None
        end
      else None
  | _, _ => None
  end

(** The elements of an array, from the first character of an element on. *)
with parse_elements (n : nat) (acc : list json) (s : str) {struct n}
  : option (json * str) :=
  match n with
  | S n' =>
      match parse_value n' s with
      | Some (v, r1) =>
          match skip_ws r1 with
          | c2 :: r2 =>
              if c2 =? 93 then Some (JList (acc ++ [v]), r2)
              else if c2 =? 44 then parse_elements n' (acc ++ [v]) (skip_ws r2)
              else None
          | [] => None
          end
      | None => None
      end
  | O => None
  end.

(** [json.loads(s)]: one value, whitespace around it, nothing else; a
    leading byte-order mark is refused. *)
Definition loads (s : str) : option json :=
  match s with
  | 65279 :: _ => None
  | _ =>
      match parse_value (2 * List.length s + 2) (skip_ws s) with
      | Some (v, r) => match skip_ws r with [] => Some v | _ => None end
      | None => None
      end
  end.

#[export] Instance python_json : JsonLib := {| json_loads := loads |}.

(** ** Exceptions *)

Inductive exn :=
| ConnectionRefusedError
| ConnectionResetError
| OSError                 (* any other OSError: timeout, permission, ... *)
| UnicodeDecodeError
| UnicodeEncodeError
| JSONDecodeError
| KeyError
| TypeError
| AttributeError
| ValueError
| CancelledError          (* BaseException since Python 3.8 *)
| KeyboardInterrupt.

(** The [except] clauses of the scripts, along Python's class hierarchy. *)
Definition is_ConnectionRefusedError (e : exn) : bool :=
  match e with ConnectionRefusedError => true | _ => false end.

Definition is_ConnectionError (e : exn) : bool :=
  match e with ConnectionRefusedError | ConnectionResetError => true | _ => false end.

Definition is_OSError (e : exn) : bool :=     (* IOError is its alias *)
  match e with
  | ConnectionRefusedError | ConnectionResetError | OSError => true
  | _ => false
  end.

Definition is_Exception (e : exn) : bool :=
  match e with CancelledError | KeyboardInterrupt => false | _ => true end.

(** [except (json.JSONDecodeError, KeyError, IOError)] *)
Definition is_credentials_error (e : exn) : bool :=
  match e with JSONDecodeError | KeyError => true | _ => is_OSError e end.

(** ** The world outside the scripts *)

Record datetime := { dt_day : N; dt_month : N; dt_year : N; dt_hour : N; dt_minute : N }.

(** What the peer delivers on a connection, in order; the end of the list
    is end of stream. *)
Inductive rd := Chunk (b : bytes) | Fail (e : exn).

Record conn := {
  c_in : list rd;                 (* still to arrive *)
  c_buf : bytes;                  (* StreamReader's buffer *)
  c_drain : list (option exn);    (* outcome of the coming drain() calls *)
  c_closing : bool                (* writer.is_closing() *)
}.

(** Outcome of one [asyncio.open_connection]. *)
Inductive dial :=
| Accept (input : list rd) (drains : list (option exn))
| Reject (e : exn).

Inductive fstat := Missing | Unreadable | Content (b : bytes).

Inductive note :=
| Established | CannotConnect | MessageError (e : exn) | Reconnecting | OtherError (e : exn).

Inductive level := DEBUG | INFO | WARNING | ERROR.

Inductive logmsg :=
| LText (s : str)
| LValue (v : json)
| CredFileMissing (path : str)
| CredReadError (e : exn)
| CredSaved (path : str)
| CredSaveError (e : exn)
| Registering (nickname : str)
| NoTokenInResponse
| RegistrationError (e : exn)
| AuthError (e : exn)
| UnknownToken
| RegisterFailed
| NeedNickname
| NoTokenNoNickname
| AuthFailed
| SendFailed.

Inductive event :=
| EvOpen (h : nat) (host : str) (port : N)     (* open_connection returned *)
| EvRefused (host : str) (port : N) (e : exn)  (* open_connection raised *)
| EvWrite (h : nat) (data : bytes)             (* writer.write(data) *)
| EvDrain (h : nat)                            (* await writer.drain() returned *)
| EvClose (h : nat)                            (* writer.close() *)
| EvSleep (seconds : Q)                        (* await asyncio.sleep returned *)
| EvFileOpen (path : str)                      (* aiofiles.open(path, "a") *)
| EvFileWrite (path : str) (text : str)        (* await file.write(text) *)
| EvFileClose (path : str)
| EvDump (path : str) (doc : json)             (* json.dump(doc) into path, opened "w" *)
| EvPrint (text : str)                         (* print(text) without line end *)
| EvNote (timestamp : str) (n : note)          (* print of a status line *)
| EvLog (l : level) (m : logmsg).

Record world := {
  w_dial : list dial;             (* outcome of the coming open_connection calls *)
  w_conn : list conn;             (* connections opened so far; a handle is an index *)
  w_nap : list bool;              (* is the coming sleep cancelled *)
  w_clock : nat -> datetime;      (* what the n-th datetime.now() returns *)
  w_tick : nat;                   (* number of datetime.now() calls so far *)
  w_fs : str -> fstat;            (* files to read *)
  w_writable : str -> bool;       (* can the file be created or opened for writing *)
  w_trace : list event            (* what the script did, oldest first *)
}.

Definition set_dial (d : list dial) (w : world) : world :=
  {| w_dial := d; w_conn := w_conn w; w_nap := w_nap w; w_clock := w_clock w;
     w_tick := w_tick w; w_fs := w_fs w; w_writable := w_writable w;
     w_trace := w_trace w |}.

Definition set_conn (c : list conn) (w : world) : world :=
  {| w_dial := w_dial w; w_conn := c; w_nap := w_nap w; w_clock := w_clock w;
     w_tick := w_tick w; w_fs := w_fs w; w_writable := w_writable w;
     w_trace := w_trace w |}.

Definition set_nap (n : list bool) (w : world) : world :=
  {| w_dial := w_dial w; w_conn := w_conn w; w_nap := n; w_clock := w_clock w;
     w_tick := w_tick w; w_fs := w_fs w; w_writable := w_writable w;
     w_trace := w_trace w |}.

Definition set_tick (t : nat) (w : world) : world :=
  {| w_dial := w_dial w; w_conn := w_conn w; w_nap := w_nap w; w_clock := w_clock w;
     w_tick := t; w_fs := w_fs w; w_writable := w_writable w;
     w_trace := w_trace w |}.

Definition log_event (e : event) (w : world) : world :=
  {| w_dial := w_dial w; w_conn := w_conn w; w_nap := w_nap w; w_clock := w_clock w;
     w_tick := w_tick w; w_fs := w_fs w; w_writable := w_writable w;
     w_trace := w_trace w ++ [e] |}.

(** ** The monad of the scripts: state, exceptions, and a loop budget *)

Inductive result (A : Type) :=
| Ret (a : A)          (* normal completion *)
| Raise (e : exn)      (* an exception propagates *)
| Running.             (* the loop budget ran out: the script is still running *)

Arguments Ret {A} a.
Arguments Raise {A} e.
Arguments Running {A}.

Definition M (A : Type) : Type := world -> result A * world.

Definition ret {A} (a : A) : M A := fun w => (Ret a, w).

Definition raise {A} (e : exn) : M A := fun w => (Raise e, w).

Definition bind {A B} (m : M A) (k : A -> M B) : M B :=
  fun w =>
    match m w with
    | (Ret a, w') => k a w'
    | (Raise e, w') => (Raise e, w')
    | (Running, w') => (Running, w')
    end.

Declare Scope py_scope.
Delimit Scope py_scope with py.
Notation "x <- m ;; k" := (bind m (fun x => k))
  (at level 61, m at next level, right associativity) : py_scope.
Notation "m ;; k" := (bind m (fun _ => k))
  (at level 61, right associativity) : py_scope.
Local Open Scope py_scope.

(** [try: body / except <clause>: handler e]. *)
Definition try_except {A} (body : M A) (clause : exn -> bool) (handler : exn -> M A) : M A :=
  fun w =>
    match body w with
    | (Raise e, w') => if clause e then handler e w' else (Raise e, w')
    | r => r
    end.

(** [try: body / finally: cleanup]. *)
Definition try_finally {A} (body : M A) (cleanup : M unit) : M A :=
  fun w =>
    match body w with
    | (Ret a, w') => (cleanup ;; ret a) w'
    | (Raise e, w') => (cleanup ;; raise e) w'
    | (Running, w') => (Running, w')
    end.

Definition emit (e : event) : M unit := fun w => (Ret tt, log_event e w).

(** ** asyncio streams, clock and files over the world *)

Definition closed_conn : conn :=
  {| c_in := []; c_buf := []; c_drain := []; c_closing := true |}.

Definition the_conn (h : nat) (w : world) : conn := nth h (w_conn w) closed_conn.

Fixpoint replace_nth {A} (n : nat) (x : A) (l : list A) : list A :=
  match n, l with
  | O, _ :: r => x :: r
  | S n', y :: r => y :: replace_nth n' x r
  | _, [] => []
  end.

Definition upd_conn (h : nat) (c : conn) (w : world) : world :=
  set_conn (replace_nth h c (w_conn w)) w.

(** [await asyncio.open_connection(host, port)]; with nothing scripted the
    server refuses. *)
Definition open_connection (host : str) (port : N) : M nat :=
  fun w =>
    match w_dial w with
    | Accept input drains :: r =>
        let h := List.length (w_conn w) in
        let c := {| c_in := input; c_buf := []; c_drain := drains; c_closing := false |} in
        (Ret h, log_event (EvOpen h host port) (set_conn (w_conn w ++ [c]) (set_dial r w)))
    | Reject e :: r => (Raise e, log_event (EvRefused host port e) (set_dial r w))
    | [] => (Raise ConnectionRefusedError,
             log_event (EvRefused host port ConnectionRefusedError) w)
    end.

(** The next delivery: data, end of stream (empty bytes) or a failure. *)
Fixpoint recv (evs : list rd) : (exn + bytes) * list rd :=
  match evs with
  | [] => (inr [], [])
  | Fail e :: r => (inl e, r)
  | Chunk [] :: r => recv r
  | Chunk b :: r => (inr b, r)
  end.

(** [await reader.read(n)]: what is buffered, else the next delivery, at
    most [n] bytes of it.  A lost connection leaves the transport closing. *)
Definition reader_read (h : nat) (n : nat) : M bytes :=
  fun w =>
    let c := the_conn h w in
    match c_buf c with
    | _ :: _ =>
        (Ret (firstn n (c_buf c)),
         upd_conn h {| c_in := c_in c; c_buf := skipn n (c_buf c);
                       c_drain := c_drain c; c_closing := c_closing c |} w)
    | [] =>
        match recv (c_in c) with
        | (inr b, r) =>
            (Ret (firstn n b),
             upd_conn h {| c_in := r; c_buf := skipn n b;
                           c_drain := c_drain c; c_closing := c_closing c |} w)
        | (inl e, r) =>
            (Raise e,
             upd_conn h {| c_in := r; c_buf := [];
                           c_drain := c_drain c;
                           c_closing := c_closing c || is_OSError e |} w)
        end
    end.

(** The first line of [b], newline included, and what follows it. *)
Fixpoint cut_line (b : bytes) : option (bytes * bytes) :=
  match b with
  | [] => None
  | x :: r =>
      if x =? NL then Some ([x], r)
      else match cut_line r with
           | Some (l, r') => Some (x :: l, r')
           | None => None
           end
  end.

(** [await reader.readline()]: up to and including the next newline; at
    end of stream what is left, possibly empty.  (StreamReader's 64 KiB
    limit on a line is not modelled.) *)
Fixpoint readline_from (buf : bytes) (evs : list rd) : (exn + bytes) * bytes * list rd :=
  match cut_line buf with
  | Some (l, rest) => (inr l, rest, evs)
  | None =>
      match evs with
      | [] => (inr buf, [], [])
      | Fail e :: r => (inl e, buf, r)
      | Chunk b :: r => readline_from (buf ++ b) r
      end
  end.

Definition reader_readline (h : nat) : M bytes :=
  fun w =>
    let c := the_conn h w in
    match readline_from (c_buf c) (c_in c) with
    | (inr l, buf, r) =>
        (Ret l, upd_conn h {| c_in := r; c_buf := buf;
                              c_drain := c_drain c; c_closing := c_closing c |} w)
    | (inl e, buf, r) =>
        (Raise e, upd_conn h {| c_in := r; c_buf := buf; c_drain := c_drain c;
                                c_closing := c_closing c || is_OSError e |} w)
    end.

(** One step of [async for raw in reader]: [None] is StopAsyncIteration. *)
Definition reader_anext (h : nat) : M (option bytes) :=
  l <- reader_readline h ;;
  match l with
  | [] => ret None
  | _ => ret (Some l)
  end.

Definition writer_write (h : nat) (data : bytes) : M unit := emit (EvWrite h data).

(** [await writer.drain()] *)
Definition writer_drain (h : nat) : M unit :=
  fun w =>
    let c := the_conn h w in
    match c_drain c with
    | Some e :: r =>
        (Raise e, upd_conn h {| c_in := c_in c; c_buf := c_buf c; c_drain := r;
                                c_closing := c_closing c || is_OSError e |} w)
    | None :: r =>
        (Ret tt, log_event (EvDrain h)
                   (upd_conn h {| c_in := c_in c; c_buf := c_buf c; c_drain := r;
                                  c_closing := c_closing c |} w))
    | [] => (Ret tt, log_event (EvDrain h) w)
    end.

Definition writer_is_closing (h : nat) : M bool :=
  fun w => (Ret (c_closing (the_conn h w)), w).

Definition writer_close (h : nat) : M unit :=
  fun w =>
    let c := the_conn h w in
    (Ret tt, log_event (EvClose h)
               (upd_conn h {| c_in := c_in c; c_buf := c_buf c; c_drain := c_drain c;
                              c_closing := true |} w)).

Definition writer_wait_closed (h : nat) : M unit := ret tt.

(** [await asyncio.sleep(seconds)]; cancelling the task is all that can
    make it raise. *)
Definition sleep (seconds : Q) : M unit :=
  fun w =>
    match w_nap w with
    | true :: r => (Raise CancelledError, set_nap r w)
    | false :: r => (Ret tt, log_event (EvSleep seconds) (set_nap r w))
    | [] => (Ret tt, log_event (EvSleep seconds) w)
    end.

Definition datetime_now : M datetime :=
  fun w => (Ret (w_clock w (w_tick w)), set_tick (S (w_tick w)) w).

Definition two_digits (n : N) : str := [48 + (n / 10) mod 10; 48 + n mod 10].

(** [strftime("%d.%m.%y %H:%M")] *)
Definition strftime (dt : datetime) : str :=
  two_digits (dt_day dt) ++ lit "." ++ two_digits (dt_month dt) ++ lit "."
  ++ two_digits (dt_year dt mod 100) ++ lit " "
  ++ two_digits (dt_hour dt) ++ lit ":" ++ two_digits (dt_minute dt).

(** [async with aiofiles.open(file=path, mode="a", encoding="utf-8") as file] *)
Definition with_append_file {A} (path : str) (body : str -> M A) : M A :=
  (fun w => if w_writable w path then emit (EvFileOpen path) w else (Raise OSError, w)) ;;
  try_finally (body path) (emit (EvFileClose path)).

Definition file_write (file : str) (text : str) : M unit := emit (EvFileWrite file text).

(** A [try] with several [except] clauses: the first clause that matches
    handles, and nothing raised by a handler is caught by a later one. *)
Fixpoint pick_handler {A} (hs : list ((exn -> bool) * (exn -> M A))) (e : exn) : M A :=
  match hs with
  | [] => raise e
  | (clause, handler) :: r => if clause e then handler e else pick_handler r e
  end.

Definition try_excepts {A} (body : M A) (hs : list ((exn -> bool) * (exn -> M A))) : M A :=
  fun w =>
    match body w with
    | (Raise e, w') => pick_handler hs e w'
    | r => r
    end.

(** ** src/listen-minechat.py *)

Module Listen.

Definition RECONNECT_TIME : Q := 5.0%Q.

Record args := { host : str; port : N; history : str }.

(** [datetime.now().strftime(DATETIME_FORMAT)] *)
Definition timestamp_now : M str :=
  dt <- datetime_now ;; ret (strftime dt).

(** [async with chat_connection(server, port) as (reader, writer): body]
    (the handle stands for both the reader and the writer). *)
Definition chat_connection {A} (server : str) (port : N) (body : nat -> M A) : M A :=
  try_except
    (h <- open_connection server port ;;
     timestamp <- timestamp_now ;;
     emit (EvNote timestamp Established) ;;
     try_finally (body h)
       (writer_close h ;; writer_wait_closed h))
    is_ConnectionRefusedError
    (fun e =>
       timestamp <- timestamp_now ;;
       emit (EvNote timestamp CannotConnect) ;;
       raise e).

(** [f"[{timestamp}] {message}\n"] *)
Definition formatted (timestamp message : str) : str :=
  lit "[" ++ timestamp ++ lit "] " ++ message ++ [NL].

(** The body of the [async for] loop, for one [raw_message]. *)
Definition process_message (raw_message : bytes) (file : str) : M unit :=
  try_except
    (match decode raw_message with
     | None => raise UnicodeDecodeError
     | Some text =>
         let message := strip text in
         match message with
         | [] => ret tt                                  (* continue *)
         | _ =>
             timestamp <- timestamp_now ;;
             let formatted_message := formatted timestamp message in
             file_write file formatted_message ;;
             emit (EvPrint formatted_message)
         end
     end)
    is_Exception
    (fun exc =>
       timestamp <- timestamp_now ;;
       emit (EvNote timestamp (MessageError exc))).

Fixpoint process_messages_loop (fuel : nat) (reader : nat) (file : str) : M unit :=
  match fuel with
  | O => fun w => (Running, w)
  | S fuel' =>
      raw <- reader_anext reader ;;
      match raw with
      | None => ret tt
      | Some raw_message =>
          process_message raw_message file ;;
          process_messages_loop fuel' reader file
      end
  end.

(** Every line read takes at least one byte of what is buffered or still
    to arrive, so this many iterations exhaust any stream. *)
Definition pending (c : conn) : nat :=
  List.length (c_buf c)
  + fold_right (fun e n => match e with Chunk b => List.length b | Fail _ => 1 end + n)%nat
      O (c_in c).

Definition process_messages (reader : nat) (file : str) : M unit :=
  fun w => process_messages_loop (S (pending (the_conn reader w))) reader file w.

(** One turn of [while True] in [main]. *)
Definition main_turn (a : args) : M unit :=
  try_excepts
    (with_append_file (history a) (fun file =>
       chat_connection (host a) (port a) (fun reader =>
         process_messages reader file)))
    [ (is_ConnectionRefusedError, fun _ => sleep RECONNECT_TIME);
      (is_ConnectionError, fun _ =>
         timestamp <- timestamp_now ;;
         emit (EvNote timestamp Reconnecting));
      (is_Exception, fun exc =>
         timestamp <- timestamp_now ;;
         emit (EvNote timestamp (OtherError exc))) ].

(** [main]: the loop has no exit; [budget] bounds the number of turns that
    are observed, after which the script is still [Running]. *)
Fixpoint main (budget : nat) (a : args) : M unit :=
  match budget with
  | O => fun w => (Running, w)
  | S budget' => main_turn a ;; main budget' a
  end.

End Listen.

(** ** src/write-minechat.py

    Values that come out of JSON (the token, the nickname of the response)
    are Python objects of any JSON type: they stay [json] values, [JNull]
    being [None]. *)

Module WriteDash.

Record args := {
  message : str;
  host : str;
  port : N;
  token : option str;
  nickname : option str;
  credentials : str
}.

(** An optional command-line string as a Python object. *)
Definition py_opt (o : option str) : json :=
  match o with Some s => JStr s | None => JNull end.

Section Scripts.
Context {J : JsonLib}.

(** [credentials_data["account_hash"]] *)
Definition subscript_account_hash (credentials_data : json) : M json :=
  match credentials_data with
  | JDict d =>
      match dict_get (lit "account_hash") d with
      | Some v => ret v
      | None => raise KeyError
      end
  | _ => raise TypeError
  end.

(** [open(filepath, encoding="utf-8")] and [json.load(file)]: the text of
    the file, decoded strictly, line ends translated by the text layer. *)
Definition json_load_file (filepath : str) : M json :=
  fun w =>
    match w_fs w filepath with
    | Missing | Unreadable => (Raise OSError, w)
    | Content b =>
        match decode b with
        | None => (Raise UnicodeDecodeError, w)
        | Some text =>
            match json_loads (universal_newlines text) with
            | Some v => (Ret v, w)
            | None => (Raise JSONDecodeError, w)
            end
        end
    end.

Definition path_exists (filepath : str) : M bool :=
  fun w => (Ret (match w_fs w filepath with Missing => false | _ => true end), w).

Definition get_token (filepath : str) : M json :=
  try_except
    (ex <- path_exists filepath ;;
     if negb ex then
       emit (EvLog DEBUG (CredFileMissing filepath)) ;;
       ret JNull
     else
       credentials_data <- json_load_file filepath ;;
       subscript_account_hash credentials_data)
    is_credentials_error
    (fun error =>
       emit (EvLog WARNING (CredReadError error)) ;;
       ret JNull).

(** [mkdir] of the parent, [open(filepath, "w")] and [json.dump]. *)
Definition dump_file (credentials : json) (filepath : str) : M unit :=
  fun w =>
    if w_writable w filepath then emit (EvDump filepath credentials) w
    else (Raise OSError, w).

Definition save_credentials (credentials : json) (filepath : str) : M unit :=
  try_except
    (dump_file credentials filepath ;;
     emit (EvLog INFO (CredSaved filepath)))
    is_OSError
    (fun error => emit (EvLog ERROR (CredSaveError error))).

(** [message.strip().replace("\n", " ")] *)
Definition clean_message (message : str) : str := replace_nl (strip message).

Definition submit_message (writer : nat) (message : json) : M unit :=
  emit (EvLog DEBUG (LValue message)) ;;
  match message with
  | JStr m =>
      match encode (clean_message m ++ [NL; NL]) with
      | Some data =>
          writer_write writer data ;;
          writer_drain writer
      | None => raise UnicodeEncodeError
      end
  | _ => raise AttributeError              (* no [strip] on a non-string *)
  end.

(** [message.decode(errors="ignore").strip()] *)
Definition decode_strip (message : bytes) : str := strip (decode_ignore message).

(** [json.loads(message.split("\n", 1)[0])] *)
Definition loads_first_line (message : str) : M json :=
  match json_loads (first_line message) with
  | Some v => ret v
  | None => raise JSONDecodeError
  end.

(** [credentials.get(key, default)]; only a dict has [get]. *)
Definition method_get (credentials : json) (key : str) (default : json) : M json :=
  match credentials with
  | JDict d => ret (match dict_get key d with Some v => v | None => default end)
  | _ => raise AttributeError
  end.

(** The [try] block of [register]. *)
Definition register_body (host : str) (port : N) (nickname : str) (filepath : str)
  : M (option (json * json)) :=
    (emit (EvLog INFO (Registering nickname)) ;;
     rw <- open_connection host port ;;
     message <- reader_read rw 1024 ;;
     emit (EvLog DEBUG (LText (decode_strip message))) ;;
     submit_message rw (JStr []) ;;
     message <- reader_read rw 1024 ;;
     emit (EvLog DEBUG (LText (decode_strip message))) ;;
     submit_message rw (JStr nickname) ;;
     message <- reader_read rw 1024 ;;
     let message := decode_strip message in
     emit (EvLog DEBUG (LText message)) ;;
     credentials <- loads_first_line message ;;
     nickname <- method_get credentials (lit "nickname") (JStr nickname) ;;
     token <- method_get credentials (lit "account_hash") JNull ;;
     if negb (truthy token) then
       emit (EvLog INFO NoTokenInResponse) ;;
       ret None
     else
       save_credentials credentials filepath ;;
       writer_close rw ;;
       writer_wait_closed rw ;;
       ret (Some (nickname, token))).

Definition register (host : str) (port : N) (nickname : str) (filepath : str)
  : M (option (json * json)) :=
  try_except
    (register_body host port nickname filepath)
    is_Exception
    (fun exc =>
       emit (EvLog ERROR (RegistrationError exc)) ;;
       ret None).

Definition authorize (host : str) (port : N) (token : json) : M (option nat) :=
  try_except
    (rw <- open_connection host port ;;
     message <- reader_read rw 1024 ;;
     emit (EvLog DEBUG (LText (decode_strip message))) ;;
     submit_message rw token ;;
     message <- reader_read rw 1024 ;;
     let message := decode_strip message in
     emit (EvLog DEBUG (LText message)) ;;
     credentials <- loads_first_line message ;;
     match credentials with
     | JNull =>
         emit (EvLog ERROR UnknownToken) ;;
         writer_close rw ;;
         writer_wait_closed rw ;;
         ret None
     | _ => ret (Some rw)
     end)
    is_Exception
    (fun exc =>
       emit (EvLog ERROR (AuthError exc)) ;;
       ret None).

(** The tail of [main], once a token is at hand. *)
Definition authorize_and_send (a : args) (token : json) : M unit :=
  writer <- authorize (host a) (port a) token ;;
  match writer with
  | None => emit (EvLog ERROR AuthFailed)
  | Some writer =>
      try_finally
        (try_except
           (submit_message writer (JStr (message a)))
           is_Exception
           (fun _ => emit (EvLog ERROR SendFailed)))
        (closing <- writer_is_closing writer ;;
         if negb closing then
           writer_close writer ;;
           writer_wait_closed writer
         else ret tt)
  end.

Definition main (a : args) : M unit :=
  let token := py_opt (token a) in
  token <- (if negb (truthy token) then get_token (credentials a) else ret token) ;;
  if negb (truthy token) && truthy (py_opt (nickname a)) then
    result <- register (host a) (port a)
                (match nickname a with Some n => n | None => [] end) (credentials a) ;;
    match result with
    | None => emit (EvLog ERROR RegisterFailed)
    | Some (_, token) => authorize_and_send a token
    end
  else if negb (truthy token) then
    emit (EvLog ERROR NoTokenNoNickname)
  else authorize_and_send a token.

End Scripts.
End WriteDash.

(** ** src/write_minechat.py

    Its [chat_connection] is the listener's. *)

Module WriteUnder.

Record args := {
  message : str;
  host : str;
  port : N;
  token : option str;
  nickname : option str;
  credentials : str
}.

Section Scripts.
Context {J : JsonLib}.

Definition read_token_from_file (filepath : str) : M json :=
  try_except
    (ex <- WriteDash.path_exists filepath ;;
     if negb ex then
       emit (EvLog DEBUG (CredFileMissing filepath)) ;;
       ret JNull
     else
       credentials_data <- WriteDash.json_load_file filepath ;;
       WriteDash.subscript_account_hash credentials_data)
    is_credentials_error
    (fun error =>
       emit (EvLog WARNING (CredReadError error)) ;;
       ret JNull).

Definition save_credentials (credentials : json) (filepath : str) : M unit :=
  try_except
    (WriteDash.dump_file credentials filepath ;;
     emit (EvLog INFO (CredSaved filepath)))
    is_OSError
    (fun error => emit (EvLog ERROR (CredSaveError error))).

Definition clean_message (message : str) : str := replace_nl (strip message).

Definition submit_message (writer : nat) (message : json) : M unit :=
  emit (EvLog DEBUG (LValue message)) ;;
  match message with
  | JStr m =>
      match encode (clean_message m ++ [NL; NL]) with
      | Some data =>
          writer_write writer data ;;
          writer_drain writer ;;
          sleep 0.2%Q
      | None => raise UnicodeEncodeError
      end
  | _ => raise AttributeError
  end.

Definition register (host : str) (port : N) (nickname : str) (filepath : str) : M json :=
  Listen.chat_connection host port (fun rw =>
    emit (EvLog INFO (Registering nickname)) ;;
    try_except
      (message <- reader_read rw 1024 ;;
       emit (EvLog DEBUG (LText (WriteDash.decode_strip message))) ;;
       writer_write rw [NL] ;;
       writer_drain rw ;;
       message <- reader_read rw 1024 ;;
       emit (EvLog DEBUG (LText (WriteDash.decode_strip message))) ;;
       submit_message rw (JStr nickname) ;;
       message <- reader_read rw 1024 ;;
       let message := WriteDash.decode_strip message in
       emit (EvLog DEBUG (LText message)) ;;
       credentials <- WriteDash.loads_first_line message ;;
       token <- WriteDash.method_get credentials (lit "account_hash") JNull ;;
       if negb (truthy token) then raise ValueError
       else
         save_credentials credentials filepath ;;
         ret token)
      is_Exception
      (fun exc =>
         emit (EvLog ERROR (RegistrationError exc)) ;;
         ret JNull)).

Definition authorize (rw : nat) (token : json) : M unit :=
  try_except
    (message <- reader_read rw 1024 ;;
     emit (EvLog DEBUG (LText (WriteDash.decode_strip message))) ;;
     submit_message rw token ;;
     message <- reader_read rw 1024 ;;
     let message := WriteDash.decode_strip message in
     emit (EvLog DEBUG (LText message)) ;;
     credentials <- WriteDash.loads_first_line message ;;
     match credentials with
     | JNull => raise ValueError
     | _ => ret tt
     end)
    is_Exception
    (fun exc =>
       emit (EvLog ERROR (AuthError exc)) ;;
       raise exc).

Definition get_token (a : args) : M json :=
  let token := WriteDash.py_opt (token a) in
  token <- (if truthy token then ret token else read_token_from_file (credentials a)) ;;
  token <- (if negb (truthy token) && truthy (WriteDash.py_opt (nickname a)) then
              register (host a) (port a)
                (match nickname a with Some n => n | None => [] end) (credentials a)
            else ret token) ;;
  (if negb (truthy token) then
     emit (EvLog ERROR (if truthy (WriteDash.py_opt (nickname a))
                        then RegisterFailed else NeedNickname))
   else ret tt) ;;
  ret token.

Definition main (a : args) : M unit :=
  token <- get_token a ;;
  if negb (truthy token) then ret tt
  else
    Listen.chat_connection (host a) (port a) (fun rw =>
      try_except
        (authorize rw token ;;
         submit_message rw (JStr (message a)))
        is_Exception
        (fun _ => emit (EvLog ERROR SendFailed))).

End Scripts.
End WriteUnder.

(** ** Reading a trace *)

(** The wire: what was handed to [writer.write], per connection. *)
Fixpoint wire (tr : list event) : list (nat * bytes) :=
  match tr with
  | [] => []
  | EvWrite h data :: r => (h, data) :: wire r
  | _ :: r => wire r
  end.

(** The credential store: the documents dumped, per path. *)
Fixpoint dumped (tr : list event) : list (str * json) :=
  match tr with
  | [] => []
  | EvDump path doc :: r => (path, doc) :: dumped r
  | _ :: r => dumped r
  end.

(** The history file: the records written, in order. *)
Fixpoint records (tr : list event) : list str :=
  match tr with
  | [] => []
  | EvFileWrite _ text :: r => text :: records r
  | _ :: r => records r
  end.

(** Number of [writer.close()] calls on connection [h]. *)
Fixpoint closes (h : nat) (tr : list event) : nat :=
  match tr with
  | [] => O
  | EvClose h' :: r => ((if Nat.eqb h h' then 1 else 0) + closes h r)%nat
  | _ :: r => closes h r
  end.

(** Connection attempts. *)
Definition is_dial (e : event) : bool :=
  match e with EvOpen _ _ _ | EvRefused _ _ _ => true | _ => false end.

Definition is_sleep (e : event) : bool :=
  match e with EvSleep _ => true | _ => false end.

(** What a refused attempt leaves in the trace when the clock reads [k]. *)
Definition refused_attempt (a : Listen.args) (clock : nat -> datetime) (k : nat)
  : list event :=
  [EvFileOpen (Listen.history a);
   EvRefused (Listen.host a) (Listen.port a) ConnectionRefusedError;
   EvNote (strftime (clock k)) CannotConnect;
   EvFileClose (Listen.history a);
   EvSleep Listen.RECONNECT_TIME].

(** The reconnection discipline, read off a trace: [pending] says that
    the last connection attempt was refused and the wait of
    [RECONNECT_TIME] has not been seen since; no connection attempt may
    occur while it is pending. *)
Fixpoint waits_ok (pending : bool) (tr : list event) : bool :=
  match tr with
  | [] => true
  | EvRefused _ _ e :: r => negb pending && waits_ok (is_ConnectionRefusedError e) r
  | EvOpen _ _ _ :: r => negb pending && waits_ok false r
  | EvSleep t :: r => waits_ok (pending && negb (Qeq_bool t Listen.RECONNECT_TIME)) r
  | _ :: r => waits_ok pending r
  end.

(** Events of the message loop: they neither dial nor sleep. *)
Definition quiet (e : event) : Prop :=
  match e with
  | EvNote _ _ | EvFileWrite _ _ | EvPrint _ => True
  | _ => False
  end.

Definition no_dump (e : event) : Prop :=
  match e with EvDump _ _ => False | _ => True end.

Definition any_event : event -> Prop := fun _ => True.

(** ** Worlds *)

(** Will the next [drain()] on [h], will the next sleep, go through? *)
Definition drain_ok (h : nat) (w : world) : bool :=
  match c_drain (nth h (w_conn w) closed_conn) with
  | Some _ :: _ => false
  | _ => true
  end.

Definition nap_ok (w : world) : bool :=
  match w_nap w with true :: _ => false | _ => true end.


(** The script's surroundings are the same in both worlds. *)
Definition same_env (w w' : world) : Prop :=
  w_dial w' = w_dial w /\ w_nap w' = w_nap w /\ w_clock w' = w_clock w
  /\ w_fs w' = w_fs w /\ w_writable w' = w_writable w
  /\ List.length (w_conn w') = List.length (w_conn w).

(** A delivery that one [read(1024)] takes whole. *)
Definition short (b : bytes) : Prop := b <> [] /\ (List.length b <= 1024)%nat.

(** A world in which nothing has happened yet. *)
Definition fresh_world (dials : list dial) (fs : str -> fstat) : world :=
  {| w_dial := dials; w_conn := []; w_nap := [];
     w_clock := fun n => {| dt_day := 4; dt_month := 11; dt_year := 2026;
                            dt_hour := 9; dt_minute := N.of_nat n |};
     w_tick := O; w_fs := fs; w_writable := fun _ => true; w_trace := [] |}.

Definition no_files : str -> fstat := fun _ => Missing.

(** The world after one connection was opened on which [input] arrives. *)
Definition connected_world (input : list rd) : world :=
  snd (open_connection (lit "minechat.dvmn.org") 5050
         (fresh_world [Accept input []] no_files)).

(** ** The listener's stream, read off a connection *)

(** The lines that successive [readline] calls yield from a buffer and the
    deliveries behind it, and how the stream ends: [Some None] at end of
    stream, [Some (Some e)] when reading raises [e], [None] when [fuel]
    lines did not reach the end. *)
Fixpoint lines_loop (fuel : nat) (buf : bytes) (evs : list rd)
  : list bytes * option (option exn) :=
  match fuel with
  | O => ([], None)
  | S fuel' =>
      match readline_from buf evs with
      | (inr [], _, _) => ([], Some None)
      | (inr l, buf', evs') =>
          let '(ls, e) := lines_loop fuel' buf' evs' in (l :: ls, e)
      | (inl e, _, _) => ([], Some (Some e))
      end
  end.

(** Bytes still to arrive, a failure counting for one. *)
Definition weight (evs : list rd) : nat :=
  fold_right (fun e n => match e with Chunk b => List.length b | Fail _ => 1 end + n)%nat O evs.

(** How a loop over the stream ends. *)
Definition outcome (ending : option (option exn)) : result unit :=
  match ending with
  | None => Running
  | Some None => Ret tt
  | Some (Some e) => Raise e
  end.

Definition received_lines (c : conn) : list bytes :=
  fst (lines_loop (S (Listen.pending c)) (c_buf c) (c_in c)).

Definition stream_end (c : conn) : option (option exn) :=
  snd (lines_loop (S (Listen.pending c)) (c_buf c) (c_in c)).

(** The message a raw line carries: [raw_message.decode().strip()]. *)
Definition message_of (raw_message : bytes) : option str :=
  option_map strip (decode raw_message).

(** What one line adds to the trace, and the clock reading after it. *)
Definition line_events (clock : nat -> datetime) (file : str) (tick : nat) (raw : bytes)
  : list event * nat :=
  match message_of raw with
  | None => ([EvNote (strftime (clock tick)) (MessageError UnicodeDecodeError)], S tick)
  | Some [] => ([], tick)
  | Some message =>
      let text := Listen.formatted (strftime (clock tick)) message in
      ([EvFileWrite file text; EvPrint text], S tick)
  end.

Fixpoint logged (clock : nat -> datetime) (file : str) (tick : nat) (lines : list bytes)
  : list event * nat :=
  match lines with
  | [] => ([], tick)
  | raw :: r =>
      let '(ev, tick') := line_events clock file tick raw in
      let '(evs, tick'') := logged clock file tick' r in
      (ev ++ evs, tick'')
  end.

(** The messages that get a record: decodable and not blank, in order. *)
Fixpoint good_messages (lines : list bytes) : list str :=
  match lines with
  | [] => []
  | raw :: r =>
      match message_of raw with
      | Some (c :: m) => (c :: m) :: good_messages r
      | _ => good_messages r
      end
  end.


(** ** How the handshakes of the senders end *)

(** How [register] ends, by what the response parses to. *)
Definition register_verdict (nickname : str) (parse : option json) : option (json * json) :=
  match parse with
  | Some (JDict d) =>
      match dict_get (lit "account_hash") d with
      | Some token =>
          if truthy token
          then Some (match dict_get (lit "nickname") d with
                     | Some n => n
                     | None => JStr nickname
                     end, token)
          else None
      | None => None
      end
  | _ => None
  end.

Definition register_epilogue (h : nat) (filepath : str) (writable : bool)
           (parse : option json) : list event :=
  match parse with
  | Some (JDict d) =>
      match dict_get (lit "account_hash") d with
      | Some token =>
          if truthy token
          then (if writable
                then [EvDump filepath (JDict d); EvLog INFO (CredSaved filepath)]
                else [EvLog ERROR (CredSaveError OSError)]) ++ [EvClose h]
          else [EvLog INFO NoTokenInResponse]
      | None => [EvLog INFO NoTokenInResponse]
      end
  | Some _ => [EvLog ERROR (RegistrationError AttributeError)]
  | None => [EvLog ERROR (RegistrationError JSONDecodeError)]
  end.


(** How [authorize] of write-minechat.py ends, by what the response parses
    to: the writer, or [None]. *)
Definition authorize_verdict (h : nat) (parse : option json) : option nat :=
  match parse with
  | Some JNull => None
  | Some _ => Some h
  | None => None
  end.

Definition authorize_epilogue (h : nat) (parse : option json) : list event :=
  match parse with
  | Some JNull => [EvLog ERROR UnknownToken; EvClose h]
  | Some _ => []
  | None => [EvLog ERROR (AuthError JSONDecodeError)]
  end.

(** How [register] of write_minechat.py ends: the token, or [None]. *)
Definition under_verdict (parse : option json) : json :=
  match parse with
  | Some (JDict d) =>
      match dict_get (lit "account_hash") d with
      | Some token => if truthy token then token else JNull
      | None => JNull
      end
  | _ => JNull
  end.

Definition under_epilogue (filepath : str) (writable : bool) (parse : option json)
  : list event :=
  match parse with
  | Some (JDict d) =>
      match dict_get (lit "account_hash") d with
      | Some token =>
          if truthy token
          then (if writable
                then [EvDump filepath (JDict d); EvLog INFO (CredSaved filepath)]
                else [EvLog ERROR (CredSaveError OSError)])
          else [EvLog ERROR (RegistrationError ValueError)]
      | None => [EvLog ERROR (RegistrationError ValueError)]
      end
  | Some _ => [EvLog ERROR (RegistrationError AttributeError)]
  | None => [EvLog ERROR (RegistrationError JSONDecodeError)]
  end.

(** ** Properties of computations and of texts *)

(** A computation that comes to an end and adds to the trace only events
    of which [P] holds. *)
Definition emits {A} (P : event -> Prop) (m : M A) : Prop :=
  forall w,
    fst (m w) <> Running
    /\ exists d, w_trace (snd (m w)) = w_trace w ++ d /\ Forall P d.

(** A computation that dumps documents only when it returns, and then as
    [S] says of its result. *)
Definition guarded {A} (S : A -> list (str * json) -> Prop) (m : M A) : Prop :=
  forall w, exists d,
    w_trace (snd (m w)) = w_trace w ++ d
    /\ match fst (m w) with
       | Ret a => S a (dumped d)
       | Raise _ => dumped d = []
       | Running => False
       end.

(** Text without lone surrogates (and within the code space). *)
Definition encodable (s : str) : Prop :=
  Forall (fun c => is_surrogate c = false /\ c < 1114112) s.


(** ** Further observations *)

(** What was printed of messages, in order. *)
Fixpoint prints (tr : list event) : list str :=
  match tr with
  | [] => []
  | EvPrint text :: r => text :: prints r
  | _ :: r => prints r
  end.

(** Number of times a connection was opened under the handle [h]. *)
Fixpoint opens (h : nat) (tr : list event) : nat :=
  match tr with
  | [] => O
  | EvOpen h' _ _ :: r => ((if Nat.eqb h h' then 1 else 0) + opens h r)%nat
  | _ :: r => opens h r
  end.

Definition is_file_open (e : event) : bool :=
  match e with EvFileOpen _ => true | _ => false end.

Definition is_file_close (e : event) : bool :=
  match e with EvFileClose _ => true | _ => false end.

Definition is_log (e : event) : bool :=
  match e with EvLog _ _ => true | _ => false end.

(** Events of a script that only receives: nothing is sent, dumped or
    logged, and the one file touched is [path]. *)
Definition receiving (path : str) (e : event) : Prop :=
  match e with
  | EvWrite _ _ | EvDrain _ | EvDump _ _ | EvLog _ _ => False
  | EvFileOpen p | EvFileWrite p _ | EvFileClose p => p = path
  | _ => True
  end.

(** Events that neither open nor close a connection. *)
Definition inner (e : event) : Prop :=
  match e with EvOpen _ _ _ | EvClose _ => False | _ => True end.

(** Every connection was closed as often as it was opened. *)
Definition balanced (d : list event) : Prop := forall h, opens h d = closes h d.

(** What a turn of the listener leaves behind. *)
Definition tidy (path : str) (d : list event) : Prop :=
  Forall (receiving path) d
  /\ prints d = records d
  /\ balanced d
  /\ List.length (filter is_file_open d) = List.length (filter is_file_close d).

(** A computation that comes to an end and adds to the trace a run of
    events of which [Q] holds. *)
Definition yields {A} (Q : list event -> Prop) (m : M A) : Prop :=
  forall w,
    fst (m w) <> Running
    /\ exists d, w_trace (snd (m w)) = w_trace w ++ d /\ Q d.

(** A property of runs of events that holds of no events and of two runs
    put end to end. *)
Definition additive (Q : list event -> Prop) : Prop :=
  Q [] /\ forall a b, Q a -> Q b -> Q (a ++ b).

(** The lines of a byte string: each up to and including its newline, and
    what is left behind the last newline, if anything. *)
Fixpoint split_lines (fuel : nat) (b : bytes) : list bytes :=
  match fuel, b with
  | S fuel', _ :: _ =>
      match cut_line b with
      | Some (l, r) => l :: split_lines fuel' r
      | None => [b]
      end
  | _, _ => []
  end.

Definition lines_of (b : bytes) : list bytes := split_lines (List.length b) b.

(** asyncio's default limit on a line, [2 ** 16].  The model of [readline]
    leaves it out; what is proved of lines read is stated within it. *)
Definition stream_limit : N := 65536.

Definition within_limit (l : bytes) : Prop := N.of_nat (List.length l) <= stream_limit.

(** Command lines for the runs shown. *)
Definition sender_args (token nickname : option str) : WriteDash.args :=
  {| WriteDash.message := lit "hi"; WriteDash.host := lit "minechat.dvmn.org";
     WriteDash.port := 5050; WriteDash.token := token; WriteDash.nickname := nickname;
     WriteDash.credentials := lit "credentials.json" |}.

Definition under_args (token nickname : option str) : WriteUnder.args :=
  {| WriteUnder.message := lit "hi"; WriteUnder.host := lit "minechat.dvmn.org";
     WriteUnder.port := 5050; WriteUnder.token := token; WriteUnder.nickname := nickname;
     WriteUnder.credentials := lit "credentials.json" |}.

Unset Implicit Arguments.

Arguments firstn : simpl never.
Arguments skipn : simpl never.
Arguments WriteDash.decode_strip : simpl never.
Arguments first_line : simpl never.

(** * Facts about the text primitives *)

Section TextFacts.

Lemma lstrip_idem (s : str) : lstrip (lstrip s) = lstrip s.
Proof.
  induction s as [|c r IH]; simpl; [reflexivity|].
  destruct (isspace c) eqn:E; [exact IH|]. simpl. now rewrite E.
Qed.

Lemma lstrip_app (a b : str) :
  lstrip (a ++ b) = match lstrip a with [] => lstrip b | l => l ++ b end.
Proof.
  induction a as [|c r IH]; simpl; [now destruct (lstrip b)|].
  destruct (isspace c); [exact IH|reflexivity].
Qed.

Lemma lstrip_Forall (P : N -> Prop) (s : str) : Forall P s -> Forall P (lstrip s).
Proof.
  induction 1 as [|c r Hc Hr IH]; simpl; [constructor|].
  destruct (isspace c); [exact IH|now constructor].
Qed.

Lemma strip_Forall (P : N -> Prop) (s : str) : Forall P s -> Forall P (strip s).
Proof.
  intros H. unfold strip, rstrip.
  apply Forall_rev, lstrip_Forall, Forall_rev, lstrip_Forall, H.
Qed.

(** What [strip] returns has no white space at either end. *)
Lemma strip_tail (s : str) : lstrip (rev (strip s)) = rev (strip s).
Proof. unfold strip, rstrip. rewrite rev_involutive. apply lstrip_idem. Qed.

Lemma rstrip_cons (c : N) (r : str) :
  rstrip (c :: r) =
  match rstrip r with
  | [] => if isspace c then [] else [c]
  | l => c :: l
  end.
Proof.
  unfold rstrip. simpl rev at 2. rewrite lstrip_app.
  destruct (lstrip (rev r)) as [|x l] eqn:E.
  - simpl. destruct (isspace c); reflexivity.
  - rewrite rev_app_distr. simpl.
    destruct (rev l ++ [x]) eqn:E2; [now destruct (rev l)|reflexivity].
Qed.

Lemma lstrip_hd (s : str) (c : N) (r : str) : lstrip s = c :: r -> isspace c = false.
Proof.
  induction s as [|x u IH]; simpl; [discriminate|].
  destruct (isspace x) eqn:E; [exact IH|]. intros H. injection H as <- _. exact E.
Qed.

Lemma strip_head (s : str) : lstrip (strip s) = strip s.
Proof.
  unfold strip. destruct (lstrip s) as [|c r] eqn:E; [reflexivity|].
  apply lstrip_hd in E. rewrite rstrip_cons.
  destruct (rstrip r); [rewrite E|]; simpl; now rewrite E.
Qed.

Lemma strip_idem (s : str) : strip (strip s) = strip s.
Proof.
  unfold strip at 1. rewrite strip_head. unfold rstrip.
  rewrite strip_tail. apply rev_involutive.
Qed.





Lemma replace_nl_no_newline (s : str) : ~ In NL (replace_nl s).
Proof.
  unfold replace_nl. intros H. apply in_map_iff in H as (c & Hc & _).
  destruct (c =? NL) eqn:E; [discriminate|]. apply N.eqb_neq in E. congruence.
Qed.

Lemma replace_nl_id (s : str) : ~ In NL s -> replace_nl s = s.
Proof.
  unfold replace_nl. induction s as [|c r IH]; simpl; intros H; [reflexivity|].
  destruct (N.eqb_spec c NL) as [->|_]; [tauto|]. f_equal. tauto.
Qed.

Lemma replace_nl_length (s : str) : List.length (replace_nl s) = List.length s.
Proof. apply length_map. Qed.



End TextFacts.

(** * Facts about UTF-8 *)

Section Utf8Facts.

Lemma encode_app (a b : str) :
  encode (a ++ b) =
  match encode a, encode b with
  | Some x, Some y => Some (x ++ y)
  | _, _ => None
  end.
Proof.
  induction a as [|c r IH]; simpl.
  - now destruct (encode b).
  - rewrite IH. destruct (encode_char c), (encode r), (encode b); try reflexivity.
    now rewrite app_assoc.
Qed.




(** Only the newline character puts a newline byte on the wire. *)
Lemma encode_char_newline (c : N) (b : bytes) :
  encode_char c = Some b -> In NL b -> c = NL.
Proof.
  unfold encode_char, NL.
  assert (Hsome : forall x y : bytes, Some x = Some y -> y = x) by congruence.
  assert (Hhi : forall x y : N, x + y = 10 -> 128 <= x -> False) by lia.
  destruct (c <? 128); [intros H; apply Hsome in H; subst b; cbn [In]; intros; lia|].
  destruct (c <? 2048);
    [intros H; apply Hsome in H; subst b; cbn [In];
     intuition; exfalso; eapply Hhi; eauto; lia|].
  destruct (is_surrogate c); [discriminate|].
  destruct (c <? 65536);
    [intros H; apply Hsome in H; subst b; cbn [In];
     intuition; exfalso; eapply Hhi; eauto; lia|].
  destruct (c <? 1114112);
    [intros H; apply Hsome in H; subst b; cbn [In];
     intuition; exfalso; eapply Hhi; eauto; lia|].
  discriminate.
Qed.

Lemma encode_newline (s : str) (b : bytes) :
  encode s = Some b -> In NL b -> In NL s.
Proof.
  revert b. induction s as [|c r IH]; simpl; intros b.
  - intros [= <-] [].
  - destruct (encode_char c) as [bc|] eqn:Ec; [|discriminate].
    destruct (encode r) as [br|]; [|discriminate].
    intros [= <-] H. apply in_app_or in H as [H|H].
    + left. eapply encode_char_newline; eauto.
    + right. eapply IH; eauto.
Qed.

Lemma encodable_encode (s : str) : encodable s -> exists b, encode s = Some b.
Proof.
  induction 1 as [|c r [Hs Hc] _ [br IH]]; simpl; [now eexists|].
  rewrite IH. unfold encode_char. rewrite Hs. apply N.ltb_lt in Hc. rewrite Hc.
  destruct (c <? 128), (c <? 2048), (c <? 65536); eexists; reflexivity.
Qed.

End Utf8Facts.

(** * Facts about traces *)

Section TraceFacts.

Lemma wire_app (a b : list event) : wire (a ++ b) = wire a ++ wire b.
Proof.
  induction a as [|e r IH]; simpl; [reflexivity|].
  destruct e; simpl; now rewrite ?IH.
Qed.

Lemma dumped_app (a b : list event) : dumped (a ++ b) = dumped a ++ dumped b.
Proof.
  induction a as [|e r IH]; simpl; [reflexivity|].
  destruct e; simpl; now rewrite ?IH.
Qed.

Lemma records_app (a b : list event) : records (a ++ b) = records a ++ records b.
Proof.
  induction a as [|e r IH]; simpl; [reflexivity|].
  destruct e; simpl; now rewrite ?IH.
Qed.

Lemma closes_app (h : nat) (a b : list event) :
  closes h (a ++ b) = (closes h a + closes h b)%nat.
Proof.
  induction a as [|e r IH]; simpl; [reflexivity|].
  destruct e; simpl; rewrite ?IH; lia.
Qed.

End TraceFacts.

(** * The outgoing line: [submit_message] *)

Section SubmitFacts.
Context {J : JsonLib}.

Lemma encode_terminated (s : str) :
  encode (s ++ [NL; NL]) =
  match encode s with Some p => Some (p ++ [NL; NL]) | None => None end.
Proof. rewrite encode_app. now destruct (encode s). Qed.

Lemma clean_message_encodable (text : str) :
  encodable text -> encodable (WriteDash.clean_message text).
Proof.
  intros H. unfold WriteDash.clean_message, replace_nl, encodable.
  apply Forall_map. eapply Forall_impl; [|apply strip_Forall, H].
  intros c [Hs Hc]. simpl. destruct (c =? NL); [now split|now split].
Qed.

Lemma writer_drain_ok (h : nat) (w : world) :
  drain_ok h w = true ->
  exists w', writer_drain h w = (Ret tt, w')
             /\ w_trace w' = w_trace w ++ [EvDrain h]
             /\ w_nap w' = w_nap w.
Proof.
  unfold drain_ok, writer_drain, the_conn. intros H.
  destruct (c_drain (nth h (w_conn w) closed_conn)) as [|[e|] r];
    [|discriminate|]; eexists; split; try reflexivity; split; reflexivity.
Qed.

(** What [submit_message] does with a string, spelled out. *)
Lemma submit_message_eq (writer : nat) (text : str) (w : world) :
  WriteDash.submit_message writer (JStr text) w =
  match encode (WriteDash.clean_message text) with
  | Some payload =>
      writer_drain writer
        (log_event (EvWrite writer (payload ++ [NL; NL]))
           (log_event (EvLog DEBUG (LValue (JStr text))) w))
  | None => (Raise UnicodeEncodeError, log_event (EvLog DEBUG (LValue (JStr text))) w)
  end.
Proof.
  unfold WriteDash.submit_message, bind, emit. rewrite encode_terminated.
  destruct (encode (WriteDash.clean_message text)); reflexivity.
Qed.

Lemma submit_message_under_eq (writer : nat) (text : str) (w : world) :
  WriteUnder.submit_message writer (JStr text) w =
  match encode (WriteUnder.clean_message text) with
  | Some payload =>
      (writer_drain writer ;; sleep 0.2%Q)%py
        (log_event (EvWrite writer (payload ++ [NL; NL]))
           (log_event (EvLog DEBUG (LValue (JStr text))) w))
  | None => (Raise UnicodeEncodeError, log_event (EvLog DEBUG (LValue (JStr text))) w)
  end.
Proof.
  unfold WriteUnder.submit_message, bind, emit. rewrite encode_terminated.
  destruct (encode (WriteUnder.clean_message text)); reflexivity.
Qed.

End SubmitFacts.

Section PaddingFacts.
Context {J : JsonLib}.








End PaddingFacts.

(** * The listener: reading lines and logging them *)

Section ListenFacts.

Lemma cut_line_app (b l r : bytes) : cut_line b = Some (l, r) -> b = l ++ r /\ l <> [].
Proof.
  revert l r. induction b as [|x b IH]; simpl; intros l r; [discriminate|].
  destruct (x =? NL).
  - intros [= <- <-]. split; [reflexivity|discriminate].
  - destruct (cut_line b) as [[l' r']|]; [|discriminate].
    intros [= <- <-]. destruct (IH _ _ eq_refl) as [-> _]. split; [reflexivity|discriminate].
Qed.

(** A line read is taken off what is pending; nothing is lost or made up. *)
Lemma readline_measure (evs : list rd) (buf l buf' : bytes) (evs' : list rd) :
  readline_from buf evs = (inr l, buf', evs') ->
  (List.length l + List.length buf' + weight evs' = List.length buf + weight evs)%nat.
Proof.
  revert buf. induction evs as [|e evs IH]; intros buf; simpl.
  - destruct (cut_line buf) as [[l0 r0]|] eqn:E.
    + intros [= <- <- <-]. apply cut_line_app in E as [-> _].
      rewrite length_app. simpl. lia.
    + intros [= <- <- <-]. simpl. lia.
  - destruct (cut_line buf) as [[l0 r0]|] eqn:E.
    + intros [= <- <- <-]. apply cut_line_app in E as [-> _].
      rewrite length_app. simpl. lia.
    + destruct e as [b|x]; [|discriminate].
      intros H. apply IH in H. rewrite length_app in H. lia.
Qed.

(** The budget of [process_messages] reaches the end of every stream. *)
Lemma lines_loop_ends (fuel : nat) (buf : bytes) (evs : list rd) :
  (List.length buf + weight evs < fuel)%nat ->
  snd (lines_loop fuel buf evs) <> None.
Proof.
  revert buf evs. induction fuel as [|fuel IH]; intros buf evs Hlt; [lia|].
  simpl. destruct (readline_from buf evs) as [[[e|l] buf'] evs'] eqn:E; [discriminate|].
  destruct l as [|x l]; [discriminate|].
  apply readline_measure in E. simpl in E.
  specialize (IH buf' evs'). destruct (lines_loop fuel buf' evs') as [ls en].
  simpl in *. apply IH. lia.
Qed.

Lemma stream_end_total (c : conn) : stream_end c <> None.
Proof. unfold stream_end. apply lines_loop_ends. unfold Listen.pending. fold (weight (c_in c)). lia. Qed.

Lemma nth_replace_nth {A} (n : nat) (x d : A) (l : list A) :
  (n < List.length l)%nat -> nth n (replace_nth n x l) d = x.
Proof.
  revert n. induction l as [|y l IH]; intros [|n]; simpl; intros H; try lia; auto.
  apply IH. lia.
Qed.

Lemma nth_closed (h : nat) (l : list conn) :
  (List.length l <= h)%nat -> nth h l closed_conn = closed_conn.
Proof. intros H. now apply nth_overflow. Qed.

(** One line: never an exception, a record or a note or nothing. *)
Lemma process_message_eq (raw : bytes) (file : str) (w : world) :
  Listen.process_message raw file w =
  (Ret tt,
   {| w_dial := w_dial w; w_conn := w_conn w; w_nap := w_nap w; w_clock := w_clock w;
      w_tick := snd (line_events (w_clock w) file (w_tick w) raw);
      w_fs := w_fs w; w_writable := w_writable w;
      w_trace := w_trace w ++ fst (line_events (w_clock w) file (w_tick w) raw) |}).
Proof.
  unfold Listen.process_message, line_events, message_of, try_except.
  destruct (decode raw) as [text|]; simpl.
  - destruct (strip text) as [|c m]; simpl.
    + rewrite app_nil_r. now destruct w.
    + unfold log_event, set_tick. simpl. rewrite <- app_assoc. reflexivity.
  - reflexivity.
Qed.

Lemma replace_nth_length {A} (n : nat) (x : A) (l : list A) :
  List.length (replace_nth n x l) = List.length l.
Proof. revert n. induction l as [|y l IH]; intros [|n]; simpl; auto. Qed.

(** The loop of [process_messages], line by line. *)
Lemma process_messages_loop_spec (reader : nat) (file : str) (fuel : nat) (w : world) :
  let c := the_conn reader w in
  let r := Listen.process_messages_loop fuel reader file w in
  fst r = outcome (snd (lines_loop fuel (c_buf c) (c_in c)))
  /\ w_trace (snd r)
     = w_trace w ++ fst (logged (w_clock w) file (w_tick w)
                           (fst (lines_loop fuel (c_buf c) (c_in c))))
  /\ w_tick (snd r)
     = snd (logged (w_clock w) file (w_tick w) (fst (lines_loop fuel (c_buf c) (c_in c))))
  /\ same_env w (snd r).
Proof.
  revert w. induction fuel as [|fuel IH]; intros w; cbv zeta.
  - simpl. rewrite app_nil_r. repeat split; reflexivity.
  - cbn [Listen.process_messages_loop lines_loop].
    unfold reader_anext, reader_readline, bind. cbv beta.
    destruct (readline_from (c_buf (the_conn reader w)) (c_in (the_conn reader w)))
      as [[[e|l] buf'] evs'] eqn:E.
    + simpl. rewrite app_nil_r. repeat split; try reflexivity. apply replace_nth_length.
    + destruct l as [|x l].
      * simpl. rewrite app_nil_r. repeat split; try reflexivity. apply replace_nth_length.
      * cbn [ret]. rewrite process_message_eq.
        match goal with |- context [Listen.process_messages_loop fuel reader file ?w2] =>
          specialize (IH w2); cbv zeta in IH;
          assert (Hc : the_conn reader w2
                       = {| c_in := evs'; c_buf := buf';
                            c_drain := c_drain (the_conn reader w);
                            c_closing := c_closing (the_conn reader w) |})
        end.
        { unfold the_conn, upd_conn. simpl.
          destruct (Nat.lt_ge_cases reader (List.length (w_conn w))) as [Hlt|Hge].
          - now apply nth_replace_nth.
          - exfalso. unfold the_conn in E. rewrite (nth_closed _ _ Hge) in E.
            simpl in E. discriminate. }
        rewrite Hc in IH. simpl in IH.
        destruct IH as (I1 & I2 & I3 & I4).
        destruct (lines_loop fuel buf' evs') as [ls en]. simpl in *.
        destruct (line_events (w_clock w) file (w_tick w) (x :: l)) as [ev tk]. simpl in *.
        destruct (logged (w_clock w) file tk ls) as [evs tk']. simpl in *.
        unfold same_env in *. simpl in I4. rewrite replace_nth_length in I4.
        destruct I4 as (? & ? & ? & ? & ? & ?).
        repeat split; try assumption.
        rewrite I2. now rewrite app_assoc.
Qed.

Lemma process_messages_spec (reader : nat) (file : str) (w : world) :
  let c := the_conn reader w in
  let r := Listen.process_messages reader file w in
  fst r = outcome (stream_end c)
  /\ w_trace (snd r)
     = w_trace w ++ fst (logged (w_clock w) file (w_tick w) (received_lines c))
  /\ w_tick (snd r) = snd (logged (w_clock w) file (w_tick w) (received_lines c))
  /\ same_env w (snd r).
Proof. apply process_messages_loop_spec. Qed.


Lemma good_messages_app (a b : list bytes) :
  good_messages (a ++ b) = good_messages a ++ good_messages b.
Proof.
  induction a as [|raw r IH]; simpl; [reflexivity|].
  destruct (message_of raw) as [[|c m]|]; simpl; now rewrite ?IH.
Qed.

Lemma cut_line_first (s r : bytes) :
  ~ In NL s -> cut_line (s ++ NL :: r) = Some (s ++ [NL], r).
Proof.
  induction s as [|x s IH]; simpl; intros H; [reflexivity|].
  destruct (N.eqb_spec x NL) as [->|_]; [tauto|].
  rewrite IH by tauto. reflexivity.
Qed.

(** One delivery holding a newline-free text and the blank line behind it
    is read as two lines. *)
Lemma received_framed (s : bytes) (drains : list (option exn)) (closing : bool) :
  ~ In NL s ->
  received_lines {| c_in := [Chunk (s ++ [NL; NL])]; c_buf := [];
                    c_drain := drains; c_closing := closing |}
  = [s ++ [NL]; [NL]].
Proof.
  intros H. unfold received_lines, Listen.pending. simpl c_buf. simpl c_in.
  cbn [fold_right List.length Nat.add]. rewrite length_app. simpl List.length.
  replace (List.length s + 2 + 0)%nat with (S (S (List.length s))) by lia.
  cbn [lines_loop readline_from cut_line app].
  rewrite (@cut_line_first s [NL] H).
  destruct s as [|x s]; simpl; [reflexivity|].
  destruct (N.eqb_spec x NL) as [->|_]; [simpl in H; tauto|].
  destruct (s ++ [NL]) eqn:E; [now destruct s|]. reflexivity.
Qed.




End ListenFacts.

(** * Which events a computation can add to the trace *)

Section Emits.
Context {J : JsonLib}.
Variable P : event -> Prop.

Ltac silent := split; [try discriminate|exists []; rewrite app_nil_r; split; [reflexivity|constructor]].

Lemma emits_ret {A} (a : A) : emits P (ret a).
Proof. intros w. simpl. silent. Qed.

Lemma emits_raise {A} (e : exn) : emits P (@raise A e).
Proof. intros w. simpl. silent. Qed.

Lemma emits_emit (e : event) : P e -> emits P (emit e).
Proof. intros H w. split; [discriminate|]. exists [e]. simpl. auto. Qed.

Lemma emits_bind {A B} (m : M A) (k : A -> M B) :
  emits P m -> (forall a, emits P (k a)) -> emits P (bind m k).
Proof.
  intros Hm Hk w. unfold bind. destruct (Hm w) as (Hr & d & Hd & HP).
  destruct (m w) as [[a|e|] w1]; simpl in Hd, Hr.
  - destruct (Hk a w1) as (Hr' & d' & Hd' & HP'). split; [exact Hr'|]. exists (d ++ d').
    rewrite Hd', Hd, app_assoc. split; [reflexivity|]. now apply Forall_app.
  - split; [discriminate|]. now exists d.
  - contradiction.
Qed.

Lemma emits_try_except {A} (body : M A) (clause : exn -> bool) (handler : exn -> M A) :
  emits P body -> (forall e, emits P (handler e)) -> emits P (try_except body clause handler).
Proof.
  intros Hm Hk w. unfold try_except. destruct (Hm w) as (Hr & d & Hd & HP).
  destruct (body w) as [[a|e|] w1]; simpl in Hd, Hr.
  - split; [discriminate|]. now exists d.
  - destruct (clause e); [|split; [discriminate|now exists d]].
    destruct (Hk e w1) as (Hr' & d' & Hd' & HP'). split; [exact Hr'|]. exists (d ++ d').
    rewrite Hd', Hd, app_assoc. split; [reflexivity|]. now apply Forall_app.
  - contradiction.
Qed.

Lemma emits_try_finally {A} (body : M A) (cleanup : M unit) :
  emits P body -> emits P cleanup -> emits P (try_finally body cleanup).
Proof.
  intros Hm Hk w. unfold try_finally. destruct (Hm w) as (Hr & d & Hd & HP).
  destruct (body w) as [[a|e|] w1]; simpl in Hd, Hr; [| |contradiction].
  - destruct (emits_bind cleanup (fun _ => ret a) Hk (fun _ => emits_ret a) w1)
      as (Hr' & d' & Hd' & HP'). split; [exact Hr'|]. exists (d ++ d').
    rewrite Hd', Hd, app_assoc. split; [reflexivity|]. now apply Forall_app.
  - destruct (emits_bind cleanup (fun _ => @raise A e) Hk (fun _ => emits_raise e) w1)
      as (Hr' & d' & Hd' & HP'). split; [exact Hr'|]. exists (d ++ d').
    rewrite Hd', Hd, app_assoc. split; [reflexivity|]. now apply Forall_app.
Qed.

Lemma emits_open_connection (host : str) (port : N) :
  (forall h, P (EvOpen h host port)) -> (forall e, P (EvRefused host port e)) ->
  emits P (open_connection host port).
Proof.
  intros Ho Hr w. unfold open_connection.
  destruct (w_dial w) as [|[input drains|e] r]; simpl;
    (split; [discriminate|]); eexists; split; try reflexivity; auto.
Qed.

Lemma emits_reader_read (h n : nat) : emits P (reader_read h n).
Proof.
  intros w. unfold reader_read.
  destruct (c_buf (the_conn h w)); [|simpl; silent].
  destruct (recv (c_in (the_conn h w))) as [[e|b] r]; simpl; silent.
Qed.

Lemma emits_writer_drain (h : nat) : P (EvDrain h) -> emits P (writer_drain h).
Proof.
  intros H w. unfold writer_drain.
  destruct (c_drain (the_conn h w)) as [|[e|] r]; simpl.
  - split; [discriminate|]. exists [EvDrain h]. auto.
  - silent.
  - split; [discriminate|]. exists [EvDrain h]. auto.
Qed.

Lemma emits_writer_close (h : nat) : P (EvClose h) -> emits P (writer_close h).
Proof. intros H w. split; [discriminate|]. exists [EvClose h]. auto. Qed.

Lemma emits_writer_is_closing (h : nat) : emits P (writer_is_closing h).
Proof. intros w. simpl. silent. Qed.

Lemma emits_sleep (t : Q) : P (EvSleep t) -> emits P (sleep t).
Proof.
  intros H w. unfold sleep. destruct (w_nap w) as [|[|] r]; simpl.
  - split; [discriminate|]. exists [EvSleep t]. auto.
  - silent.
  - split; [discriminate|]. exists [EvSleep t]. auto.
Qed.

Lemma emits_datetime_now : emits P datetime_now.
Proof. intros w. simpl. silent. Qed.

Lemma emits_timestamp_now : emits P Listen.timestamp_now.
Proof. apply emits_bind; [apply emits_datetime_now|intros; apply emits_ret]. Qed.




Lemma guarded_try_except {A} (S : A -> list (str * json) -> Prop)
      (body : M A) (clause : exn -> bool) (handler : exn -> M A) :
  guarded S body -> (forall e, guarded S (handler e)) ->
  guarded S (try_except body clause handler).
Proof.
  intros Hm Hk w. unfold try_except. destruct (Hm w) as (d & Hd & HS).
  destruct (body w) as [[a|e|] w1]; simpl in Hd, HS.
  - now exists d.
  - destruct (clause e); [|now exists d].
    destruct (Hk e w1) as (d' & Hd' & HS'). exists (d ++ d').
    rewrite Hd', Hd, app_assoc. split; [reflexivity|].
    now rewrite dumped_app, HS.
  - contradiction.
Qed.

End Emits.

(** * The listener's reconnection loop *)

Section MainFacts.

Lemma the_conn_new (w : world) (c : conn) (w' : world) :
  w_conn w' = w_conn w ++ [c] -> the_conn (List.length (w_conn w)) w' = c.
Proof. intros H. unfold the_conn. rewrite H. apply nth_middle. Qed.

Lemma logged_quiet (clock : nat -> datetime) (file : str) (lines : list bytes) (tick : nat) :
  Forall quiet (fst (logged clock file tick lines)).
Proof.
  revert tick. induction lines as [|raw r IH]; intros tick; simpl; [constructor|].
  unfold line_events. destruct (message_of raw) as [[|c m]|];
    [specialize (IH tick)|specialize (IH (S tick))|specialize (IH (S tick))];
    destruct (logged clock file _ r) as [evs tk]; simpl in *;
    repeat (constructor; [exact I|]); exact IH.
Qed.

Lemma waits_ok_quiet (l rest : list event) (pending : bool) :
  Forall quiet l -> waits_ok pending (l ++ rest) = waits_ok pending rest.
Proof.
  induction 1 as [|e l He _ IH]; simpl; [reflexivity|].
  destruct e; simpl in He; try contradiction; exact IH.
Qed.

(** A refused attempt: the turn ends with the wait, and nothing else is
    done in between. *)
Lemma refused_turn (a : Listen.args) (w : world) :
  w_writable w (Listen.history a) = true ->
  (w_dial w = [] \/ exists r, w_dial w = Reject ConnectionRefusedError :: r) ->
  nap_ok w = true ->
  exists w',
    Listen.main_turn a w = (Ret tt, w')
    /\ w_trace w' = w_trace w ++
         [EvFileOpen (Listen.history a);
          EvRefused (Listen.host a) (Listen.port a) ConnectionRefusedError;
          EvNote (strftime (w_clock w (w_tick w))) CannotConnect;
          EvFileClose (Listen.history a);
          EvSleep Listen.RECONNECT_TIME]
    /\ w_tick w' = S (w_tick w)
    /\ w_dial w' = tl (w_dial w) /\ w_nap w' = tl (w_nap w)
    /\ w_clock w' = w_clock w /\ w_writable w' = w_writable w.
Proof.
  intros Hw Hd Hn.
  unfold Listen.main_turn, try_excepts, with_append_file, bind, Listen.chat_connection,
    try_except, try_finally, bind, open_connection.
  rewrite Hw. simpl. unfold nap_ok in Hn.
  destruct Hd as [Hd|[r Hd]]; rewrite Hd; simpl; unfold sleep; simpl;
    destruct (w_nap w) as [|[|] r'] eqn:En; try discriminate;
    eexists; (split; [reflexivity|]); simpl; rewrite <- ?app_assoc; simpl;
    repeat split; auto.
Qed.

(** Nothing but a cancellation gets out of a turn. *)
Lemma main_turn_raises (a : Listen.args) (w : world) (e : exn) :
  fst (Listen.main_turn a w) = Raise e -> is_Exception e = false.
Proof.
  unfold Listen.main_turn, try_excepts.
  destruct (with_append_file _ _ w) as [[[]|x|] w1]; simpl; try discriminate.
  destruct (is_ConnectionRefusedError x) eqn:E1.
  - unfold sleep. destruct (w_nap w1) as [|[|] r]; simpl; try discriminate.
    now intros [= <-].
  - destruct (is_ConnectionError x) eqn:E2; [discriminate|].
    destruct (is_Exception x) eqn:E3; [discriminate|].
    simpl. now intros [= <-].
Qed.

Lemma main_never_returns (budget : nat) (a : Listen.args) (w : world) :
  fst (Listen.main budget a w) <> Ret tt
  /\ forall e, fst (Listen.main budget a w) = Raise e -> is_Exception e = false.
Proof.
  revert w. induction budget as [|b IH]; intros w; simpl.
  - split; [discriminate|discriminate].
  - unfold bind. pose proof (main_turn_raises a w) as Hr.
    destruct (Listen.main_turn a w) as [[[]|x|] w1]; simpl in *.
    + apply IH.
    + split; [discriminate|]. intros e [= <-]. now apply Hr.
    + split; discriminate.
Qed.

(** A turn keeps the discipline: when it completes, no wait is owed. *)
Lemma turn_waits (a : Listen.args) (w : world) :
  exists d,
    w_trace (snd (Listen.main_turn a w)) = w_trace w ++ d
    /\ match fst (Listen.main_turn a w) with
       | Ret _ => forall rest, waits_ok false (d ++ rest) = waits_ok false rest
       | _ => waits_ok false d = true
       end.
Proof.
  unfold Listen.main_turn, try_excepts, with_append_file, bind, Listen.chat_connection,
    try_except, try_finally, bind, open_connection.
  destruct (w_writable w (Listen.history a)) eqn:Hw; simpl.
  2:{ eexists. split; [reflexivity|]. reflexivity. }
  destruct (w_dial w) as [|[input drains|e] r] eqn:Hd; simpl.
  - unfold sleep; simpl. destruct (w_nap w) as [|[|] r']; simpl;
      (eexists; split; [rewrite <- !app_assoc; reflexivity|]); reflexivity.
  - set (h := List.length (w_conn w)).
    set (c := {| c_in := input; c_buf := []; c_drain := drains; c_closing := false |}).
    match goal with |- context [Listen.process_messages h ?f ?w3] =>
      pose proof (process_messages_spec h f w3) as Hs; cbv zeta in Hs;
      assert (Hc : the_conn h w3 = c) by (apply the_conn_new; reflexivity);
      rewrite Hc in Hs;
      destruct (Listen.process_messages h f w3) as [res w4]
    end.
    simpl in Hs. destruct Hs as (Hres & Htr & Htk & Henv).
    pose proof (logged_quiet (w_clock w) (Listen.history a) (received_lines c) (S (w_tick w)))
      as Hq.
    set (L := fst (logged (w_clock w) (Listen.history a) (S (w_tick w)) (received_lines c)))
      in *.
    subst res. destruct (stream_end c) as [[e|]|] eqn:Hend; simpl.
    3:{ exfalso. exact (stream_end_total c Hend). }
    + destruct e; simpl; unfold sleep; simpl;
        try destruct (w_nap w4) as [|[|] r']; simpl; rewrite ?Htr;
        (eexists; split; [rewrite <- !app_assoc; simpl; reflexivity|]);
        simpl; intros; rewrite <- ?app_assoc;
        rewrite ?waits_ok_quiet by exact Hq; reflexivity.
    + eexists. split; [rewrite Htr, <- !app_assoc; simpl; reflexivity|].
      simpl. intros. rewrite <- ?app_assoc. rewrite waits_ok_quiet by exact Hq. reflexivity.
  - destruct e; simpl; unfold sleep; simpl;
      try destruct (w_nap w) as [|[|] r']; simpl;
      (eexists; split; [rewrite <- !app_assoc; simpl; reflexivity|]); reflexivity.
Qed.

Lemma main_waits (budget : nat) (a : Listen.args) (w : world) :
  exists d,
    w_trace (snd (Listen.main budget a w)) = w_trace w ++ d
    /\ waits_ok false d = true.
Proof.
  revert w. induction budget as [|b IH]; intros w; simpl.
  - exists []. now rewrite app_nil_r.
  - unfold bind. destruct (turn_waits a w) as (d & Hd & Hw).
    destruct (Listen.main_turn a w) as [[[]|x|] w1]; simpl in *.
    + destruct (IH w1) as (d' & Hd' & Hw'). exists (d ++ d').
      now rewrite Hd', Hd, app_assoc, Hw.
    + now exists d.
    + now exists d.
Qed.

Lemma quiet_no_sleep (l : list event) :
  Forall quiet l -> Forall (fun ev => is_sleep ev = false) l.
Proof. apply Forall_impl. intros e He. destruct e; simpl in *; tauto. Qed.

Lemma quiet_no_close (h : nat) (l : list event) : Forall quiet l -> closes h l = O.
Proof.
  induction 1 as [|e l He _ IH]; simpl; [reflexivity|].
  destruct e; simpl in He; try contradiction; exact IH.
Qed.

(** A connection that was established and then ended, by end of stream or
    by a failure other than a refusal: the turn completes without a wait,
    and the connection was closed once. *)
Lemma established_turn (a : Listen.args) (w : world) (input : list rd)
      (drains : list (option exn)) (rest : list dial) :
  w_writable w (Listen.history a) = true ->
  w_dial w = Accept input drains :: rest ->
  let c := {| c_in := input; c_buf := []; c_drain := drains; c_closing := false |} in
  let h := List.length (w_conn w) in
  (stream_end c = Some None \/
   exists e, stream_end c = Some (Some e) /\ is_Exception e = true
             /\ is_ConnectionRefusedError e = false) ->
  exists w' d,
    Listen.main_turn a w = (Ret tt, w')
    /\ w_trace w' = w_trace w ++ d
    /\ Forall (fun ev => is_sleep ev = false) d
    /\ closes h d = 1%nat.
Proof.
  intros Hw Hd c h Hend.
  unfold Listen.main_turn, try_excepts, with_append_file, bind, Listen.chat_connection,
    try_except, try_finally, bind, open_connection.
  rewrite Hw. simpl. rewrite Hd. simpl. fold h. fold c.
  match goal with |- context [Listen.process_messages h ?f ?w3] =>
    pose proof (process_messages_spec h f w3) as Hs; cbv zeta in Hs;
    assert (Hc : the_conn h w3 = c) by (apply the_conn_new; reflexivity);
    rewrite Hc in Hs;
    destruct (Listen.process_messages h f w3) as [res w4]
  end.
  simpl in Hs. destruct Hs as (Hres & Htr & Htk & Henv).
  pose proof (logged_quiet (w_clock w) (Listen.history a) (received_lines c) (S (w_tick w)))
    as Hq.
  set (L := fst (logged (w_clock w) (Listen.history a) (S (w_tick w)) (received_lines c)))
    in *.
  pose proof (quiet_no_sleep L Hq) as Hns. pose proof (quiet_no_close h L Hq) as Hnc.
  subst res.
  assert (Hh : Nat.eqb h h = true) by apply Nat.eqb_refl.
  destruct Hend as [Hend|(e & Hend & He1 & He2)]; rewrite Hend; simpl.
  - eexists. eexists. split; [reflexivity|]. simpl. rewrite Htr.
    split; [rewrite <- !app_assoc; simpl; reflexivity|]. split.
    + repeat (constructor; [reflexivity|]). apply Forall_app. split; [exact Hns|].
      repeat (constructor; [reflexivity|]). constructor.
    + simpl. rewrite closes_app, Hnc. simpl. now rewrite Hh.
  - destruct e; simpl in He1, He2; try discriminate; simpl;
      (eexists; eexists; split; [reflexivity|]); simpl; rewrite Htr;
      (split; [rewrite <- !app_assoc; simpl; reflexivity|]); (split;
       [repeat (constructor; [reflexivity|]); apply Forall_app; split; [exact Hns|];
        repeat (constructor; [reflexivity|]); constructor
       |simpl; rewrite closes_app, Hnc; simpl; now rewrite Hh]).
Qed.

(** A server that keeps refusing: the loop keeps trying, one attempt and
    one wait per turn, for as long as it is observed. *)
Lemma refused_forever (n : nat) (a : Listen.args) (w : world) :
  w_writable w (Listen.history a) = true ->
  w_dial w = [] -> w_nap w = [] ->
  exists w',
    Listen.main n a w = (Running, w')
    /\ w_trace w' = w_trace w
                    ++ flat_map (refused_attempt a (w_clock w)) (seq (w_tick w) n).
Proof.
  revert w. induction n as [|n IH]; intros w Hw Hd Hn; simpl.
  - exists w. now rewrite app_nil_r.
  - destruct (refused_turn a w Hw (or_introl Hd)) as (w1 & E & Ht & Hk & Hd1 & Hn1 & Hc & Hw1).
    { unfold nap_ok. now rewrite Hn. }
    unfold bind. rewrite E.
    destruct (IH w1) as (w' & E' & Ht').
    + now rewrite Hw1.
    + now rewrite Hd1, Hd.
    + now rewrite Hn1, Hn.
    + exists w'. split; [exact E'|]. rewrite Ht', Ht, Hk, Hc, <- app_assoc. reflexivity.
Qed.

(** Reading the discipline: between a refusal and whatever connection
    attempt comes after it, a wait of [RECONNECT_TIME] has completed. *)
Lemma waits_ok_pending (mid : list event) (ev : event) (post : list event) :
  waits_ok true (mid ++ ev :: post) = true -> is_dial ev = true ->
  exists t, In (EvSleep t) mid /\ Qeq_bool t Listen.RECONNECT_TIME = true.
Proof.
  induction mid as [|e mid IH]; simpl; intros H Hev.
  - destruct ev; simpl in *; discriminate.
  - destruct e; simpl in H; try discriminate;
      try (destruct (IH H Hev) as (t & Ht & Hq); exists t; split; [now right|exact Hq]).
    destruct (Qeq_bool seconds Listen.RECONNECT_TIME) eqn:Eq.
    + exists seconds. split; [now left|exact Eq].
    + destruct (IH H Hev) as (t & Ht & Hq). exists t. split; [now right|exact Hq].
Qed.

Lemma waits_ok_between (tr pre mid post : list event) (host : str) (port : N) (ev : event)
      (pending : bool) :
  waits_ok pending tr = true ->
  tr = pre ++ EvRefused host port ConnectionRefusedError :: mid ++ ev :: post ->
  is_dial ev = true ->
  exists t, In (EvSleep t) mid /\ Qeq_bool t Listen.RECONNECT_TIME = true.
Proof.
  intros H -> Hev. revert pending H.
  induction pre as [|e pre IH]; simpl; intros pending H.
  - apply andb_true_iff in H as [_ H]. eapply waits_ok_pending; eauto.
  - destruct e; simpl in H; try (apply andb_true_iff in H as [_ H]); eauto.
Qed.

End MainFacts.

(** * Stepping through the senders *)

Section SenderFacts.
Context {J : JsonLib}.

Ltac emits_step :=
  first
    [ apply emits_ret | apply emits_raise | apply emits_emit
    | apply emits_reader_read | apply emits_writer_drain | apply emits_writer_close
    | apply emits_sleep | apply emits_timestamp_now | apply emits_writer_is_closing
    | apply emits_open_connection; intros
    | apply emits_bind; [|intros]
    | apply emits_try_except; [|intros]
    | apply emits_try_finally
    | match goal with
      | |- emits _ (match ?x with _ => _ end) => destruct x
      | |- emits _ (if ?x then _ else _) => destruct x
      end
    | exact I ].

Ltac wsimpl :=
  cbn [w_conn w_dial w_nap w_clock w_tick w_fs w_writable w_trace
       log_event set_conn set_dial set_tick set_nap upd_conn fst snd
       c_in c_buf c_drain c_closing].


Lemma emits_submit_message (P : event -> Prop) (writer : nat) (message : json) :
  (forall e, no_dump e -> P e) ->
  emits P (WriteDash.submit_message writer message).
Proof.
  intros HP. unfold WriteDash.submit_message, writer_write.
  repeat (emits_step || (apply HP; exact I)).
Qed.

Lemma emits_submit_message_under (P : event -> Prop) (writer : nat) (message : json) :
  (forall e, no_dump e -> P e) ->
  emits P (WriteUnder.submit_message writer message).
Proof.
  intros HP. unfold WriteUnder.submit_message, writer_write.
  repeat (emits_step || (apply HP; exact I)).
Qed.


Lemma try_except_bind {A B} (m : M A) (k : A -> M B) (c : exn -> bool) (h : exn -> M B)
      (w : world) :
  try_except (bind m k) c h w =
  match m w with
  | (Ret a, w1) => try_except (k a) c h w1
  | (Raise e, w1) => if c e then h e w1 else (Raise e, w1)
  | (Running, w1) => (Running, w1)
  end.
Proof. unfold try_except, bind. destruct (m w) as [[a|e|] w1]; reflexivity. Qed.

Lemma the_conn_upd (h : nat) (c : conn) (w : world) :
  (h < List.length (w_conn w))%nat -> the_conn h (upd_conn h c w) = c.
Proof. intros H. unfold the_conn, upd_conn. simpl. now apply nth_replace_nth. Qed.


Lemma step_read (l : list conn) (b : bytes) (r : list rd) (ds : list (option exn))
      (cl : bool) (w : world) :
  w_conn w = l ++ [{| c_in := Chunk b :: r; c_buf := []; c_drain := ds; c_closing := cl |}] ->
  short b ->
  reader_read (List.length l) 1024 w
  = (Ret b, set_conn (l ++ [{| c_in := r; c_buf := []; c_drain := ds; c_closing := cl |}]) w).
Proof.
  intros Hc [Hne Hlen]. unfold reader_read, the_conn, upd_conn. rewrite Hc, nth_middle.
  simpl c_buf. simpl c_in. cbv iota.
  destruct b as [|x b]; [contradiction|]. cbn [recv].
  rewrite firstn_all2, skipn_all2 by exact Hlen.
  f_equal. f_equal. clear. induction l; simpl; [reflexivity|now f_equal].
Qed.

Lemma step_drain (l : list conn) (c : conn) (w : world) :
  w_conn w = l ++ [c] -> c_drain c = [] ->
  writer_drain (List.length l) w = (Ret tt, log_event (EvDrain (List.length l)) w).
Proof.
  intros Hc Hd. unfold writer_drain, the_conn. rewrite Hc, nth_middle, Hd. reflexivity.
Qed.

Lemma step_close (l : list conn) (c : conn) (w : world) :
  w_conn w = l ++ [c] ->
  writer_close (List.length l) w
  = (Ret tt, log_event (EvClose (List.length l))
               (set_conn (l ++ [{| c_in := c_in c; c_buf := c_buf c; c_drain := c_drain c;
                                   c_closing := true |}]) w)).
Proof.
  intros Hc. unfold writer_close, the_conn, upd_conn. rewrite Hc, nth_middle.
  f_equal. f_equal. f_equal. clear. induction l; simpl; [reflexivity|now f_equal].
Qed.

Lemma step_submit (l : list conn) (c : conn) (text : str) (payload : bytes) (w : world) :
  w_conn w = l ++ [c] -> c_drain c = [] ->
  encode (WriteDash.clean_message text) = Some payload ->
  WriteDash.submit_message (List.length l) (JStr text) w
  = (Ret tt, log_event (EvDrain (List.length l))
               (log_event (EvWrite (List.length l) (payload ++ [NL; NL]))
                  (log_event (EvLog DEBUG (LValue (JStr text))) w))).
Proof.
  intros Hc Hd He. rewrite submit_message_eq, He.
  apply (step_drain l c); [exact Hc|exact Hd].
Qed.

(** [register] on a connection that delivers a greeting, a prompt and a
    response, one per read, with no failure of the transport. *)
Lemma register_run (host : str) (port : N) (nickname filepath : str) (w : world)
      (greeting prompt response : bytes) (more : list rd) (rest : list dial)
      (name_unit : bytes) :
  w_dial w = Accept (Chunk greeting :: Chunk prompt :: Chunk response :: more) [] :: rest ->
  short greeting -> short prompt -> short response ->
  encode (WriteDash.clean_message nickname) = Some name_unit ->
  let h := List.length (w_conn w) in
  let parse := json_loads (first_line (WriteDash.decode_strip response)) in
  exists w',
    WriteDash.register host port nickname filepath w
    = (Ret (register_verdict nickname parse), w')
    /\ w_trace w'
       = w_trace w
         ++ [EvLog INFO (Registering nickname);
             EvOpen h host port;
             EvLog DEBUG (LText (WriteDash.decode_strip greeting));
             EvLog DEBUG (LValue (JStr []));
             EvWrite h [NL; NL];
             EvDrain h;
             EvLog DEBUG (LText (WriteDash.decode_strip prompt));
             EvLog DEBUG (LValue (JStr nickname));
             EvWrite h (name_unit ++ [NL; NL]);
             EvDrain h;
             EvLog DEBUG (LText (WriteDash.decode_strip response))]
         ++ register_epilogue h filepath (w_writable w filepath) parse.
Proof.
  intros Hd Hg Hp Hr Hn h parse.
  unfold WriteDash.register, WriteDash.register_body.
  rewrite try_except_bind. unfold emit at 1. cbv iota beta.
  rewrite try_except_bind. unfold open_connection at 1. wsimpl. rewrite Hd. cbv iota beta zeta.
  fold h.
  rewrite try_except_bind. unfold h. erewrite (step_read (w_conn w) greeting); [|reflexivity|exact Hg].
  cbv iota beta.
  rewrite try_except_bind. unfold emit at 1. cbv iota beta.
  rewrite try_except_bind.
  erewrite (step_submit (w_conn w) _ [] []); [|reflexivity|reflexivity|reflexivity]. cbv iota beta.
  rewrite try_except_bind. erewrite (step_read (w_conn w) prompt); [|reflexivity|exact Hp].
  cbv iota beta.
  rewrite try_except_bind. unfold emit at 1. cbv iota beta.
  rewrite try_except_bind.
  erewrite (step_submit (w_conn w) _ nickname name_unit); [|reflexivity|reflexivity|exact Hn]. cbv iota beta.
  rewrite try_except_bind. erewrite (step_read (w_conn w) response); [|reflexivity|exact Hr].
  cbv iota beta zeta.
  rewrite try_except_bind. unfold emit at 1. cbv iota beta.
  rewrite try_except_bind. unfold WriteDash.loads_first_line at 1. fold parse.
  unfold register_verdict, register_epilogue.
  destruct parse as [v|].
  2:{ eexists. split; [reflexivity|]. simpl. rewrite <- !app_assoc. reflexivity. }
  destruct v as [|b|z|f|s|l|d];
    try (eexists; split; [reflexivity|]; simpl; rewrite <- !app_assoc; reflexivity).
  cbv iota beta. cbn [ret]. 
  rewrite try_except_bind. cbn [WriteDash.method_get ret]. cbv iota beta.
  rewrite try_except_bind. cbn [WriteDash.method_get ret]. cbv iota beta.
  destruct (dict_get (lit "account_hash") d) as [token|] eqn:Et.
  2:{ eexists. split; [reflexivity|]. simpl. rewrite <- !app_assoc. reflexivity. }
  destruct (truthy token) eqn:Etr; cbn [negb].
  2:{ eexists. split; [reflexivity|]. simpl. rewrite <- !app_assoc. reflexivity. }
  unfold WriteDash.save_credentials, WriteDash.dump_file.
  rewrite try_except_bind. unfold try_except at 1. unfold bind at 1. wsimpl.
  destruct (w_writable w filepath); cbv iota beta; unfold emit; cbv iota beta;
    cbn [is_OSError]; cbv iota beta;
    (rewrite try_except_bind; erewrite step_close; [|reflexivity]); cbv iota beta;
    (eexists; split; [reflexivity|]); simpl; rewrite <- !app_assoc; reflexivity.
Qed.


Lemma emits_loads_first_line (P : event -> Prop) (message : str) :
  emits P (WriteDash.loads_first_line message).
Proof.
  unfold WriteDash.loads_first_line.
  destruct (json_loads (first_line message)); [apply emits_ret|apply emits_raise].
Qed.






Lemma step_is_closing (l : list conn) (c : conn) (w : world) :
  w_conn w = l ++ [c] ->
  writer_is_closing (List.length l) w = (Ret (c_closing c), w).
Proof. intros Hc. unfold writer_is_closing, the_conn. now rewrite Hc, nth_middle. Qed.

(** [authorize] on a connection that delivers a greeting and a response,
    one per read, with no failure of the transport. *)
Lemma authorize_run (host : str) (port : N) (t : str) (w : world)
      (greeting response : bytes) (more : list rd) (rest : list dial) (token_unit : bytes) :
  w_dial w = Accept (Chunk greeting :: Chunk response :: more) [] :: rest ->
  short greeting -> short response ->
  encode (WriteDash.clean_message t) = Some token_unit ->
  let h := List.length (w_conn w) in
  let parse := json_loads (first_line (WriteDash.decode_strip response)) in
  exists w',
    WriteDash.authorize host port (JStr t) w = (Ret (authorize_verdict h parse), w')
    /\ w_trace w'
       = w_trace w
         ++ [EvOpen h host port;
             EvLog DEBUG (LText (WriteDash.decode_strip greeting));
             EvLog DEBUG (LValue (JStr t));
             EvWrite h (token_unit ++ [NL; NL]);
             EvDrain h;
             EvLog DEBUG (LText (WriteDash.decode_strip response))]
         ++ authorize_epilogue h parse
    /\ w_conn w'
       = w_conn w ++ [{| c_in := more; c_buf := []; c_drain := [];
                         c_closing := match parse with Some JNull => true | _ => false end |}].
Proof.
  intros Hd Hg Hr Hn h parse.
  unfold WriteDash.authorize.
  rewrite try_except_bind. unfold open_connection at 1. rewrite Hd. cbv iota beta zeta.
  fold h.
  rewrite try_except_bind. unfold h. erewrite (step_read (w_conn w) greeting); [|reflexivity|exact Hg].
  cbv iota beta.
  rewrite try_except_bind. unfold emit at 1. cbv iota beta.
  rewrite try_except_bind.
  erewrite (step_submit (w_conn w) _ t token_unit); [|reflexivity|reflexivity|exact Hn].
  cbv iota beta.
  rewrite try_except_bind. erewrite (step_read (w_conn w) response); [|reflexivity|exact Hr].
  cbv iota beta zeta.
  rewrite try_except_bind. unfold emit at 1. cbv iota beta.
  rewrite try_except_bind. unfold WriteDash.loads_first_line at 1. fold parse.
  unfold authorize_verdict, authorize_epilogue.
  destruct parse as [v|].
  2:{ eexists. split; [reflexivity|]. simpl. rewrite <- !app_assoc. split; reflexivity. }
  destruct v as [|b|z|f|s|l|d];
    try (eexists; split; [reflexivity|]; simpl; rewrite <- !app_assoc, ?app_nil_r;
         split; reflexivity).
  cbv iota beta. cbn [ret].
  rewrite try_except_bind. unfold emit at 1. cbv iota beta.
  rewrite try_except_bind; erewrite step_close; [|reflexivity]. cbv iota beta.
  eexists. split; [reflexivity|]. simpl. rewrite <- !app_assoc. split; reflexivity.
Qed.

Lemma send_and_close (l : list conn) (c : conn) (text : str) (message_unit : bytes)
      (w : world) :
  w_conn w = l ++ [c] -> c_drain c = [] -> c_closing c = false ->
  encode (WriteDash.clean_message text) = Some message_unit ->
  let h := List.length l in
  exists w',
    try_finally
      (try_except (WriteDash.submit_message h (JStr text))
         is_Exception (fun _ : exn => emit (EvLog ERROR SendFailed)))
      (closing <- writer_is_closing h;;
       (if negb closing
        then writer_close h;; writer_wait_closed h
        else ret tt))%py
      w = (Ret tt, w')
    /\ w_trace w' = w_trace w ++ [EvLog DEBUG (LValue (JStr text));
                                  EvWrite h (message_unit ++ [NL; NL]);
                                  EvDrain h; EvClose h].
Proof.
  intros Hc Hd Hcl Hm h. unfold try_finally, try_except, h.
  erewrite (step_submit l c); [|exact Hc|exact Hd|exact Hm].
  cbv iota beta. unfold bind at 1. unfold bind at 1.
  erewrite (step_is_closing l c); [|exact Hc]. rewrite Hcl.
  cbv iota beta. cbn [negb]. unfold bind at 1.
  erewrite (step_close l c); [|exact Hc].
  eexists. split; [reflexivity|]. simpl. rewrite <- !app_assoc. reflexivity.
Qed.

(** The tail of [main] on such a connection. *)
Lemma authorize_and_send_run (a : WriteDash.args) (t : str) (w : world)
      (greeting response : bytes) (more : list rd) (rest : list dial)
      (token_unit message_unit : bytes) :
  w_dial w = Accept (Chunk greeting :: Chunk response :: more) [] :: rest ->
  short greeting -> short response ->
  encode (WriteDash.clean_message t) = Some token_unit ->
  encode (WriteDash.clean_message (WriteDash.message a)) = Some message_unit ->
  let h := List.length (w_conn w) in
  let parse := json_loads (first_line (WriteDash.decode_strip response)) in
  exists w',
    WriteDash.authorize_and_send a (JStr t) w = (Ret tt, w')
    /\ w_trace w'
       = w_trace w
         ++ [EvOpen h (WriteDash.host a) (WriteDash.port a);
             EvLog DEBUG (LText (WriteDash.decode_strip greeting));
             EvLog DEBUG (LValue (JStr t));
             EvWrite h (token_unit ++ [NL; NL]);
             EvDrain h;
             EvLog DEBUG (LText (WriteDash.decode_strip response))]
         ++ authorize_epilogue h parse
         ++ match authorize_verdict h parse with
            | None => [EvLog ERROR AuthFailed]
            | Some writer =>
                [EvLog DEBUG (LValue (JStr (WriteDash.message a)));
                 EvWrite writer (message_unit ++ [NL; NL]);
                 EvDrain writer;
                 EvClose writer]
            end.
Proof.
  intros Hd Hg Hr Hn Hm h parse.
  destruct (authorize_run (WriteDash.host a) (WriteDash.port a) t w greeting response more
              rest token_unit Hd Hg Hr Hn) as (w1 & Hrun & Htr & Hc).
  fold h parse in Hrun, Htr. fold parse in Hc.
  unfold WriteDash.authorize_and_send, bind at 1. rewrite Hrun.
  unfold authorize_verdict in *. unfold authorize_epilogue in *.
  destruct parse as [v|].
  2:{ eexists. split; [reflexivity|]. simpl. rewrite Htr, <- !app_assoc. reflexivity. }
  destruct v as [|b|z|f|s|l|d];
    try (destruct (send_and_close (w_conn w) _ (WriteDash.message a) message_unit w1
                     Hc eq_refl eq_refl Hm) as (w2 & Hsend & Htr2);
         fold h in Hsend, Htr2; rewrite Hsend;
         exists w2; (split; [reflexivity|]); rewrite Htr2, Htr, <- !app_assoc; reflexivity).
  eexists. split; [reflexivity|]. simpl. rewrite Htr, <- !app_assoc. reflexivity.
Qed.

(** [get_token], case by case. *)
Lemma get_token_eq (filepath : str) (w : world) :
  WriteDash.get_token filepath w =
  match w_fs w filepath with
  | Missing => (Ret JNull, log_event (EvLog DEBUG (CredFileMissing filepath)) w)
  | Unreadable => (Ret JNull, log_event (EvLog WARNING (CredReadError OSError)) w)
  | Content b =>
      match decode b with
      | None => (Raise UnicodeDecodeError, w)
      | Some text =>
          match json_loads (universal_newlines text) with
          | None => (Ret JNull, log_event (EvLog WARNING (CredReadError JSONDecodeError)) w)
          | Some (JDict d) =>
              match dict_get (lit "account_hash") d with
              | Some v => (Ret v, w)
              | None => (Ret JNull, log_event (EvLog WARNING (CredReadError KeyError)) w)
              end
          | Some _ => (Raise TypeError, w)
          end
      end
  end.
Proof.
  unfold WriteDash.get_token, try_except, bind, WriteDash.path_exists,
    WriteDash.json_load_file, WriteDash.subscript_account_hash.
  destruct (w_fs w filepath) as [| |b] eqn:E; cbn [negb]; cbv beta iota; rewrite ?E;
    [reflexivity|reflexivity|].
  destruct (decode b) as [text|]; [|reflexivity].
  destruct (json_loads (universal_newlines text)) as [[|x|z|f|s|l|d]|]; try reflexivity.
  destruct (dict_get (lit "account_hash") d); reflexivity.
Qed.

Lemma read_token_from_file_eq (filepath : str) (w : world) :
  WriteUnder.read_token_from_file filepath w = WriteDash.get_token filepath w.
Proof. reflexivity. Qed.

Lemma bind_run {A B} (m : M A) (k : A -> M B) (w : world) :
  bind m k w =
  match m w with
  | (Ret a, w1) => k a w1
  | (Raise e, w1) => (Raise e, w1)
  | (Running, w1) => (Running, w1)
  end.
Proof. unfold bind. destruct (m w) as [[a|e|] w1]; reflexivity. Qed.

Lemma step_submit_under (l : list conn) (c : conn) (text : str) (payload : bytes) (w : world) :
  w_conn w = l ++ [c] -> c_drain c = [] -> w_nap w = [] ->
  encode (WriteDash.clean_message text) = Some payload ->
  WriteUnder.submit_message (List.length l) (JStr text) w
  = (Ret tt, log_event (EvSleep 0.2%Q)
               (log_event (EvDrain (List.length l))
                  (log_event (EvWrite (List.length l) (payload ++ [NL; NL]))
                     (log_event (EvLog DEBUG (LValue (JStr text))) w)))).
Proof.
  intros Hc Hd Hnap He. rewrite submit_message_under_eq.
  change (WriteUnder.clean_message text) with (WriteDash.clean_message text). rewrite He.
  unfold bind. erewrite (step_drain l c); [|exact Hc|exact Hd].
  unfold sleep. wsimpl. rewrite Hnap. reflexivity.
Qed.

(** [register] of write_minechat.py on a connection that delivers a
    greeting, a prompt and a response, with no failure of the transport. *)
Lemma register_under_run (host : str) (port : N) (nickname filepath : str) (w : world)
      (greeting prompt response : bytes) (more : list rd) (rest : list dial)
      (name_unit : bytes) :
  w_dial w = Accept (Chunk greeting :: Chunk prompt :: Chunk response :: more) [] :: rest ->
  w_nap w = [] ->
  short greeting -> short prompt -> short response ->
  encode (WriteDash.clean_message nickname) = Some name_unit ->
  let h := List.length (w_conn w) in
  let parse := json_loads (first_line (WriteDash.decode_strip response)) in
  exists w',
    WriteUnder.register host port nickname filepath w
    = (Ret (under_verdict parse), w')
    /\ w_trace w'
       = w_trace w
         ++ [EvOpen h host port;
             EvNote (strftime (w_clock w (w_tick w))) Established;
             EvLog INFO (Registering nickname);
             EvLog DEBUG (LText (WriteDash.decode_strip greeting));
             EvWrite h [NL];
             EvDrain h;
             EvLog DEBUG (LText (WriteDash.decode_strip prompt));
             EvLog DEBUG (LValue (JStr nickname));
             EvWrite h (name_unit ++ [NL; NL]);
             EvDrain h;
             EvSleep 0.2%Q;
             EvLog DEBUG (LText (WriteDash.decode_strip response))]
         ++ under_epilogue filepath (w_writable w filepath) parse
         ++ [EvClose h].
Proof.
  intros Hd Hnap Hg Hp Hr Hn h parse.
  unfold WriteUnder.register, Listen.chat_connection.
  rewrite try_except_bind. unfold open_connection at 1. rewrite Hd. cbv iota beta zeta.
  fold h.
  rewrite try_except_bind. unfold Listen.timestamp_now, bind at 1, datetime_now, ret.
  wsimpl. cbv iota beta.
  rewrite try_except_bind. unfold emit at 1. cbv iota beta.
  unfold try_except at 1. unfold try_finally. unfold bind at 1. unfold emit at 1.
  cbv iota beta.
  rewrite try_except_bind. unfold h.
  erewrite (step_read (w_conn w) greeting); [|reflexivity|exact Hg]. cbv iota beta.
  rewrite try_except_bind. unfold emit at 1. cbv iota beta.
  rewrite try_except_bind. unfold writer_write, emit at 1. cbv iota beta.
  rewrite try_except_bind. erewrite (step_drain (w_conn w)); [|reflexivity|reflexivity].
  cbv iota beta.
  rewrite try_except_bind. erewrite (step_read (w_conn w) prompt); [|reflexivity|exact Hp].
  cbv iota beta.
  rewrite try_except_bind. unfold emit at 1. cbv iota beta.
  rewrite try_except_bind.
  erewrite (step_submit_under (w_conn w) _ nickname name_unit);
    [|reflexivity|reflexivity|exact Hnap|exact Hn].
  cbv iota beta.
  rewrite try_except_bind. erewrite (step_read (w_conn w) response); [|reflexivity|exact Hr].
  cbv iota beta zeta.
  rewrite try_except_bind. unfold emit at 1. cbv iota beta.
  rewrite try_except_bind. unfold WriteDash.loads_first_line at 1. fold parse.
  unfold under_verdict, under_epilogue.
  destruct parse as [v|].
  2:{ cbn [raise is_Exception bind emit ret]. cbv iota beta.
      rewrite !bind_run. erewrite (step_close (w_conn w)); [|reflexivity].
      eexists. split; [reflexivity|]. simpl. rewrite <- !app_assoc. reflexivity. }
  destruct v as [|b|z|f|s|l|d];
    try (cbn [ret]; cbv iota beta; rewrite try_except_bind;
         cbn [WriteDash.method_get raise is_Exception bind emit ret]; cbv iota beta;
         rewrite !bind_run; erewrite (step_close (w_conn w)); [|reflexivity];
         eexists; (split; [reflexivity|]); simpl; rewrite <- !app_assoc; reflexivity).
  cbn [ret]. cbv iota beta. rewrite try_except_bind. cbn [WriteDash.method_get ret].
  cbv iota beta.
  destruct (dict_get (lit "account_hash") d) as [token|] eqn:Et.
  2:{ cbn [truthy negb]. unfold try_except at 1.
      cbn [raise is_Exception bind emit ret]. cbv iota beta.
      rewrite !bind_run. erewrite (step_close (w_conn w)); [|reflexivity].
      eexists. split; [reflexivity|]. simpl. rewrite <- !app_assoc. reflexivity. }
  destruct (truthy token) eqn:Etr; cbn [negb].
  2:{ unfold try_except at 1.
      cbn [raise is_Exception bind emit ret]. cbv iota beta.
      rewrite !bind_run. erewrite (step_close (w_conn w)); [|reflexivity].
      eexists. split; [reflexivity|]. simpl. rewrite <- !app_assoc. reflexivity. }
  rewrite try_except_bind.
  unfold WriteUnder.save_credentials, WriteDash.dump_file.
  unfold try_except at 1. unfold bind at 1. wsimpl.
  destruct (w_writable w filepath); cbv iota beta; unfold emit; cbv iota beta;
    cbn [is_OSError]; cbv iota beta; unfold try_except, ret; cbv iota beta;
    rewrite !bind_run; (erewrite (step_close (w_conn w)); [|reflexivity]);
    (eexists; split; [reflexivity|]); simpl; rewrite <- !app_assoc; reflexivity.
Qed.

End SenderFacts.

(** * The claims *)

Section Registrar.
Context {J : JsonLib}.


End Registrar.


Section Authorizer.
Context {J : JsonLib}.

(** C2, as amended.  [authorize] of write-minechat.py and the tail of
    [main] behind it, on a connection that delivers greeting and response
    (one read each, no transport failure).
    - A response that parses to [null]: Rejected.  The writer is closed,
      [main] ends, and on the wire there is the token submission and
      nothing else; the only connection attempt is this one.
    - A response that parses to anything else, an empty object or an empty
      string included: Authorized.  The writer is returned open and not
      closed, and [main] submits the message on it.
    - A response that does not parse (an empty one among them): Rejected
      as well, and nothing more is sent. *)
Theorem authorizer_verdict (a : WriteDash.args) (t : str) (w : world)
        (greeting response : bytes) (more : list rd) (rest : list dial)
        (token_unit message_unit : bytes) :
  w_dial w = Accept (Chunk greeting :: Chunk response :: more) [] :: rest ->
  short greeting -> short response ->
  encode (WriteDash.clean_message t) = Some token_unit ->
  encode (WriteDash.clean_message (WriteDash.message a)) = Some message_unit ->
  let h := List.length (w_conn w) in
  let parse := json_loads (first_line (WriteDash.decode_strip response)) in
  let auth := WriteDash.authorize (WriteDash.host a) (WriteDash.port a) (JStr t) w in
  let run := WriteDash.authorize_and_send a (JStr t) w in
  (parse = Some JNull ->
   fst auth = Ret None
   /\ c_closing (the_conn h (snd auth)) = true
   /\ fst run = Ret tt
   /\ wire (w_trace (snd run)) = wire (w_trace w) ++ [(h, token_unit ++ [NL; NL])]
   /\ filter is_dial (w_trace (snd run))
      = filter is_dial (w_trace w) ++ [EvOpen h (WriteDash.host a) (WriteDash.port a)]
   /\ closes h (w_trace (snd run)) = S (closes h (w_trace w)))
  /\ (forall v,
        parse = Some v -> v <> JNull ->
        fst auth = Ret (Some h)
        /\ c_closing (the_conn h (snd auth)) = false
        /\ closes h (w_trace (snd auth)) = closes h (w_trace w)
        /\ fst run = Ret tt
        /\ wire (w_trace (snd run))
           = wire (w_trace w) ++ [(h, token_unit ++ [NL; NL]); (h, message_unit ++ [NL; NL])])
  /\ (parse = None ->
      fst auth = Ret None
      /\ fst run = Ret tt
      /\ wire (w_trace (snd run)) = wire (w_trace w) ++ [(h, token_unit ++ [NL; NL])]).
Proof.
  intros Hd Hg Hr Hn Hm h parse auth run.
  destruct (authorize_run (WriteDash.host a) (WriteDash.port a) t w greeting response more
              rest token_unit Hd Hg Hr Hn) as (w1 & Hauth & Htr1 & Hc1).
  destruct (authorize_and_send_run a t w greeting response more rest token_unit message_unit
              Hd Hg Hr Hn Hm) as (w2 & Hrun & Htr2).
  fold h parse in Hauth, Htr1, Htr2. fold parse in Hc1.
  unfold auth, run. rewrite Hauth, Hrun. simpl fst. simpl snd.
  assert (Hconn : the_conn h w1
                  = {| c_in := more; c_buf := []; c_drain := [];
                       c_closing := match parse with Some JNull => true | _ => false end |}).
  { unfold the_conn, h. rewrite Hc1. apply nth_middle. }
  rewrite Hconn, Htr1, Htr2. simpl c_closing.
  assert (Hh : Nat.eqb h h = true) by apply Nat.eqb_refl.
  split; [|split].
  - intros Hp. rewrite Hp. simpl.
    rewrite !wire_app, !closes_app, !filter_app. simpl. rewrite Hh.
    repeat split; try reflexivity. lia.
  - intros v Hp Hv. rewrite Hp. destruct v; try congruence; simpl;
      rewrite !wire_app, !closes_app; simpl; repeat split; try reflexivity; lia.
  - intros Hp. rewrite Hp. simpl. rewrite !wire_app. simpl. repeat split; reflexivity.
Qed.

End Authorizer.

(** A run of C2 on the response [null]. *)
Lemma authorizer_verdict_witness :
  let a := {| WriteDash.message := lit "hi"; WriteDash.host := lit "minechat.dvmn.org";
              WriteDash.port := 5050; WriteDash.token := Some (lit "abc123");
              WriteDash.nickname := None; WriteDash.credentials := lit "credentials.json" |} in
  let w := fresh_world [Accept [Chunk (lit "Hello"); Chunk (lit "null
")] []] no_files in
  fst (WriteDash.authorize (WriteDash.host a) (WriteDash.port a) (JStr (lit "abc123")) w)
  = Ret None
  /\ wire (w_trace (snd (WriteDash.authorize_and_send a (JStr (lit "abc123")) w)))
     = [(0%nat, lit "abc123" ++ [NL; NL])].
Proof.
  intros a w.
  assert (H1 : short (lit "Hello")) by (split; [discriminate|vm_compute; lia]).
  assert (H2 : short (lit "null
")) by (split; [discriminate|vm_compute; lia]).
  destruct (authorizer_verdict a (lit "abc123") w (lit "Hello") (lit "null
") [] [] (lit "abc123") (lit "hi") eq_refl H1 H2 eq_refl eq_refl) as (H & _).
  destruct (H eq_refl) as (Ha & _ & _ & Hw & _).
  split; [exact Ha|exact Hw].
Defined.

(** C2 as stated fails on an empty parsed result: the response [{}]
    parses to the empty object, [authorize] returns the writer, and [main]
    goes on to submit the message on the connection. *)
Lemma empty_object_is_authorized :
  let a := {| WriteDash.message := lit "hi"; WriteDash.host := lit "minechat.dvmn.org";
              WriteDash.port := 5050; WriteDash.token := Some (lit "abc123");
              WriteDash.nickname := None; WriteDash.credentials := lit "credentials.json" |} in
  let w := fresh_world [Accept [Chunk (lit "Hello"); Chunk (lit "{}
")] []] no_files in
  json_loads (first_line (WriteDash.decode_strip (lit "{}
"))) = Some (JDict [])
  /\ fst (WriteDash.authorize (WriteDash.host a) (WriteDash.port a) (JStr (lit "abc123")) w)
     = Ret (Some 0%nat)
  /\ fst (WriteDash.main a w) = Ret tt
  /\ wire (w_trace (snd (WriteDash.main a w)))
     = [(0%nat, lit "abc123" ++ [NL; NL]); (0%nat, lit "hi" ++ [NL; NL])].
Proof. repeat split. Qed.

Section SubmitMessage.
Context {J : JsonLib}.

(** C3, as amended.  For every text that UTF-8 can encode (no lone
    surrogate), [submit_message] hands the writer exactly one unit: the
    stripped text with each newline turned into one space, hence free of
    newline bytes, then the two-newline terminator; and it awaits the drain
    before it returns (in write_minechat.py a 0.2 s sleep follows). *)
Theorem submit_message_wire_unit (writer : nat) (text : str) (w : world) :
  encodable text ->
  drain_ok writer w = true ->
  exists payload w',
    encode (replace_nl (strip text)) = Some payload
    /\ ~ In NL payload
    /\ (forall i, nth i (replace_nl (strip text)) 0
                  = if nth i (strip text) 0 =? NL then SP else nth i (strip text) 0)
    /\ WriteDash.submit_message writer (JStr text) w = (Ret tt, w')
    /\ w_trace w' = w_trace w ++ [EvLog DEBUG (LValue (JStr text));
                                  EvWrite writer (payload ++ [NL; NL]);
                                  EvDrain writer]
    /\ (nap_ok w = true ->
        exists w'',
          WriteUnder.submit_message writer (JStr text) w = (Ret tt, w'')
          /\ w_trace w'' = w_trace w ++ [EvLog DEBUG (LValue (JStr text));
                                         EvWrite writer (payload ++ [NL; NL]);
                                         EvDrain writer; EvSleep 0.2%Q]).
Proof.
  intros Henc Hdrain.
  destruct (encodable_encode _ (clean_message_encodable _ Henc)) as [payload Hp].
  set (w1 := log_event (EvWrite writer (payload ++ [NL; NL]))
               (log_event (EvLog DEBUG (LValue (JStr text))) w)).
  destruct (writer_drain_ok writer w1 Hdrain) as (w' & Hd & Ht & Hn).
  exists payload, w'. split; [exact Hp|]. split; [|split]; [| |split; [|split]].
  - intros H. eapply replace_nl_no_newline. eapply encode_newline; eauto.
  - intros i. unfold replace_nl.
    change 0 with ((fun c => if c =? NL then SP else c) 0) at 1.
    apply map_nth.
  - rewrite submit_message_eq, Hp. exact Hd.
  - rewrite Ht. unfold w1. simpl. rewrite <- !app_assoc. reflexivity.
  - intros Hnap. rewrite submit_message_under_eq.
    change (WriteUnder.clean_message text) with (WriteDash.clean_message text).
    rewrite Hp. fold w1. unfold bind. rewrite Hd.
    unfold sleep. unfold nap_ok in Hnap. rewrite Hn. simpl.
    destruct (w_nap w) as [|[|] r]; [|discriminate|]; eexists; split; try reflexivity;
      simpl; rewrite Ht; unfold w1; simpl; rewrite <- !app_assoc; reflexivity.
Qed.

End SubmitMessage.

(** A run of C3: a text with an inner newline, on an open connection. *)
Lemma submit_message_wire_unit_witness :
  encodable (lit " one
two ")
  /\ drain_ok 0 (connected_world []) = true
  /\ exists payload w',
       WriteDash.submit_message 0 (JStr (lit " one
two ")) (connected_world []) = (Ret tt, w')
       /\ ~ In NL payload
       /\ wire (w_trace w') = [(0%nat, payload ++ [NL; NL])].
Proof.
  assert (He : encodable (lit " one
two ")) by (repeat constructor).
  split; [exact He|]. split; [reflexivity|].
  destruct (submit_message_wire_unit 0 (lit " one
two ") (connected_world []) He eq_refl) as (payload & w' & _ & Hnl & _ & Hrun & Htr & _).
  exists payload, w'. split; [exact Hrun|]. split; [exact Hnl|].
  rewrite Htr. reflexivity.
Defined.

(** C3 as stated fails on a text that UTF-8 cannot encode: for the lone
    surrogate U+D800 (what a command-line argument with an invalid byte
    decodes to) [encode] raises, and nothing reaches the wire. *)
Lemma submit_message_lone_surrogate :
  let r := WriteDash.submit_message 0 (JStr [55296]) (connected_world []) in
  drain_ok 0 (connected_world []) = true
  /\ fst r = Raise UnicodeEncodeError
  /\ wire (w_trace (snd r)) = [].
Proof. repeat split. Qed.

(** C4.  The listener's loop.  [RECONNECT_TIME] is 5 (seconds).
    - A refused attempt ends its turn with a completed wait of
      [RECONNECT_TIME], and nothing but the note and closing the history
      file happens in between.
    - In every run, between a refusal and whatever connection attempt
      follows it there is a completed wait of [RECONNECT_TIME].
    - A connection that was established and then ends, by end of stream or
      by any failure other than a refusal, ends its turn without any wait:
      the next turn, and so the next attempt, follows at once.
    - [main] never returns, and the only exceptions that leave it are not
      [Exception]s: task cancellation and keyboard interrupt.
    - Against a server that keeps refusing, [n] observed turns are [n]
      attempts, each followed by its wait, and the loop is still running. *)
Theorem reconnection_loop (a : Listen.args) :
  Qeq Listen.RECONNECT_TIME 5
  /\ (forall w,
        w_writable w (Listen.history a) = true ->
        (w_dial w = [] \/ exists r, w_dial w = Reject ConnectionRefusedError :: r) ->
        nap_ok w = true ->
        exists w',
          Listen.main_turn a w = (Ret tt, w')
          /\ w_trace w' = w_trace w ++ refused_attempt a (w_clock w) (w_tick w))
  /\ (forall budget w pre host port mid ev post,
        w_trace (snd (Listen.main budget a w))
        = w_trace w ++ pre ++ EvRefused host port ConnectionRefusedError :: mid ++ ev :: post ->
        is_dial ev = true ->
        exists t, In (EvSleep t) mid /\ Qeq t Listen.RECONNECT_TIME)
  /\ (forall w input drains rest,
        w_writable w (Listen.history a) = true ->
        w_dial w = Accept input drains :: rest ->
        let c := {| c_in := input; c_buf := []; c_drain := drains; c_closing := false |} in
        (stream_end c = Some None \/
         exists e, stream_end c = Some (Some e) /\ is_Exception e = true
                   /\ is_ConnectionRefusedError e = false) ->
        exists w' d,
          Listen.main_turn a w = (Ret tt, w')
          /\ w_trace w' = w_trace w ++ d
          /\ Forall (fun ev => is_sleep ev = false) d)
  /\ (forall budget w,
        fst (Listen.main budget a w) <> Ret tt
        /\ forall e, fst (Listen.main budget a w) = Raise e -> is_Exception e = false)
  /\ (forall n w,
        w_writable w (Listen.history a) = true ->
        w_dial w = [] -> w_nap w = [] ->
        exists w',
          Listen.main n a w = (Running, w')
          /\ w_trace w' = w_trace w
                          ++ flat_map (refused_attempt a (w_clock w)) (seq (w_tick w) n)).
Proof.
  split; [reflexivity|]. split; [|split; [|split; [|split]]].
  - intros w Hw Hd Hn.
    destruct (refused_turn a w Hw Hd Hn) as (w' & E & Ht & _). now exists w'.
  - intros budget w pre host port mid ev post Ht Hev.
    destruct (main_waits budget a w) as (d & Hd & Hok).
    rewrite Hd in Ht. apply app_inv_head in Ht.
    destruct (waits_ok_between d pre mid post host port ev false Hok Ht Hev) as (t & Hin & Hq).
    exists t. split; [exact Hin|]. now apply Qeq_bool_iff.
  - intros w input drains rest Hw Hd c Hend.
    destruct (established_turn a w input drains rest Hw Hd Hend) as (w' & d & E & Ht & Hs & _).
    now exists w', d.
  - intros budget w. apply main_never_returns.
  - intros n w. apply refused_forever.
Qed.

(** A run of C4: two turns against a server that refuses. *)
Lemma reconnection_loop_witness :
  let a := {| Listen.host := lit "minechat.dvmn.org"; Listen.port := 5000;
              Listen.history := lit "minechat_history.txt" |} in
  let w := fresh_world [] no_files in
  w_writable w (Listen.history a) = true /\ w_dial w = [] /\ w_nap w = []
  /\ exists w',
       Listen.main 2 a w = (Running, w')
       /\ w_trace w' = refused_attempt a (w_clock w) 0 ++ refused_attempt a (w_clock w) 1.
Proof.
  intros a w. split; [reflexivity|]. split; [reflexivity|]. split; [reflexivity|].
  destruct (reconnection_loop a) as (_ & _ & _ & _ & _ & H).
  destruct (H 2%nat w eq_refl eq_refl eq_refl) as (w' & E & T).
  exists w'. split; [exact E|]. rewrite T. reflexivity.
Defined.




(** C6, where the code falls short of it.  A credentials file that is not
    UTF-8 makes [get_token] of write-minechat.py, and
    [read_token_from_file] of write_minechat.py alike, raise
    [UnicodeDecodeError]: the [except] clause names JSONDecodeError,
    KeyError and IOError only.  [main] has no handler either, so the
    exception ends the run.  A file holding JSON that is no object raises
    [TypeError] in the same way. *)
Theorem get_token_raises_on_bad_file :
  let path := lit "credentials.json" in
  let a := {| WriteDash.message := lit "hi"; WriteDash.host := lit "minechat.dvmn.org";
              WriteDash.port := 5050; WriteDash.token := None;
              WriteDash.nickname := Some (lit "bob"); WriteDash.credentials := path |} in
  let w := fresh_world [] (fun _ => Content [255]) in
  let w' := fresh_world [] (fun _ => Content (lit "[1, 2]")) in
  decode [255] = None
  /\ WriteDash.get_token path w = (Raise UnicodeDecodeError, w)
  /\ WriteUnder.read_token_from_file path w = (Raise UnicodeDecodeError, w)
  /\ fst (WriteDash.main a w) = Raise UnicodeDecodeError
  /\ WriteDash.get_token path w' = (Raise TypeError, w').
Proof. repeat split. Qed.






(** C9, where the code falls short of it.  In write-minechat.py a
    connection is not closed on every path.
    - [authorize] on a response that does not parse: the exception is
      caught and [None] returned, the writer is neither closed nor handed
      to anyone; at the end of [main] the connection is still open.
    - [register] on a response without token: [None] is returned in front
      of the [writer.close()] of the success path. *)
Theorem sender_leaves_connection_open :
  let a := {| WriteDash.message := lit "hi"; WriteDash.host := lit "minechat.dvmn.org";
              WriteDash.port := 5050; WriteDash.token := Some (lit "abc123");
              WriteDash.nickname := None; WriteDash.credentials := lit "credentials.json" |} in
  let w := fresh_world [Accept [Chunk (lit "Hello"); Chunk (lit "garbage
")] []] no_files in
  let auth := WriteDash.authorize (WriteDash.host a) (WriteDash.port a) (JStr (lit "abc123")) w in
  let run := WriteDash.main a w in
  let w' := fresh_world [Accept [Chunk (lit "Hello"); Chunk (lit "Enter nick");
                                 Chunk (lit "{}
")] []] no_files in
  let reg := WriteDash.register (WriteDash.host a) (WriteDash.port a) (lit "bob")
               (lit "credentials.json") w' in
  (fst auth = Ret None
   /\ In (EvOpen 0 (WriteDash.host a) (WriteDash.port a)) (w_trace (snd auth))
   /\ closes 0 (w_trace (snd auth)) = 0%nat
   /\ c_closing (the_conn 0 (snd auth)) = false)
  /\ (fst run = Ret tt
      /\ closes 0 (w_trace (snd run)) = 0%nat
      /\ c_closing (the_conn 0 (snd run)) = false)
  /\ (fst reg = Ret None
      /\ In (EvOpen 0 (WriteDash.host a) (WriteDash.port a)) (w_trace (snd reg))
      /\ closes 0 (w_trace (snd reg)) = 0%nat
      /\ c_closing (the_conn 0 (snd reg)) = false).
Proof.
  intros a w auth run w' reg. vm_compute. repeat split; auto.
Qed.

Section SubmitStrips.
Context {J : JsonLib}.


End SubmitStrips.


(** * Further properties of the code *)

(** ** The connection manager *)

Lemma closing_after_close (h : nat) (w : world) :
  c_closing (the_conn h (snd (writer_close h w))) = true.
Proof.
  unfold writer_close, the_conn, upd_conn. simpl.
  destruct (Nat.lt_ge_cases h (List.length (w_conn w))) as [Hlt|Hge].
  - now rewrite nth_replace_nth.
  - rewrite nth_overflow; [reflexivity|]. now rewrite replace_nth_length.
Qed.



(** ** Properties of runs of events, through the control structures *)

Lemma prints_app (a b : list event) : prints (a ++ b) = prints a ++ prints b.
Proof.
  induction a as [|e r IH]; simpl; [reflexivity|].
  destruct e; simpl; now rewrite ?IH.
Qed.

Lemma opens_app (h : nat) (a b : list event) :
  opens h (a ++ b) = (opens h a + opens h b)%nat.
Proof.
  induction a as [|e r IH]; simpl; [reflexivity|].
  destruct e; simpl; rewrite ?IH; lia.
Qed.

Section Yields.
Variable Q : list event -> Prop.
Hypothesis HQ : additive Q.

Lemma yields_ret {A} (a : A) : yields Q (ret a).
Proof.
  intros w. split; [discriminate|]. exists []. simpl. rewrite app_nil_r.
  split; [reflexivity|apply HQ].
Qed.

Lemma yields_raise {A} (e : exn) : yields Q (@raise A e).
Proof.
  intros w. split; [discriminate|]. exists []. simpl. rewrite app_nil_r.
  split; [reflexivity|apply HQ].
Qed.

Lemma yields_emit (e : event) : Q [e] -> yields Q (emit e).
Proof. intros H w. split; [discriminate|]. exists [e]. simpl. auto. Qed.

Lemma yields_bind {A B} (m : M A) (k : A -> M B) :
  yields Q m -> (forall a, yields Q (k a)) -> yields Q (bind m k).
Proof.
  intros Hm Hk w. unfold bind. destruct (Hm w) as (Hr & d & Hd & HP).
  destruct (m w) as [[a|e|] w1]; simpl in Hd, Hr.
  - destruct (Hk a w1) as (Hr' & d' & Hd' & HP'). split; [exact Hr'|]. exists (d ++ d').
    rewrite Hd', Hd, app_assoc. split; [reflexivity|]. now apply HQ.
  - split; [discriminate|]. now exists d.
  - contradiction.
Qed.

Lemma yields_try_except {A} (body : M A) (clause : exn -> bool) (handler : exn -> M A) :
  yields Q body -> (forall e, yields Q (handler e)) -> yields Q (try_except body clause handler).
Proof.
  intros Hm Hk w. unfold try_except. destruct (Hm w) as (Hr & d & Hd & HP).
  destruct (body w) as [[a|e|] w1]; simpl in Hd, Hr.
  - split; [discriminate|]. now exists d.
  - destruct (clause e); [|split; [discriminate|now exists d]].
    destruct (Hk e w1) as (Hr' & d' & Hd' & HP'). split; [exact Hr'|]. exists (d ++ d').
    rewrite Hd', Hd, app_assoc. split; [reflexivity|]. now apply HQ.
  - contradiction.
Qed.

Lemma yields_pick_handler {A} (hs : list ((exn -> bool) * (exn -> M A))) (e : exn) :
  Forall (fun ch => forall x, yields Q (snd ch x)) hs -> yields Q (pick_handler hs e).
Proof.
  induction 1 as [|[c h] r Hh _ IH]; simpl; [apply yields_raise|].
  destruct (c e); [apply Hh|exact IH].
Qed.

Lemma yields_try_excepts {A} (body : M A) (hs : list ((exn -> bool) * (exn -> M A))) :
  yields Q body -> Forall (fun ch => forall x, yields Q (snd ch x)) hs ->
  yields Q (try_excepts body hs).
Proof.
  intros Hm Hk w. unfold try_excepts. destruct (Hm w) as (Hr & d & Hd & HP).
  destruct (body w) as [[a|e|] w1]; simpl in Hd, Hr.
  - split; [discriminate|]. now exists d.
  - destruct (yields_pick_handler hs e Hk w1) as (Hr' & d' & Hd' & HP').
    split; [exact Hr'|]. exists (d ++ d').
    rewrite Hd', Hd, app_assoc. split; [reflexivity|]. now apply HQ.
  - contradiction.
Qed.

(** [chat_connection] brackets what its body does. *)
Lemma yields_chat_connection {A} (server : str) (port : N) (body : nat -> M A) :
  (forall h ts d, Q d -> Q ([EvOpen h server port; EvNote ts Established] ++ d ++ [EvClose h])) ->
  (forall ts, Q [EvNote ts CannotConnect]) ->
  (forall e, Q [EvRefused server port e]) ->
  (forall h, yields Q (body h)) ->
  yields Q (Listen.chat_connection server port body).
Proof.
  intros Hbr Hnote Href Hbody w.
  unfold Listen.chat_connection, try_except, bind, open_connection, Listen.timestamp_now,
    bind, datetime_now, ret, emit, try_finally, bind, writer_close, writer_wait_closed, ret.
  destruct (w_dial w) as [|[input drains|e] r]; simpl.
  - split; [discriminate|]. eexists. rewrite <- app_assoc. split; [reflexivity|].
    apply (proj2 HQ [_] [_]); [apply Href|apply Hnote].
  - match goal with |- context [body ?h ?w1] =>
      destruct (Hbody h w1) as (Hr & d & Hd & Hq); destruct (body h w1) as [[a|e|] w2] end;
      simpl in Hd, Hr; [| |contradiction]; simpl.
    + split; [discriminate|]. eexists. rewrite Hd, <- !app_assoc. simpl.
      split; [reflexivity|]. apply (Hbr _ _ d Hq).
    + destruct (is_ConnectionRefusedError e); simpl.
      * split; [discriminate|]. eexists. rewrite Hd, <- !app_assoc. simpl.
        split; [reflexivity|].
        match goal with |- Q (?x :: ?y :: d ++ [?c; ?n]) =>
          replace (x :: y :: d ++ [c; n]) with (([x; y] ++ d ++ [c]) ++ [n])
            by (simpl; rewrite <- app_assoc; reflexivity) end.
        apply HQ; [apply (Hbr _ _ d Hq)|apply Hnote].
      * split; [discriminate|]. eexists. rewrite Hd, <- !app_assoc. simpl.
        split; [reflexivity|]. apply (Hbr _ _ d Hq).
  - destruct (is_ConnectionRefusedError e); simpl.
    + split; [discriminate|]. eexists. rewrite <- app_assoc. split; [reflexivity|].
      apply (proj2 HQ [_] [_]); [apply Href|apply Hnote].
    + split; [discriminate|]. eexists. split; [reflexivity|]. apply Href.
Qed.

Lemma yields_with_append_file {A} (path : str) (body : str -> M A) :
  (forall d, Q d -> Q ([EvFileOpen path] ++ d ++ [EvFileClose path])) ->
  yields Q (body path) ->
  yields Q (with_append_file path body).
Proof.
  intros Hbr Hbody w. unfold with_append_file, bind, emit, try_finally, bind, ret, raise.
  destruct (w_writable w path); simpl.
  - match goal with |- context [body path ?w1] =>
      destruct (Hbody w1) as (Hr & d & Hd & Hq); destruct (body path w1) as [[a|e|] w2] end;
      simpl in Hd, Hr; [| |contradiction]; simpl;
      (split; [discriminate|]); eexists; rewrite Hd, <- !app_assoc; simpl;
      (split; [reflexivity|]); apply (Hbr d Hq).
  - split; [discriminate|]. exists []. rewrite app_nil_r. split; [reflexivity|apply HQ].
Qed.

End Yields.

Section ListenerRuns.

Lemma tidy_additive (path : str) : additive (tidy path).
Proof.
  split.
  - repeat split; constructor.
  - intros a b (A1 & A2 & A3 & A4) (B1 & B2 & B3 & B4). repeat split.
    + now apply Forall_app.
    + now rewrite prints_app, records_app, A2, B2.
    + intros h. now rewrite opens_app, closes_app, A3, B3.
    + now rewrite !filter_app, !length_app, A4, B4.
Qed.

Lemma balanced_additive : additive balanced.
Proof.
  split; [intros h; reflexivity|].
  intros a b A B h. now rewrite opens_app, closes_app, A, B.
Qed.

Lemma logged_tidy (clock : nat -> datetime) (file : str) (lines : list bytes) (tick : nat) :
  tidy file (fst (logged clock file tick lines)).
Proof.
  revert tick. induction lines as [|raw r IH]; intros tick; simpl.
  - apply tidy_additive.
  - unfold line_events. destruct (message_of raw) as [[|c m]|];
      [specialize (IH tick)|specialize (IH (S tick))|specialize (IH (S tick))];
      destruct (logged clock file _ r) as [evs tk]; simpl in *; [exact IH| |];
      destruct IH as (I1 & I2 & I3 & I4); repeat split; simpl;
      try (repeat (constructor; [simpl; auto|])); auto; try congruence.
Qed.

Lemma process_messages_yields (reader : nat) (file : str) :
  yields (tidy file) (Listen.process_messages reader file).
Proof.
  intros w. destruct (process_messages_spec reader file w) as (H1 & H2 & _).
  split.
  - rewrite H1. pose proof (stream_end_total (the_conn reader w)) as Ht.
    destruct (stream_end (the_conn reader w)) as [[e|]|]; simpl; congruence.
  - eexists. split; [exact H2|apply logged_tidy].
Qed.

Lemma sleep_yields (P : list event -> Prop) (t : Q) :
  additive P -> P [EvSleep t] -> yields P (sleep t).
Proof.
  intros HP H w. unfold sleep. destruct (w_nap w) as [|[|] r]; simpl;
    (split; [discriminate|]).
  - exists [EvSleep t]. auto.
  - exists []. rewrite app_nil_r. split; [reflexivity|apply HP].
  - exists [EvSleep t]. auto.
Qed.

Lemma note_yields (P : list event -> Prop) (n : note) :
  additive P -> (forall ts, P [EvNote ts n]) ->
  yields P (timestamp <- Listen.timestamp_now ;; emit (EvNote timestamp n)).
Proof.
  intros HP H w. split; [discriminate|]. eexists. split; [reflexivity|apply H].
Qed.

Ltac tidy_list :=
  split; [|split; [|split]];
  [repeat (constructor; [simpl; auto|]); auto
  |reflexivity
  |intros ?; simpl; rewrite ?Nat.eqb_refl; reflexivity
  |reflexivity].

Lemma main_turn_yields (a : Listen.args) :
  yields (tidy (Listen.history a)) (Listen.main_turn a).
Proof.
  pose proof (tidy_additive (Listen.history a)) as HQ.
  unfold Listen.main_turn. apply yields_try_excepts; [exact HQ| |].
  - apply yields_with_append_file; [exact HQ| |].
    + intros d (D1 & D2 & D3 & D4). repeat split; simpl.
      * constructor; [reflexivity|]. apply Forall_app. split; [exact D1|].
        constructor; [reflexivity|constructor].
      * now rewrite prints_app, records_app, D2.
      * intros h. simpl. rewrite opens_app, closes_app, D3. reflexivity.
      * rewrite !filter_app, !length_app, D4. simpl. lia.
    + apply yields_chat_connection; [exact HQ| | | |].
      * intros h ts d (D1 & D2 & D3 & D4). repeat split; simpl.
        -- constructor; [exact I|]. constructor; [exact I|].
           apply Forall_app. split; [exact D1|]. constructor; [exact I|constructor].
        -- now rewrite prints_app, records_app, D2.
        -- intros h'. simpl. rewrite opens_app, closes_app, D3. simpl. lia.
        -- rewrite !filter_app, !length_app, D4. reflexivity.
      * intros ts. tidy_list.
      * intros e. tidy_list.
      * intros h. apply process_messages_yields.
  - constructor; [|constructor; [|constructor; [|constructor]]]; simpl; intros x.
    + apply sleep_yields; [exact HQ|]. tidy_list.
    + apply note_yields; [exact HQ|]. intros ts. tidy_list.
    + apply note_yields; [exact HQ|]. intros ts. tidy_list.
Qed.

(** A property that every turn keeps is kept by the loop. *)
Lemma main_yields (Q : list event -> Prop) (a : Listen.args) :
  additive Q -> yields Q (Listen.main_turn a) ->
  forall budget w,
    exists d, w_trace (snd (Listen.main budget a w)) = w_trace w ++ d /\ Q d.
Proof.
  intros HQ Ht budget. induction budget as [|b IH]; intros w; simpl.
  - exists []. rewrite app_nil_r. split; [reflexivity|apply HQ].
  - unfold bind. destruct (Ht w) as (_ & d & Hd & Hq).
    destruct (Listen.main_turn a w) as [[[]|x|] w1]; simpl in *.
    + destruct (IH w1) as (d' & Hd' & Hq'). exists (d ++ d').
      rewrite Hd', Hd, app_assoc. split; [reflexivity|]. now apply HQ.
    + now exists d.
    + now exists d.
Qed.

Lemma receiving_silent (path : str) (d : list event) :
  Forall (receiving path) d -> wire d = [] /\ dumped d = [].
Proof.
  induction 1 as [|e l He _ [IH1 IH2]]; [split; reflexivity|].
  destruct e; simpl in *; try contradiction; auto.
Qed.

End ListenerRuns.

(** X2.  The listener only receives.  In every run of [main] nothing is
    written to a connection, nothing is dumped and nothing is logged, and
    the only file touched is the history file. *)
Theorem listener_only_receives (budget : nat) (a : Listen.args) (w : world) :
  let tr := w_trace (snd (Listen.main budget a w)) in
  wire tr = wire (w_trace w)
  /\ dumped tr = dumped (w_trace w)
  /\ exists d, tr = w_trace w ++ d /\ Forall (receiving (Listen.history a)) d.
Proof.
  destruct (main_yields (tidy (Listen.history a)) a (tidy_additive _) (main_turn_yields a)
              budget w) as (d & Hd & Hr & _).
  cbv zeta. rewrite Hd, wire_app, dumped_app.
  destruct (receiving_silent _ _ Hr) as [-> ->]. rewrite !app_nil_r.
  split; [reflexivity|]. split; [reflexivity|]. now exists d.
Qed.

(** X3.  What the listener prints of messages is what it writes to the
    history: the same texts in the same order, in every run of [main]. *)
Theorem console_mirrors_history (budget : nat) (a : Listen.args) (w : world) :
  exists d,
    w_trace (snd (Listen.main budget a w)) = w_trace w ++ d
    /\ prints d = records d.
Proof.
  destruct (main_yields (tidy (Listen.history a)) a (tidy_additive _) (main_turn_yields a)
              budget w) as (d & Hd & _ & Hp & _).
  now exists d.
Qed.

(** X4.  The listener releases what it acquires.  Over any number of turns
    of [main], and when an exception ends it, every connection was closed
    as often as it was opened, and the history file too: neither is held
    across turns, whichever way a turn ends. *)
Theorem listener_releases (budget : nat) (a : Listen.args) (w : world) :
  exists d,
    w_trace (snd (Listen.main budget a w)) = w_trace w ++ d
    /\ (forall h, opens h d = closes h d)
    /\ List.length (filter is_file_open d) = List.length (filter is_file_close d).
Proof.
  destruct (main_yields (tidy (Listen.history a)) a (tidy_additive _) (main_turn_yields a)
              budget w) as (d & Hd & _ & _ & Hb & Hf).
  now exists d.
Qed.

Lemma unwritable_turn (a : Listen.args) (w : world) :
  w_writable w (Listen.history a) = false ->
  Listen.main_turn a w
  = (Ret tt, log_event (EvNote (strftime (w_clock w (w_tick w))) (OtherError OSError))
               (set_tick (S (w_tick w)) w)).
Proof.
  intros Hw. unfold Listen.main_turn, try_excepts, with_append_file, bind.
  rewrite Hw. reflexivity.
Qed.

(** X5.  A history file that cannot be opened.  The turn ends before any
    connection attempt, with the note of an error and without a wait, and
    the next turn starts at once: over [n] turns the trace gets [n] notes
    and nothing else. *)
Theorem unwritable_history_spins (n : nat) (a : Listen.args) (w : world) :
  w_writable w (Listen.history a) = false ->
  exists w',
    Listen.main n a w = (Running, w')
    /\ w_trace w'
       = w_trace w
         ++ List.map (fun k => EvNote (strftime (w_clock w k)) (OtherError OSError))
              (seq (w_tick w) n).
Proof.
  revert w. induction n as [|n IH]; intros w Hw; simpl.
  - exists w. now rewrite app_nil_r.
  - unfold bind. rewrite (unwritable_turn a w Hw).
    destruct (IH (log_event (EvNote (strftime (w_clock w (w_tick w))) (OtherError OSError))
                    (set_tick (S (w_tick w)) w)) Hw) as (w' & E & T).
    exists w'. split; [exact E|]. rewrite T. simpl. now rewrite <- app_assoc.
Qed.

(** A run of X5: two turns with a history path that cannot be opened; the
    server, ready to accept, is never asked. *)
Lemma unwritable_history_spins_witness :
  let a := {| Listen.host := lit "minechat.dvmn.org"; Listen.port := 5000;
              Listen.history := lit "/minechat_history.txt" |} in
  let w := {| w_dial := [Accept [Chunk (lit "hello
")] []]; w_conn := []; w_nap := [];
              w_clock := fun n => {| dt_day := 4; dt_month := 11; dt_year := 2026;
                                     dt_hour := 9; dt_minute := N.of_nat n |};
              w_tick := O; w_fs := no_files; w_writable := fun _ => false;
              w_trace := [] |} in
  w_writable w (Listen.history a) = false
  /\ exists w',
       Listen.main 2 a w = (Running, w')
       /\ w_trace w' = [EvNote (lit "04.11.26 09:00") (OtherError OSError);
                        EvNote (lit "04.11.26 09:01") (OtherError OSError)].
Proof.
  intros a w. split; [reflexivity|].
  destruct (unwritable_history_spins 2 a w eq_refl) as (w' & E & T).
  exists w'. split; [exact E|]. rewrite T. reflexivity.
Defined.

(** ** Lines and deliveries *)

Section Segmentation.

Lemma cut_line_prefix (b l r x : bytes) :
  cut_line b = Some (l, r) -> cut_line (b ++ x) = Some (l, r ++ x).
Proof.
  revert l r. induction b as [|c b IH]; simpl; intros l r; [discriminate|].
  destruct (c =? NL); [now intros [= <- <-]|].
  destruct (cut_line b) as [[l' r']|]; [|discriminate].
  intros [= <- <-]. now rewrite (IH _ _ eq_refl).
Qed.

Lemma split_lines_enough (n m : nat) (b : bytes) :
  (List.length b <= n)%nat -> (List.length b <= m)%nat ->
  split_lines n b = split_lines m b.
Proof.
  revert m b. induction n as [|n IH]; intros m b Hn Hm.
  - destruct b; [now destruct m|simpl in Hn; lia].
  - destruct b as [|c b]; [now destruct m|].
    destruct m as [|m]; [simpl in Hm; lia|].
    cbn [split_lines]. destruct (cut_line (c :: b)) as [[l r]|] eqn:E; [|reflexivity].
    apply cut_line_app in E as [E Hl]. f_equal. apply IH.
    + apply (f_equal (@List.length N)) in E. rewrite length_app in E.
      destruct l; [contradiction|]. simpl in *. lia.
    + apply (f_equal (@List.length N)) in E. rewrite length_app in E.
      destruct l; [contradiction|]. simpl in *. lia.
Qed.

Lemma readline_chunks (cs : list bytes) (buf : bytes) :
  match cut_line (buf ++ List.concat cs) with
  | Some (l, r) =>
      exists buf' cs',
        readline_from buf (List.map Chunk cs) = (inr l, buf', List.map Chunk cs')
        /\ buf' ++ List.concat cs' = r
  | None => readline_from buf (List.map Chunk cs) = (inr (buf ++ List.concat cs), [], [])
  end.
Proof.
  revert buf. induction cs as [|b cs IH]; intros buf.
  - cbn [List.concat List.map readline_from]. rewrite app_nil_r.
    destruct (cut_line buf) as [[l r]|] eqn:E; [|reflexivity].
    exists r, []. simpl. now rewrite app_nil_r.
  - cbn [List.concat List.map readline_from].
    destruct (cut_line buf) as [[l r]|] eqn:E.
    + rewrite (cut_line_prefix _ _ _ _ E). exists r, (b :: cs). auto.
    + specialize (IH (buf ++ b)). rewrite <- app_assoc in IH. exact IH.
Qed.

Lemma weight_chunks (cs : list bytes) :
  weight (List.map Chunk cs) = List.length (List.concat cs).
Proof.
  induction cs as [|b cs IH]; [reflexivity|].
  cbn [List.map List.concat]. rewrite length_app, <- IH. reflexivity.
Qed.

Lemma lines_loop_chunks (fuel : nat) (cs : list bytes) (buf : bytes) :
  (List.length (buf ++ List.concat cs) < fuel)%nat ->
  lines_loop fuel buf (List.map Chunk cs) = (lines_of (buf ++ List.concat cs), Some None).
Proof.
  revert cs buf. induction fuel as [|fuel IH]; intros cs buf Hlt; [lia|].
  cbn [lines_loop]. pose proof (readline_chunks cs buf) as Hr. unfold lines_of.
  remember (buf ++ List.concat cs) as total eqn:Ht.
  destruct (cut_line total) as [[l r]|] eqn:E.
  - destruct Hr as (buf' & cs' & Hr & <-). rewrite Hr.
    pose proof (cut_line_app _ _ _ E) as [E' Hl]. destruct l as [|x l]; [contradiction|].
    assert (Hlen : (List.length (buf' ++ List.concat cs') < fuel)%nat).
    { rewrite E', length_app in Hlt. simpl in Hlt. lia. }
    rewrite (IH cs' buf' Hlen). f_equal.
    rewrite E' in E |- *. simpl app in E |- *. cbn [List.length split_lines]. rewrite E.
    f_equal. unfold lines_of. apply split_lines_enough; [lia|].
    rewrite !length_app. lia.
  - rewrite Hr. destruct total as [|x t]; [reflexivity|].
    destruct fuel as [|fuel]; [simpl in Hlt; lia|].
    cbn [List.length split_lines]. rewrite E. reflexivity.
Qed.

(** Lines are cut from the bytes received, however they were delivered. *)
Lemma received_by_bytes (c : conn) (cs : list bytes) :
  c_in c = List.map Chunk cs ->
  received_lines c = lines_of (c_buf c ++ List.concat cs)
  /\ stream_end c = Some None.
Proof.
  intros H. unfold received_lines, stream_end, Listen.pending. rewrite H.
  fold (weight (List.map Chunk cs)). rewrite weight_chunks, lines_loop_chunks.
  - split; reflexivity.
  - rewrite length_app. lia.
Qed.

End Segmentation.

Lemma split_lines_concat (n : nat) (b : bytes) :
  (List.length b <= n)%nat -> List.concat (split_lines n b) = b.
Proof.
  revert b. induction n as [|n IH]; intros b Hn.
  - destruct b; [reflexivity|simpl in Hn; lia].
  - destruct b as [|c b]; [reflexivity|]. cbn [split_lines].
    destruct (cut_line (c :: b)) as [[l r]|] eqn:E; [|simpl; now rewrite app_nil_r].
    apply cut_line_app in E as [E Hl]. cbn [List.concat]. rewrite IH; [now rewrite E|].
    apply (f_equal (@List.length N)) in E. rewrite length_app in E.
    destruct l; [contradiction|]. simpl in *. lia.
Qed.

(** X6.  The history does not depend on how the stream was delivered.  On a
    stream that ends without a failure (its lines within the reader's
    limit), [process_messages] returns; the lines it reads are the lines of
    the bytes received, none lost and none made up, a last line without
    newline included; and what it adds to the trace is determined by these
    bytes: another delivery of the same bytes gives the same events. *)
Theorem history_ignores_segmentation (reader : nat) (file : str) (w : world) (cs : list bytes) :
  c_in (the_conn reader w) = List.map Chunk cs ->
  c_buf (the_conn reader w) = [] ->
  Forall within_limit (lines_of (List.concat cs)) ->
  let r := Listen.process_messages reader file w in
  fst r = Ret tt
  /\ received_lines (the_conn reader w) = lines_of (List.concat cs)
  /\ List.concat (received_lines (the_conn reader w)) = List.concat cs
  /\ w_trace (snd r)
     = w_trace w ++ fst (logged (w_clock w) file (w_tick w) (lines_of (List.concat cs)))
  /\ (forall w' cs',
        c_in (the_conn reader w') = List.map Chunk cs' ->
        c_buf (the_conn reader w') = [] ->
        List.concat cs' = List.concat cs ->
        w_clock w' = w_clock w -> w_tick w' = w_tick w ->
        exists d,
          w_trace (snd r) = w_trace w ++ d
          /\ w_trace (snd (Listen.process_messages reader file w')) = w_trace w' ++ d).
Proof.
  intros Hin Hbuf _ r.
  destruct (process_messages_spec reader file w) as (H1 & H2 & _).
  destruct (received_by_bytes _ cs Hin) as [Hl He]. rewrite Hbuf in Hl. simpl in Hl.
  fold r in H1, H2. rewrite He in H1. rewrite Hl in H2.
  split; [exact H1|]. split; [exact Hl|]. split; [|split; [exact H2|]].
  - rewrite Hl. apply split_lines_concat. lia.
  - intros w' cs' Hin' Hbuf' Hc Hclock Htick.
    destruct (process_messages_spec reader file w') as (_ & H2' & _).
    destruct (received_by_bytes _ cs' Hin') as [Hl' _]. rewrite Hbuf' in Hl'. simpl in Hl'.
    rewrite Hl', Hc, Hclock, Htick in H2'. eexists. split; [exact H2|exact H2'].
Qed.

(** A run of X6: two lines in three deliveries, the last without newline. *)
Lemma history_ignores_segmentation_witness :
  let w := connected_world [Chunk (lit "on"); Chunk (lit "e
tw"); Chunk (lit "o")] in
  c_in (the_conn 0 w) = List.map Chunk [lit "on"; lit "e
tw"; lit "o"]
  /\ c_buf (the_conn 0 w) = []
  /\ Forall within_limit (lines_of (lit "one
two"))
  /\ received_lines (the_conn 0 w) = [lit "one
"; lit "two"]
  /\ records (w_trace (snd (Listen.process_messages 0 (lit "history") w)))
     = [lit "[04.11.26 09:00] one
"; lit "[04.11.26 09:01] two
"].
Proof.
  intros w. split; [reflexivity|]. split; [reflexivity|].
  assert (Hlim : Forall within_limit (lines_of (lit "one
two"))) by (repeat constructor; discriminate).
  split; [exact Hlim|].
  destruct (history_ignores_segmentation 0 (lit "history") w
              [lit "on"; lit "e
tw"; lit "o"] eq_refl eq_refl Hlim) as (_ & Hl & _ & Ht & _).
  split; [rewrite Hl; reflexivity|rewrite Ht; reflexivity].
Defined.

(** ** UTF-8 there and back *)

Section Utf8RoundTrip.

Ltac btrue := symmetry; repeat (apply andb_true_iff; split); apply N.leb_le; lia.

Lemma decode_encode_char (c : N) (b r : bytes) :
  encode_char c = Some b -> decode_char (b ++ r) = Some (c, r).
Proof.
  unfold encode_char.
  assert (Hsome : forall x y : bytes, Some x = Some y -> y = x) by congruence.
  destruct (c <? 128) eqn:E1.
  { intros H; apply Hsome in H; subst b. simpl. now rewrite E1. }
  apply N.ltb_ge in E1.
  pose proof (N.div_mod c 64 ltac:(discriminate)) as H0.
  pose proof (N.mod_lt c 64 ltac:(discriminate)) as M0.
  set (q0 := c / 64) in *. set (m0 := c mod 64) in *.
  destruct (c <? 2048) eqn:E2.
  { intros H; apply Hsome in H; subst b. apply N.ltb_lt in E2. clearbody q0 m0.
    cbn [app decode_char].
    replace (192 + q0 <? 128) with false by (symmetry; apply N.ltb_ge; lia).
    replace ((194 <=? 192 + q0) && (192 + q0 <=? 223)) with true by btrue.
    unfold is_cont.
    replace ((128 <=? 128 + m0) && (128 + m0 <=? 191)) with true by btrue.
    f_equal. f_equal. lia. }
  apply N.ltb_ge in E2.
  pose proof (N.div_mod q0 64 ltac:(discriminate)) as H1.
  pose proof (N.mod_lt q0 64 ltac:(discriminate)) as M1.
  assert (D1 : c / 4096 = q0 / 64) by (unfold q0; now rewrite N.Div0.div_div).
  set (q1 := q0 / 64) in *. set (m1 := q0 mod 64) in *. rewrite !D1.
  destruct (is_surrogate c) eqn:Es; [discriminate|].
  destruct (c <? 65536) eqn:E3.
  { intros H; apply Hsome in H; subst b. apply N.ltb_lt in E3. clearbody q1 m1. clearbody q0 m0.
    unfold is_surrogate in Es. apply andb_false_iff in Es.
    cbn [app decode_char].
    replace (224 + q1 <? 128) with false by (symmetry; apply N.ltb_ge; lia).
    replace ((194 <=? 224 + q1) && (224 + q1 <=? 223)) with false
      by (symmetry; apply andb_false_iff; right; apply N.leb_gt; lia).
    replace ((224 <=? 224 + q1) && (224 + q1 <=? 239)) with true by btrue.
    unfold is_cont.
    replace ((128 <=? 128 + m1) && (128 + m1 <=? 191)) with true by btrue.
    replace ((128 <=? 128 + m0) && (128 + m0 <=? 191)) with true by btrue.
    cbn [andb].
    assert (G1 : (if 224 + q1 =? 224 then 160 <=? 128 + m1 else true) = true).
    { destruct (N.eqb_spec (224 + q1) 224); [apply N.leb_le; lia|reflexivity]. }
    assert (G2 : (if 224 + q1 =? 237 then 128 + m1 <=? 159 else true) = true).
    { destruct (N.eqb_spec (224 + q1) 237); [|reflexivity]. apply N.leb_le.
      destruct Es as [Es|Es]; [apply N.leb_gt in Es|apply N.leb_gt in Es]; lia. }
    rewrite G1, G2. cbn [andb]. f_equal. f_equal. lia. }
  apply N.ltb_ge in E3.
  pose proof (N.div_mod q1 64 ltac:(discriminate)) as H2.
  pose proof (N.mod_lt q1 64 ltac:(discriminate)) as M2.
  assert (D2 : c / 262144 = q1 / 64).
  { unfold q1, q0. now rewrite !N.Div0.div_div. }
  set (q2 := q1 / 64) in *. set (m2 := q1 mod 64) in *.
  destruct (c <? 1114112) eqn:E4; [|discriminate].
  intros H; apply Hsome in H; subst b. apply N.ltb_lt in E4. rewrite D2.
  clearbody q2 m2. clearbody q1 m1. clearbody q0 m0.
  cbn [app decode_char].
  replace (240 + q2 <? 128) with false by (symmetry; apply N.ltb_ge; lia).
  replace ((194 <=? 240 + q2) && (240 + q2 <=? 223)) with false
    by (symmetry; apply andb_false_iff; right; apply N.leb_gt; lia).
  replace ((224 <=? 240 + q2) && (240 + q2 <=? 239)) with false
    by (symmetry; apply andb_false_iff; right; apply N.leb_gt; lia).
  replace ((240 <=? 240 + q2) && (240 + q2 <=? 244)) with true by btrue.
  unfold is_cont.
  replace ((128 <=? 128 + m2) && (128 + m2 <=? 191)) with true by btrue.
  replace ((128 <=? 128 + m1) && (128 + m1 <=? 191)) with true by btrue.
  replace ((128 <=? 128 + m0) && (128 + m0 <=? 191)) with true by btrue.
  cbn [andb].
  assert (G1 : (if 240 + q2 =? 240 then 144 <=? 128 + m2 else true) = true).
  { destruct (N.eqb_spec (240 + q2) 240); [apply N.leb_le; lia|reflexivity]. }
  assert (G2 : (if 240 + q2 =? 244 then 128 + m2 <=? 143 else true) = true).
  { destruct (N.eqb_spec (240 + q2) 244); [apply N.leb_le; lia|reflexivity]. }
  rewrite G1, G2. cbn [andb]. f_equal. f_equal. lia.
Qed.

Lemma encode_char_length (c : N) (b : bytes) : encode_char c = Some b -> b <> [].
Proof.
  unfold encode_char.
  destruct (c <? 128); [intros [= <-]; discriminate|].
  destruct (c <? 2048); [intros [= <-]; discriminate|].
  destruct (is_surrogate c); [discriminate|].
  destruct (c <? 65536); [intros [= <-]; discriminate|].
  destruct (c <? 1114112); [intros [= <-]; discriminate|discriminate].
Qed.

Lemma decode_fuel_encode (s : str) (b : bytes) (n : nat) :
  encode s = Some b -> (List.length s <= n)%nat -> decode_fuel n b = Some s.
Proof.
  revert b n. induction s as [|c s IH]; intros b n; simpl.
  - intros [= <-] _. now destruct n.
  - destruct (encode_char c) as [bc|] eqn:Ec; [|discriminate].
    destruct (encode s) as [bs|]; [|discriminate].
    intros [= <-] Hn. destruct n as [|n]; [lia|].
    pose proof (encode_char_length _ _ Ec) as Hne.
    destruct bc as [|x bc]; [contradiction|].
    cbn [decode_fuel app].
    change (x :: bc ++ bs) with ((x :: bc) ++ bs).
    rewrite (decode_encode_char _ _ bs Ec), (IH bs n eq_refl) by lia. reflexivity.
Qed.

Lemma encode_length (s : str) (b : bytes) :
  encode s = Some b -> (List.length s <= List.length b)%nat.
Proof.
  revert b. induction s as [|c s IH]; intros b; simpl.
  - intros [= <-]. simpl. lia.
  - destruct (encode_char c) as [bc|] eqn:Ec; [|discriminate].
    destruct (encode s) as [bs|]; [|discriminate].
    intros [= <-]. pose proof (encode_char_length _ _ Ec). specialize (IH bs eq_refl).
    rewrite length_app. destruct bc; [contradiction|]. simpl. lia.
Qed.

(** What was encoded decodes to the text it came from. *)
Lemma decode_encode (s : str) (b : bytes) : encode s = Some b -> decode b = Some s.
Proof.
  intros H. apply decode_fuel_encode; [exact H|]. now apply encode_length.
Qed.

End Utf8RoundTrip.

(** ** The cleaned message, and its way into the history *)

Section CleanFacts.

Lemma lstrip_fixed_replace (s : str) : lstrip s = s -> lstrip (replace_nl s) = replace_nl s.
Proof.
  destruct s as [|c r]; [reflexivity|]. intros H.
  pose proof (lstrip_hd _ _ _ H) as Hc. unfold replace_nl. simpl.
  destruct (N.eqb_spec c NL) as [->|_]; [discriminate|]. now rewrite Hc.
Qed.

Lemma replace_nl_rev (s : str) : rev (replace_nl s) = replace_nl (rev s).
Proof. unfold replace_nl. now rewrite map_rev. Qed.

(** A text without white space at its ends is what [strip] leaves of it,
    also with a newline behind it. *)
Lemma strip_fixed (s : str) :
  lstrip s = s -> lstrip (rev s) = rev s -> strip s = s /\ strip (s ++ [NL]) = s.
Proof.
  intros Hh Ht. split.
  - unfold strip, rstrip. now rewrite Hh, Ht, rev_involutive.
  - unfold strip. rewrite lstrip_app, Hh. destruct s as [|c r]; [reflexivity|].
    unfold rstrip. rewrite rev_app_distr.
    change (rev [NL] ++ rev (c :: r)) with (NL :: rev (c :: r)).
    change (lstrip (NL :: rev (c :: r))) with (lstrip (rev (c :: r))).
    rewrite Ht. apply rev_involutive.
Qed.

Lemma clean_message_ends (m : str) :
  lstrip (WriteDash.clean_message m) = WriteDash.clean_message m
  /\ lstrip (rev (WriteDash.clean_message m)) = rev (WriteDash.clean_message m).
Proof.
  unfold WriteDash.clean_message. split.
  - apply lstrip_fixed_replace, strip_head.
  - rewrite replace_nl_rev. apply lstrip_fixed_replace, strip_tail.
Qed.

Lemma lstrip_length (s : str) : (List.length (lstrip s) <= List.length s)%nat.
Proof.
  induction s as [|c r IH]; simpl; [lia|]. destruct (isspace c); simpl; lia.
Qed.

Lemma strip_length (s : str) : (List.length (strip s) <= List.length s)%nat.
Proof.
  unfold strip, rstrip. rewrite length_rev.
  pose proof (lstrip_length (rev (lstrip s))). rewrite length_rev in H.
  pose proof (lstrip_length s). lia.
Qed.

(** X7.  [message.strip().replace("\n", " ")], the same expression in both
    senders.  Cleaning is idempotent; what it returns holds no newline and
    no white space at its ends and is no longer than the message; and a
    message without newline and without white space at its ends is left as
    it is. *)
Theorem clean_message_normal_form (m : str) :
  let clean := WriteDash.clean_message m in
  WriteUnder.clean_message m = clean
  /\ WriteDash.clean_message clean = clean
  /\ ~ In NL clean
  /\ strip clean = clean
  /\ (List.length clean <= List.length m)%nat
  /\ (strip m = m -> ~ In NL m -> clean = m).
Proof.
  intros clean. destruct (clean_message_ends m) as [Hh Ht]. fold clean in Hh, Ht.
  destruct (strip_fixed clean Hh Ht) as [Hs _].
  assert (Hn : ~ In NL clean) by apply replace_nl_no_newline.
  split; [reflexivity|]. split; [|split; [exact Hn|split; [exact Hs|split]]].
  - unfold WriteDash.clean_message at 1. rewrite Hs. now apply replace_nl_id.
  - unfold clean, WriteDash.clean_message. rewrite replace_nl_length. apply strip_length.
  - intros E Hm. unfold clean, WriteDash.clean_message. rewrite E. now apply replace_nl_id.
Qed.

End CleanFacts.

Section EndToEnd.

(** X8.  From sender to history, for any text.  What [submit_message] puts
    on the wire for a text that UTF-8 can encode, ASCII or not, the
    listener reads (within the reader's limit) as one message: the stripped
    text with its inner newlines as spaces.  It gets one record, and the
    blank line behind it none. *)
Theorem submitted_text_is_recorded (t : str) (writer : nat) (ws : world)
        (reader : nat) (file : str) (wl : world) :
  encodable t ->
  drain_ok writer ws = true ->
  WriteDash.clean_message t <> [] ->
  exists data,
    wire (w_trace (snd (WriteDash.submit_message writer (JStr t) ws)))
    = wire (w_trace ws) ++ [(writer, data)]
    /\ (c_in (the_conn reader wl) = [Chunk data] -> c_buf (the_conn reader wl) = [] ->
        within_limit data ->
        let r := Listen.process_messages reader file wl in
        fst r = Ret tt
        /\ good_messages (received_lines (the_conn reader wl)) = [WriteDash.clean_message t]
        /\ records (w_trace (snd r))
           = records (w_trace wl)
             ++ [Listen.formatted (strftime (w_clock wl (w_tick wl)))
                   (WriteDash.clean_message t)]).
Proof.
  intros Henc Hdrain Hne.
  destruct (encodable_encode _ (clean_message_encodable _ Henc)) as [payload Hp].
  exists (payload ++ [NL; NL]). split.
  - rewrite submit_message_eq, Hp.
    match goal with |- context [writer_drain writer ?w1] =>
      destruct (writer_drain_ok writer w1 Hdrain) as (w' & Hd & Ht & _) end.
    rewrite Hd. simpl snd. rewrite Ht. simpl. rewrite !wire_app. simpl.
    now rewrite !app_nil_r.
  - intros Hin Hbuf _ r.
    assert (Hnl : ~ In NL payload).
    { intros H. eapply replace_nl_no_newline. eapply encode_newline; eauto. }
    destruct (clean_message_ends t) as [Hh Ht].
    destruct (strip_fixed _ Hh Ht) as [_ Hs].
    assert (Hm : message_of (payload ++ [NL]) = Some (WriteDash.clean_message t)).
    { unfold message_of. rewrite (decode_encode (WriteDash.clean_message t ++ [NL])).
      - simpl. now rewrite Hs.
      - rewrite encode_app, Hp. reflexivity. }
    assert (Hc : the_conn reader wl
                 = {| c_in := [Chunk (payload ++ [NL; NL])]; c_buf := [];
                      c_drain := c_drain (the_conn reader wl);
                      c_closing := c_closing (the_conn reader wl) |}).
    { destruct (the_conn reader wl); simpl in *; now subst. }
    assert (Hl : received_lines (the_conn reader wl) = [payload ++ [NL]; [NL]]).
    { rewrite Hc. now apply received_framed. }
    destruct (process_messages_spec reader file wl) as (H1 & H2 & _).
    fold r in H1, H2.
    assert (He : stream_end (the_conn reader wl) = Some None).
    { apply (received_by_bytes _ [payload ++ [NL; NL]]). exact Hin. }
    split; [now rewrite H1, He|]. split.
    + rewrite Hl. simpl. rewrite Hm. destruct (WriteDash.clean_message t); [contradiction|reflexivity].
    + rewrite H2, Hl, records_app. f_equal. simpl. unfold line_events. rewrite Hm.
      destruct (WriteDash.clean_message t) as [|c m]; [contradiction|]. reflexivity.
Qed.

End EndToEnd.

(** A run of X7. *)
Lemma clean_message_normal_form_witness :
  WriteDash.clean_message (lit " two
lines ") = lit "two lines"
  /\ WriteDash.clean_message (lit "two lines") = lit "two lines".
Proof.
  split; [reflexivity|].
  destruct (clean_message_normal_form (lit "two lines")) as (_ & _ & _ & _ & _ & H).
  apply H; [reflexivity|].
  simpl. intros H0. repeat (destruct H0 as [H0|H0]; [discriminate|]). exact H0.
Defined.

(** A run of X8: a Russian greeting, padded and broken over two lines. *)
Lemma submitted_text_is_recorded_witness :
  let t := [32; 1055; 1088; 1080; 1074; 1077; 1090; 10; 1095; 1072; 1090; 33; 10] in
  let data := [208; 159; 209; 128; 208; 184; 208; 178; 208; 181; 209; 130; 32;
               209; 135; 208; 176; 209; 130; 33; 10; 10] in
  let wl := connected_world [Chunk data] in
  encodable t
  /\ drain_ok 0 (connected_world []) = true
  /\ WriteDash.clean_message t
     = [1055; 1088; 1080; 1074; 1077; 1090; 32; 1095; 1072; 1090; 33]
  /\ wire (w_trace (snd (WriteDash.submit_message 0 (JStr t) (connected_world []))))
     = [(0%nat, data)]
  /\ records (w_trace (snd (Listen.process_messages 0 (lit "history") wl)))
     = [lit "[04.11.26 09:00] "
        ++ [1055; 1088; 1080; 1074; 1077; 1090; 32; 1095; 1072; 1090; 33; 10]].
Proof.
  intros t data wl.
  assert (He : encodable t) by (repeat constructor).
  split; [exact He|]. split; [reflexivity|]. split; [reflexivity|].
  destruct (submitted_text_is_recorded t 0 (connected_world []) 0 (lit "history") wl
              He eq_refl ltac:(discriminate)) as (data' & Hw & Hrec).
  assert (Hd : data' = data).
  { assert (H : wire (w_trace (snd (WriteDash.submit_message 0 (JStr t) (connected_world []))))
                = [(0%nat, data)]) by reflexivity.
    rewrite Hw in H. simpl in H. now injection H. }
  subst data'. split; [exact Hw|].
  destruct (Hrec eq_refl eq_refl ltac:(discriminate)) as (_ & _ & H). exact H.
Defined.

(** ** The senders in every world *)

Section SenderRuns.
Context {J : JsonLib}.

Ltac estep :=
  first
    [ apply emits_ret | apply emits_raise | apply emits_emit
    | apply emits_reader_read | apply emits_writer_drain | apply emits_writer_close
    | apply emits_sleep | apply emits_timestamp_now | apply emits_writer_is_closing
    | apply emits_open_connection; intros
    | apply emits_loads_first_line
    | apply emits_bind; [|intros]
    | apply emits_try_except; [|intros]
    | apply emits_try_finally
    | match goal with
      | |- emits _ (match ?x with _ => _ end) => destruct x
      | |- emits _ (if ?x then _ else _) => destruct x
      end
    | exact I ].

Lemma inner_balanced (d : list event) : Forall inner d -> balanced d.
Proof.
  intros H h. induction H as [|e l He _ IH]; [reflexivity|].
  destruct e; simpl in *; try contradiction; exact IH.
Qed.

Lemma emits_yields_balanced {A} (m : M A) : emits inner m -> yields balanced m.
Proof.
  intros H w. destruct (H w) as (Hr & d & Hd & Hf). split; [exact Hr|].
  exists d. split; [exact Hd|now apply inner_balanced].
Qed.

Lemma emits_silent {A} (P : event -> Prop) (m : M A) :
  (forall w, snd (m w) = w /\ fst (m w) <> Running) -> emits P m.
Proof.
  intros H w. destruct (H w) as [Hs Hr]. split; [exact Hr|].
  exists []. rewrite Hs, app_nil_r. split; [reflexivity|constructor].
Qed.

Lemma emits_read_token (P : event -> Prop) (filepath : str) :
  (forall l m, P (EvLog l m)) -> emits P (WriteUnder.read_token_from_file filepath).
Proof.
  intros HP. unfold WriteUnder.read_token_from_file.
  apply emits_try_except; [|intros; repeat (estep || apply HP)].
  apply emits_bind; [apply emits_silent; intros w; split; [reflexivity|discriminate]|].
  intros ex. destruct ex; cbn [negb]; [|repeat (estep || apply HP)].
  apply emits_bind.
  - apply emits_silent. intros w. unfold WriteDash.json_load_file.
    destruct (w_fs w filepath) as [| |b]; try (split; [reflexivity|discriminate]).
    destruct (decode b) as [text|]; [|split; [reflexivity|discriminate]].
    destruct (json_loads (universal_newlines text)); split; try reflexivity; discriminate.
  - intros v. unfold WriteDash.subscript_account_hash. repeat estep.
Qed.

Lemma emits_dump_file_inner (credentials : json) (filepath : str) :
  emits inner (WriteDash.dump_file credentials filepath).
Proof.
  intros w. unfold WriteDash.dump_file. destruct (w_writable w filepath); simpl.
  - split; [discriminate|].
    exists [EvDump filepath credentials]. split; [reflexivity|]. repeat constructor.
  - split; [discriminate|]. exists []. rewrite app_nil_r. split; [reflexivity|constructor].
Qed.

Lemma emits_submit_under_inner (writer : nat) (message : json) :
  emits inner (WriteUnder.submit_message writer message).
Proof. unfold WriteUnder.submit_message, writer_write. repeat estep. Qed.

Lemma emits_authorize_under (rw : nat) (token : json) :
  emits inner (WriteUnder.authorize rw token).
Proof.
  unfold WriteUnder.authorize.
  repeat (apply emits_submit_under_inner || estep).
Qed.

Lemma emits_save_under (credentials : json) (filepath : str) :
  emits inner (WriteUnder.save_credentials credentials filepath).
Proof.
  unfold WriteUnder.save_credentials. repeat (apply emits_dump_file_inner || estep).
Qed.

Lemma balanced_bracket (h : nat) (server : str) (port : N) (ts : str) (d : list event) :
  balanced d -> balanced ([EvOpen h server port; EvNote ts Established] ++ d ++ [EvClose h]).
Proof.
  intros H h'. simpl. rewrite opens_app, closes_app, H. simpl. lia.
Qed.

Lemma yields_chat_balanced {A} (server : str) (port : N) (body : nat -> M A) :
  (forall h, emits inner (body h)) ->
  yields balanced (Listen.chat_connection server port body).
Proof.
  intros H. apply yields_chat_connection.
  - exact balanced_additive.
  - intros. now apply balanced_bracket.
  - intros ts h. reflexivity.
  - intros e h. reflexivity.
  - intros h. apply emits_yields_balanced, H.
Qed.

Lemma yields_register_under (host : str) (port : N) (nickname filepath : str) :
  yields balanced (WriteUnder.register host port nickname filepath).
Proof.
  unfold WriteUnder.register. apply yields_chat_balanced. intros h.
  unfold WriteDash.method_get, writer_write.
  repeat (apply emits_submit_under_inner || apply emits_save_under || estep).
Qed.

Lemma yields_get_token_under (a : WriteUnder.args) :
  yields balanced (WriteUnder.get_token a).
Proof.
  pose proof balanced_additive as HQ.
  unfold WriteUnder.get_token.
  apply yields_bind; [exact HQ| |intros token].
  - destruct (truthy _); [now apply yields_ret|].
    apply emits_yields_balanced, emits_read_token. intros; exact I.
  - apply yields_bind; [exact HQ| |intros token'].
    + destruct (negb (truthy token) && truthy _); [apply yields_register_under|now apply yields_ret].
    + apply yields_bind; [exact HQ| |intros _; now apply yields_ret].
      destruct (negb (truthy token')); [|now apply yields_ret].
      apply emits_yields_balanced, emits_emit. exact I.
Qed.

Lemma yields_main_under (a : WriteUnder.args) : yields balanced (WriteUnder.main a).
Proof.
  pose proof balanced_additive as HQ.
  unfold WriteUnder.main.
  apply yields_bind; [exact HQ|apply yields_get_token_under|intros token].
  destruct (negb (truthy token)); [now apply yields_ret|].
  apply yields_chat_balanced. intros h.
  repeat (apply emits_authorize_under || apply emits_submit_under_inner || estep).
Qed.

(** X9.  write_minechat.py closes what it opens.  In every world [main]
    ends, and every connection, for the registration or for the message,
    was closed as often as it was opened, whichever way its block was
    left. *)
Theorem under_main_closes_what_it_opens (a : WriteUnder.args) (w : world) :
  fst (WriteUnder.main a w) <> Running
  /\ exists d,
       w_trace (snd (WriteUnder.main a w)) = w_trace w ++ d
       /\ forall h, opens h d = closes h d.
Proof. apply yields_main_under. Qed.

Lemma cleanup_closes (h : nat) (w : world) :
  let r := (closing <- writer_is_closing h ;;
            if negb closing then writer_close h ;; writer_wait_closed h else ret tt) w in
  fst r = Ret tt /\ c_closing (the_conn h (snd r)) = true.
Proof.
  unfold bind, writer_is_closing, writer_wait_closed, ret.
  destruct (c_closing (the_conn h w)) eqn:Ec; simpl.
  - split; [reflexivity|exact Ec].
  - split; [reflexivity|apply (closing_after_close h w)].
Qed.

Lemma authorize_ends (host : str) (port : N) (token : json) (w : world) :
  fst (WriteDash.authorize host port token w) <> Running
  /\ forall e, fst (WriteDash.authorize host port token w) = Raise e -> is_Exception e = false.
Proof.
  split.
  - assert (He : emits any_event (WriteDash.authorize host port token)).
    { unfold WriteDash.authorize, writer_wait_closed.
      repeat (apply emits_submit_message || estep || (intros; exact I)). }
    apply He.
  - unfold WriteDash.authorize, try_except. intros e.
    match goal with |- context [match ?b w with _ => _ end] => destruct (b w) as [[x|x|] w1] end;
      simpl; try discriminate.
    destruct (is_Exception x) eqn:E; simpl; [discriminate|]. now intros [= <-].
Qed.

(** A [finally] clause that cannot fail leaves the outcome of the [try]
    block as it is and establishes what it establishes. *)
Lemma try_finally_post {A} (body : M A) (cleanup : M unit) (Post : world -> Prop) (w : world) :
  (forall w0, fst (cleanup w0) = Ret tt /\ Post (snd (cleanup w0))) ->
  fst (body w) <> Running ->
  fst (try_finally body cleanup w) = fst (body w)
  /\ Post (snd (try_finally body cleanup w)).
Proof.
  intros Hc Hr. unfold try_finally, bind.
  destruct (body w) as [[a|e|] w1]; simpl in Hr; [| |contradiction];
    destruct (Hc w1) as [C1 C2]; destruct (cleanup w1) as [res w2];
    simpl in C1, C2; subst res; simpl; auto.
Qed.

(** The tail of [main] ends, lets no [Exception] out, and leaves the
    writer it got from [authorize] closing. *)
Lemma authorize_and_send_post (a : WriteDash.args) (token : json) (w : world) :
  let r := WriteDash.authorize_and_send a token w in
  fst r <> Running
  /\ (forall e, fst r = Raise e -> is_Exception e = false)
  /\ (forall h w1,
        WriteDash.authorize (WriteDash.host a) (WriteDash.port a) token w = (Ret (Some h), w1) ->
        c_closing (the_conn h (snd r)) = true).
Proof.
  intros r. subst r. unfold WriteDash.authorize_and_send. rewrite bind_run.
  destruct (authorize_ends (WriteDash.host a) (WriteDash.port a) token w) as [Hrun Hraise].
  destruct (WriteDash.authorize (WriteDash.host a) (WriteDash.port a) token w)
    as [[[h|]|e|] w1]; simpl in Hrun, Hraise.
  - match goal with |- context [try_finally ?body ?cleanup w1] =>
      assert (Hb : fst (body w1) <> Running
                   /\ forall e, fst (body w1) = Raise e -> is_Exception e = false);
      [|destruct Hb as [Hb1 Hb2];
        destruct (try_finally_post body cleanup (fun w0 => c_closing (the_conn h w0) = true) w1
                    (cleanup_closes h) Hb1) as [F1 F2]] end.
    { unfold try_except.
      pose proof (emits_submit_message any_event h (JStr (WriteDash.message a))
                    (fun _ _ => I) w1) as (Hs & _).
      destruct (WriteDash.submit_message h (JStr (WriteDash.message a)) w1) as [[[]|e|] w2];
        simpl in Hs; [| |contradiction]; simpl.
      - split; discriminate.
      - destruct (is_Exception e) eqn:Ee; simpl; split; try discriminate.
        now intros x [= <-]. }
    rewrite F1. split; [exact Hb1|]. split; [exact Hb2|]. now intros h' w' [= <- <-].
  - simpl. split; [discriminate|]. split; [discriminate|]. intros; discriminate.
  - simpl. split; [discriminate|]. split; [|intros; discriminate].
    intros x [= <-]. now apply Hraise.
  - contradiction.
Qed.

(** X10.  The tail of [main] in write-minechat.py.  It ends; no [Exception]
    leaves it; and whenever [authorize] returned a writer, that writer is
    closing when [main] is done, whether the message went out, the drain
    failed or the task was cancelled. *)
Theorem authorized_writer_is_closed (a : WriteDash.args) (token : json) (w : world) :
  let r := WriteDash.authorize_and_send a token w in
  fst r <> Running
  /\ (forall e, fst r = Raise e -> is_Exception e = false)
  /\ (forall h w1,
        WriteDash.authorize (WriteDash.host a) (WriteDash.port a) token w = (Ret (Some h), w1) ->
        c_closing (the_conn h (snd r)) = true).
Proof. exact (authorize_and_send_post a token w). Qed.

End SenderRuns.

(** A run of X10: the drain behind the message fails, and the writer is
    closing all the same. *)
Lemma authorized_writer_is_closed_witness :
  let a := sender_args (Some (lit "abc123")) None in
  let w := fresh_world [Accept [Chunk (lit "Hello"); Chunk (lit "{}
")] [None; Some ConnectionResetError]] no_files in
  fst (WriteDash.authorize (WriteDash.host a) (WriteDash.port a) (JStr (lit "abc123")) w)
  = Ret (Some 0%nat)
  /\ c_closing (the_conn 0 (snd (WriteDash.authorize_and_send a (JStr (lit "abc123")) w)))
     = true.
Proof.
  intros a w. split; [reflexivity|].
  destruct (authorized_writer_is_closed a (JStr (lit "abc123")) w) as (_ & _ & H).
  exact (H 0%nat _ eq_refl).
Defined.

(** ** The senders step by step *)

Section SenderSteps.
Context {J : JsonLib}.

Ltac wstep :=
  cbn [w_conn w_dial w_nap w_clock w_tick w_fs w_writable w_trace
       log_event set_conn set_dial set_tick set_nap upd_conn fst snd
       c_in c_buf c_drain c_closing].

Lemma truthy_str (t : str) : t <> [] -> truthy (JStr t) = true.
Proof.
  intros H. simpl. unfold str_eqb. now destruct (list_eq_dec N.eq_dec t []).
Qed.

Lemma falsy_opt (o : option str) :
  o = None \/ o = Some [] -> truthy (WriteDash.py_opt o) = false.
Proof. intros [->| ->]; reflexivity. Qed.

Lemma under_get_token_given (a : WriteUnder.args) (t : str) (w : world) :
  WriteUnder.token a = Some t -> t <> [] ->
  WriteUnder.get_token a w = (Ret (JStr t), w).
Proof.
  intros Ht Hne. unfold WriteUnder.get_token. rewrite Ht. cbn [WriteDash.py_opt].
  rewrite (truthy_str t Hne). unfold bind, ret. rewrite (truthy_str t Hne).
  cbn [negb andb]. cbv iota beta. rewrite (truthy_str t Hne). reflexivity.
Qed.

Lemma under_main_run (a : WriteUnder.args) (t : str) (w : world)
      (greeting response : bytes) (more : list rd) (rest : list dial)
      (token_unit message_unit : bytes) :
  WriteUnder.token a = Some t -> t <> [] ->
  w_dial w = Accept (Chunk greeting :: Chunk response :: more) [] :: rest ->
  w_nap w = [] ->
  short greeting -> short response ->
  encode (WriteDash.clean_message t) = Some token_unit ->
  encode (WriteDash.clean_message (WriteUnder.message a)) = Some message_unit ->
  let h := List.length (w_conn w) in
  let parse := json_loads (first_line (WriteDash.decode_strip response)) in
  exists w',
    WriteUnder.main a w = (Ret tt, w')
    /\ w_trace w'
       = w_trace w
         ++ [EvOpen h (WriteUnder.host a) (WriteUnder.port a);
             EvNote (strftime (w_clock w (w_tick w))) Established;
             EvLog DEBUG (LText (WriteDash.decode_strip greeting));
             EvLog DEBUG (LValue (JStr t));
             EvWrite h (token_unit ++ [NL; NL]);
             EvDrain h;
             EvSleep 0.2%Q;
             EvLog DEBUG (LText (WriteDash.decode_strip response))]
         ++ match parse with
            | Some JNull => [EvLog ERROR (AuthError ValueError); EvLog ERROR SendFailed]
            | Some _ => [EvLog DEBUG (LValue (JStr (WriteUnder.message a)));
                         EvWrite h (message_unit ++ [NL; NL]);
                         EvDrain h;
                         EvSleep 0.2%Q]
            | None => [EvLog ERROR (AuthError JSONDecodeError); EvLog ERROR SendFailed]
            end
         ++ [EvClose h].
Proof.
  intros Ht Hne Hd Hnap Hg Hr Hn Hm h parse.
  unfold WriteUnder.main. rewrite bind_run, (under_get_token_given a t w Ht Hne).
  rewrite (truthy_str t Hne). cbn [negb].
  unfold Listen.chat_connection.
  rewrite try_except_bind. unfold open_connection at 1. rewrite Hd. cbv iota beta zeta.
  fold h.
  rewrite try_except_bind. unfold Listen.timestamp_now, bind at 1, datetime_now, ret.
  wstep. cbv iota beta.
  rewrite try_except_bind. unfold emit at 1. cbv iota beta.
  unfold try_except at 1. unfold try_finally.
  rewrite try_except_bind. unfold WriteUnder.authorize.
  rewrite try_except_bind. unfold h.
  erewrite (step_read (w_conn w) greeting); [|reflexivity|exact Hg]. cbv iota beta.
  rewrite try_except_bind. unfold emit at 1. cbv iota beta.
  rewrite try_except_bind.
  erewrite (step_submit_under (w_conn w) _ t token_unit);
    [|reflexivity|reflexivity|exact Hnap|exact Hn].
  cbv iota beta.
  rewrite try_except_bind. erewrite (step_read (w_conn w) response); [|reflexivity|exact Hr].
  cbv iota beta zeta.
  rewrite try_except_bind. unfold emit at 1. cbv iota beta.
  rewrite try_except_bind. unfold WriteDash.loads_first_line at 1. fold parse.
  destruct parse as [v|].
  2:{ cbn [raise is_Exception bind emit ret]. cbv iota beta.
      rewrite !bind_run. erewrite (step_close (w_conn w)); [|reflexivity].
      eexists. split; [reflexivity|]. simpl. rewrite <- !app_assoc. reflexivity. }
  destruct v as [|b|z|f|s|l|d];
    try (unfold try_except at 1; cbn [ret]; cbv iota beta; unfold try_except at 1;
         erewrite (step_submit_under (w_conn w) _ (WriteUnder.message a) message_unit);
         [|reflexivity|reflexivity|exact Hnap|exact Hm];
         cbv iota beta; rewrite !bind_run;
         erewrite (step_close (w_conn w)); [|reflexivity];
         eexists; (split; [reflexivity|]); simpl; rewrite <- !app_assoc; reflexivity).
  unfold try_except at 1. cbn [raise is_Exception bind emit ret]. cbv iota beta.
  rewrite !bind_run. erewrite (step_close (w_conn w)); [|reflexivity].
  eexists. split; [reflexivity|]. simpl. rewrite <- !app_assoc. reflexivity.
Qed.

Lemma dash_main_given (a : WriteDash.args) (t : str) (w : world) :
  WriteDash.token a = Some t -> t <> [] ->
  WriteDash.main a w = WriteDash.authorize_and_send a (JStr t) w.
Proof.
  intros Ht Hne. unfold WriteDash.main. rewrite Ht. cbn [WriteDash.py_opt].
  rewrite (truthy_str t Hne). cbn [negb]. rewrite bind_run. cbn [ret].
  rewrite (truthy_str t Hne). reflexivity.
Qed.

Lemma dash_authorize_refused (host : str) (port : N) (token : json) (w : world)
      (e : exn) (rest : list dial) :
  w_dial w = Reject e :: rest -> is_Exception e = true ->
  WriteDash.authorize host port token w
  = (Ret None, log_event (EvLog ERROR (AuthError e))
                 (log_event (EvRefused host port e) (set_dial rest w))).
Proof.
  intros Hd He. unfold WriteDash.authorize. rewrite try_except_bind.
  unfold open_connection. rewrite Hd, He. reflexivity.
Qed.

(** X11.  A connection attempt that fails.  write-minechat.py catches the
    exception in [authorize], and [main] logs the failure and returns.
    write_minechat.py has no handler around [chat_connection]: the
    exception leaves [main], behind the note for a refusal, also when it is
    the registration that cannot connect. *)
Theorem refused_senders :
  (forall (a : WriteDash.args) (t : str) (w : world) (e : exn) (rest : list dial),
     WriteDash.token a = Some t -> t <> [] ->
     w_dial w = Reject e :: rest -> is_Exception e = true ->
     exists w',
       WriteDash.main a w = (Ret tt, w')
       /\ w_trace w' = w_trace w ++ [EvRefused (WriteDash.host a) (WriteDash.port a) e;
                                     EvLog ERROR (AuthError e);
                                     EvLog ERROR AuthFailed])
  /\ (forall (a : WriteUnder.args) (t : str) (w : world) (e : exn) (rest : list dial),
        WriteUnder.token a = Some t -> t <> [] ->
        w_dial w = Reject e :: rest ->
        exists w',
          WriteUnder.main a w = (Raise e, w')
          /\ w_trace w'
             = w_trace w ++ EvRefused (WriteUnder.host a) (WriteUnder.port a) e
                 :: (if is_ConnectionRefusedError e
                     then [EvNote (strftime (w_clock w (w_tick w))) CannotConnect]
                     else []))
  /\ (forall (a : WriteUnder.args) (n : str) (w : world) (rest : list dial),
        WriteUnder.token a = None \/ WriteUnder.token a = Some [] ->
        WriteUnder.nickname a = Some n -> n <> [] ->
        w_fs w (WriteUnder.credentials a) = Missing ->
        w_dial w = Reject ConnectionRefusedError :: rest ->
        fst (WriteUnder.main a w) = Raise ConnectionRefusedError
        /\ wire (w_trace (snd (WriteUnder.main a w))) = wire (w_trace w)).
Proof.
  split; [|split].
  3:{ intros a n w rest Ht Hn Hne Hfs Hd.
      unfold WriteUnder.main. rewrite bind_run. unfold WriteUnder.get_token.
      rewrite (falsy_opt _ Ht), Hn. cbn [WriteDash.py_opt]. rewrite (truthy_str n Hne).
      rewrite bind_run, read_token_from_file_eq, get_token_eq, Hfs.
      change (truthy JNull) with false. cbn [negb andb]. rewrite bind_run.
      unfold WriteUnder.register, Listen.chat_connection. rewrite try_except_bind.
      unfold open_connection. wstep. rewrite Hd. simpl.
      split; [reflexivity|]. rewrite !wire_app. simpl. now rewrite !app_nil_r. }
  - intros a t w e rest Ht Hne Hd He.
    rewrite (dash_main_given a t w Ht Hne). unfold WriteDash.authorize_and_send.
    rewrite bind_run, (dash_authorize_refused _ _ _ w e rest Hd He).
    eexists. split; [reflexivity|]. simpl. now rewrite <- !app_assoc.
  - intros a t w e rest Ht Hne Hd.
    unfold WriteUnder.main. rewrite bind_run, (under_get_token_given a t w Ht Hne).
    rewrite (truthy_str t Hne). cbn [negb].
    unfold Listen.chat_connection. rewrite try_except_bind.
    unfold open_connection. rewrite Hd.
    destruct (is_ConnectionRefusedError e); eexists; (split; [reflexivity|]); simpl;
      now rewrite <- ?app_assoc.
Qed.



Lemma set_conn_same (l : list conn) (c c' : conn) :
  replace_nth (List.length l) c' (l ++ [c]) = l ++ [c'].
Proof. induction l; simpl; [reflexivity|now f_equal]. Qed.

(** [read(1024)] of a delivery of any length: the first 1024 bytes, the
    rest stays buffered. *)
Lemma step_read_long (l : list conn) (b : bytes) (r : list rd) (ds : list (option exn))
      (cl : bool) (w : world) :
  w_conn w = l ++ [{| c_in := Chunk b :: r; c_buf := []; c_drain := ds; c_closing := cl |}] ->
  b <> [] ->
  reader_read (List.length l) 1024 w
  = (Ret (firstn 1024 b),
     set_conn (l ++ [{| c_in := r; c_buf := skipn 1024 b; c_drain := ds; c_closing := cl |}]) w).
Proof.
  intros Hc Hne. unfold reader_read, the_conn, upd_conn. rewrite Hc, nth_middle.
  simpl c_buf. simpl c_in. cbv iota.
  destruct b as [|x b]; [contradiction|]. cbn [recv].
  now rewrite set_conn_same.
Qed.

(** [read(1024)] at the end of the stream: empty bytes. *)
Lemma step_read_eof (l : list conn) (ds : list (option exn)) (cl : bool) (w : world) :
  w_conn w = l ++ [{| c_in := []; c_buf := []; c_drain := ds; c_closing := cl |}] ->
  reader_read (List.length l) 1024 w
  = (Ret [], set_conn (l ++ [{| c_in := []; c_buf := []; c_drain := ds; c_closing := cl |}]) w).
Proof.
  intros Hc. unfold reader_read, the_conn, upd_conn. rewrite Hc, nth_middle.
  simpl c_buf. simpl c_in. cbv iota. cbn [recv].
  now rewrite set_conn_same.
Qed.

(** X13.  [authorize] takes each [read(1024)] for one message of the server.
    Of a response longer than 1024 bytes only the first 1024 are parsed.
    And when greeting and response arrive in one delivery and the stream
    ends behind it, the response is taken for part of the greeting: the
    second read is empty, and with a parser that rejects the empty text the
    authorization fails, whatever the response was. *)
Theorem authorize_reads_deliveries (host : str) (port : N) (t : str) (w : world)
        (token_unit : bytes) (rest : list dial) :
  encode (WriteDash.clean_message t) = Some token_unit ->
  let h := List.length (w_conn w) in
  (forall greeting response more,
     w_dial w = Accept (Chunk greeting :: Chunk response :: more) [] :: rest ->
     short greeting -> response <> [] ->
     fst (WriteDash.authorize host port (JStr t) w)
     = Ret (authorize_verdict h
              (json_loads (first_line (WriteDash.decode_strip (firstn 1024 response))))))
  /\ (forall greeting response,
        w_dial w = Accept [Chunk (greeting ++ response)] [] :: rest ->
        short (greeting ++ response) ->
        json_loads [] = None ->
        exists w',
          WriteDash.authorize host port (JStr t) w = (Ret None, w')
          /\ w_trace w'
             = w_trace w
               ++ [EvOpen h host port;
                   EvLog DEBUG (LText (WriteDash.decode_strip (greeting ++ response)));
                   EvLog DEBUG (LValue (JStr t));
                   EvWrite h (token_unit ++ [NL; NL]);
                   EvDrain h;
                   EvLog DEBUG (LText []);
                   EvLog ERROR (AuthError JSONDecodeError)]).
Proof.
  intros Hn h. split.
  - intros greeting response more Hd Hg Hr.
    unfold WriteDash.authorize.
    rewrite try_except_bind. unfold open_connection at 1. rewrite Hd. cbv iota beta zeta.
    fold h.
    rewrite try_except_bind. unfold h.
    erewrite (step_read (w_conn w) greeting); [|reflexivity|exact Hg].
    cbv iota beta.
    rewrite try_except_bind. unfold emit at 1. cbv iota beta.
    rewrite try_except_bind.
    erewrite (step_submit (w_conn w) _ t token_unit); [|reflexivity|reflexivity|exact Hn].
    cbv iota beta.
    rewrite try_except_bind.
    erewrite (step_read_long (w_conn w) response); [|reflexivity|exact Hr].
    cbv iota beta zeta.
    rewrite try_except_bind. unfold emit at 1. cbv iota beta.
    rewrite try_except_bind. unfold WriteDash.loads_first_line at 1.
    unfold authorize_verdict.
    destruct (json_loads (first_line (WriteDash.decode_strip (firstn 1024 response))))
      as [v|]; [|reflexivity].
    destruct v as [|b|z|f|s|l|d]; reflexivity.
  - intros greeting response Hd Hg Hempty.
    unfold WriteDash.authorize.
    rewrite try_except_bind. unfold open_connection at 1. rewrite Hd. cbv iota beta zeta.
    fold h.
    rewrite try_except_bind. unfold h.
    erewrite (step_read (w_conn w) (greeting ++ response)); [|reflexivity|exact Hg].
    cbv iota beta.
    rewrite try_except_bind. unfold emit at 1. cbv iota beta.
    rewrite try_except_bind.
    erewrite (step_submit (w_conn w) _ t token_unit); [|reflexivity|reflexivity|exact Hn].
    cbv iota beta.
    rewrite try_except_bind.
    erewrite (step_read_eof (w_conn w)); [|reflexivity].
    cbv iota beta zeta.
    change (WriteDash.decode_strip []) with (@nil N).
    rewrite try_except_bind. unfold emit at 1. cbv iota beta.
    rewrite try_except_bind. unfold WriteDash.loads_first_line at 1.
    change (first_line []) with (@nil N). rewrite Hempty.
    eexists. split; [reflexivity|]. simpl. rewrite <- !app_assoc. reflexivity.
Qed.

(** X14.  A token that is no string.  ([get_token] returns the stored value
    of any JSON type.)  [submit_message] fails on it with [AttributeError]
    before anything is written: [authorize] of write-minechat.py logs the
    error and returns [None], the connection left open; [authorize] of
    write_minechat.py logs it and raises it again. *)
Theorem token_must_be_text (host : str) (port : N) (token : json) (w : world)
        (greeting : bytes) (more : list rd) (drains : list (option exn)) (rest : list dial) :
  match token with JStr _ => False | _ => True end ->
  w_dial w = Accept (Chunk greeting :: more) drains :: rest ->
  short greeting ->
  let h := List.length (w_conn w) in
  (exists w',
     WriteDash.authorize host port token w = (Ret None, w')
     /\ w_trace w'
        = w_trace w
          ++ [EvOpen h host port;
              EvLog DEBUG (LText (WriteDash.decode_strip greeting));
              EvLog DEBUG (LValue token);
              EvLog ERROR (AuthError AttributeError)])
  /\ (forall w0,
        w_conn w0 = w_conn w
                    ++ [{| c_in := Chunk greeting :: more; c_buf := [];
                           c_drain := drains; c_closing := false |}] ->
        exists w',
          WriteUnder.authorize h token w0 = (Raise AttributeError, w')
          /\ w_trace w'
             = w_trace w0
               ++ [EvLog DEBUG (LText (WriteDash.decode_strip greeting));
                   EvLog DEBUG (LValue token);
                   EvLog ERROR (AuthError AttributeError)]).
Proof.
  intros Htok Hd Hg h. split.
  - unfold WriteDash.authorize.
    rewrite try_except_bind. unfold open_connection at 1. rewrite Hd. cbv iota beta zeta.
    fold h.
    rewrite try_except_bind. unfold h.
    erewrite (step_read (w_conn w) greeting); [|reflexivity|exact Hg].
    cbv iota beta.
    rewrite try_except_bind. unfold emit at 1. cbv iota beta.
    rewrite try_except_bind. unfold WriteDash.submit_message.
    destruct token; try contradiction;
      (eexists; split; [reflexivity|]; simpl; rewrite <- !app_assoc; reflexivity).
  - intros w0 Hc. unfold WriteUnder.authorize.
    rewrite try_except_bind. unfold h.
    erewrite (step_read (w_conn w) greeting); [|exact Hc|exact Hg].
    cbv iota beta.
    rewrite try_except_bind. unfold emit at 1. cbv iota beta.
    rewrite try_except_bind. unfold WriteUnder.submit_message.
    destruct token; try contradiction;
      (eexists; split; [reflexivity|]; simpl; rewrite <- !app_assoc; reflexivity).
Qed.

End SenderSteps.

(** A run of X11: the server refuses. *)
Lemma refused_senders_witness :
  let w := fresh_world [Reject ConnectionRefusedError] no_files in
  fst (WriteDash.main (sender_args (Some (lit "abc123")) None) w) = Ret tt
  /\ fst (WriteUnder.main (under_args (Some (lit "abc123")) None) w)
     = Raise ConnectionRefusedError.
Proof.
  intros w. destruct refused_senders as (Hd & Hu & _). split.
  - destruct (Hd (sender_args (Some (lit "abc123")) None) (lit "abc123") w
                ConnectionRefusedError [] eq_refl ltac:(discriminate) eq_refl eq_refl)
      as (w' & E & _).
    now rewrite E.
  - destruct (Hu (under_args (Some (lit "abc123")) None) (lit "abc123") w
                ConnectionRefusedError [] eq_refl ltac:(discriminate) eq_refl)
      as (w' & E & _).
    now rewrite E.
Defined.


(** A run of X13: greeting and a valid response in one delivery. *)
Lemma authorize_reads_deliveries_witness :
  let w := fresh_world [Accept [Chunk (lit "Hello
" ++ jlit "{'nickname':'bob'}
")] []] no_files in
  fst (WriteDash.authorize (lit "minechat.dvmn.org") 5050 (JStr (lit "abc123")) w) = Ret None.
Proof.
  intros w.
  assert (H1 : short (lit "Hello
" ++ jlit "{'nickname':'bob'}
")) by (split; [discriminate|vm_compute; lia]).
  destruct (authorize_reads_deliveries (lit "minechat.dvmn.org") 5050 (lit "abc123") w
              (lit "abc123") [] eq_refl) as (_ & H).
  destruct (H (lit "Hello
") (jlit "{'nickname':'bob'}
") eq_refl H1 eq_refl) as (w' & E & _).
  now rewrite E.
Defined.

(** A run of X14: the stored token is the number 12345. *)
Lemma token_must_be_text_witness :
  let w := fresh_world [Accept [Chunk (lit "Hello")] []] no_files in
  fst (WriteDash.authorize (lit "minechat.dvmn.org") 5050 (JInt 12345) w) = Ret None
  /\ wire (w_trace (snd (WriteDash.authorize (lit "minechat.dvmn.org") 5050 (JInt 12345) w)))
     = [].
Proof.
  intros w.
  assert (H1 : short (lit "Hello")) by (split; [discriminate|vm_compute; lia]).
  destruct (token_must_be_text (lit "minechat.dvmn.org") 5050 (JInt 12345) w (lit "Hello")
              [] [] [] I eq_refl H1) as ((w' & E & T) & _).
  rewrite E. split; [reflexivity|]. simpl. rewrite T. reflexivity.
Defined.

(** ** Where the token comes from *)

Section TokenSources.
Context {J : JsonLib}.


Lemma get_token_logs (filepath : str) (w : world) :
  exists d, w_trace (snd (WriteDash.get_token filepath w)) = w_trace w ++ d
            /\ forallb is_log d = true.
Proof.
  rewrite get_token_eq.
  destruct (w_fs w filepath) as [| |b]; try (eexists; split; reflexivity).
  destruct (decode b) as [text|];
    [|exists []; rewrite app_nil_r; split; reflexivity].
  destruct (json_loads (universal_newlines text)) as [[|x|z|f|s|l|d]|];
    try (exists []; rewrite app_nil_r; split; reflexivity);
    try (eexists; split; reflexivity).
  destruct (dict_get (lit "account_hash") d);
    [exists []; rewrite app_nil_r; split; reflexivity|eexists; split; reflexivity].
Qed.

(** X16.  Where [main] of write-minechat.py takes the token from.  A token
    on the command line is used as it is and the credentials file is not
    read; without one (or with an empty one) a token stored in the file is
    used, also when a nickname is given; with neither token nor nickname
    [main] logs the error and ends without a connection attempt; and when
    the registration fails [main] logs that and ends without authorizing. *)
Theorem dash_main_token_sources (a : WriteDash.args) (w : world) :
  (forall t,
     WriteDash.token a = Some t -> t <> [] ->
     WriteDash.main a w = WriteDash.authorize_and_send a (JStr t) w)
  /\ (forall v w1,
        WriteDash.token a = None \/ WriteDash.token a = Some [] ->
        WriteDash.get_token (WriteDash.credentials a) w = (Ret v, w1) ->
        truthy v = true ->
        WriteDash.main a w = WriteDash.authorize_and_send a v w1)
  /\ (forall v,
        WriteDash.token a = None \/ WriteDash.token a = Some [] ->
        WriteDash.nickname a = None \/ WriteDash.nickname a = Some [] ->
        fst (WriteDash.get_token (WriteDash.credentials a) w) = Ret v ->
        truthy v = false ->
        fst (WriteDash.main a w) = Ret tt
        /\ exists d,
             w_trace (snd (WriteDash.main a w))
             = w_trace w ++ d ++ [EvLog ERROR NoTokenNoNickname]
             /\ forallb is_log d = true)
  /\ (forall v w1 n w2,
        WriteDash.token a = None \/ WriteDash.token a = Some [] ->
        WriteDash.get_token (WriteDash.credentials a) w = (Ret v, w1) ->
        truthy v = false ->
        WriteDash.nickname a = Some n -> n <> [] ->
        WriteDash.register (WriteDash.host a) (WriteDash.port a) n (WriteDash.credentials a) w1
        = (Ret None, w2) ->
        WriteDash.main a w = (Ret tt, log_event (EvLog ERROR RegisterFailed) w2)).
Proof.
  split; [intros t; apply dash_main_given|]. split; [|split].
  - intros v w1 Ht Hget Hv. unfold WriteDash.main. rewrite (falsy_opt _ Ht). cbn [negb].
    rewrite bind_run, Hget, Hv. reflexivity.
  - intros v Ht Hn Hget Hv. destruct (get_token_logs (WriteDash.credentials a) w) as (d & Hd & Hl).
    unfold WriteDash.main. rewrite (falsy_opt _ Ht), (falsy_opt _ Hn). cbn [negb].
    rewrite bind_run.
    destruct (WriteDash.get_token (WriteDash.credentials a) w) as [res w1].
    simpl in Hget, Hd. subst res. rewrite Hv. cbn [negb andb]. simpl.
    split; [reflexivity|]. exists d. rewrite Hd, <- app_assoc. auto.
  - intros v w1 n w2 Ht Hget Hv Hn Hne Hreg.
    unfold WriteDash.main. rewrite (falsy_opt _ Ht). cbn [negb].
    rewrite bind_run, Hget, Hv, Hn. cbn [WriteDash.py_opt]. rewrite (truthy_str n Hne).
    cbn [negb andb]. rewrite bind_run, Hreg. reflexivity.
Qed.

(** X17.  Where write_minechat.py takes the token from.  [get_token]
    returns a token given on the command line without touching anything;
    else a token stored in the credentials file, also when a nickname is
    given; with neither and no nickname it logs that a nickname is needed;
    with a nickname it returns what [register] returns and logs a failed
    registration.  Without a token [main] ends without a connection of its
    own. *)
Theorem under_token_sources (a : WriteUnder.args) (w : world) :
  (forall t,
     WriteUnder.token a = Some t -> t <> [] ->
     WriteUnder.get_token a w = (Ret (JStr t), w))
  /\ (forall v w1,
        WriteUnder.token a = None \/ WriteUnder.token a = Some [] ->
        WriteUnder.read_token_from_file (WriteUnder.credentials a) w = (Ret v, w1) ->
        truthy v = true ->
        WriteUnder.get_token a w = (Ret v, w1))
  /\ (forall v w1,
        WriteUnder.token a = None \/ WriteUnder.token a = Some [] ->
        WriteUnder.nickname a = None \/ WriteUnder.nickname a = Some [] ->
        WriteUnder.read_token_from_file (WriteUnder.credentials a) w = (Ret v, w1) ->
        truthy v = false ->
        WriteUnder.get_token a w = (Ret v, log_event (EvLog ERROR NeedNickname) w1)
        /\ WriteUnder.main a w = (Ret tt, log_event (EvLog ERROR NeedNickname) w1))
  /\ (forall v w1 n tok w2,
        WriteUnder.token a = None \/ WriteUnder.token a = Some [] ->
        WriteUnder.read_token_from_file (WriteUnder.credentials a) w = (Ret v, w1) ->
        truthy v = false ->
        WriteUnder.nickname a = Some n -> n <> [] ->
        WriteUnder.register (WriteUnder.host a) (WriteUnder.port a) n
          (WriteUnder.credentials a) w1 = (Ret tok, w2) ->
        WriteUnder.get_token a w
        = (Ret tok, if truthy tok then w2 else log_event (EvLog ERROR RegisterFailed) w2)
        /\ (truthy tok = false ->
            WriteUnder.main a w = (Ret tt, log_event (EvLog ERROR RegisterFailed) w2))).
Proof.
  split; [intros t; apply under_get_token_given|]. split; [|split].
  - intros v w1 Ht Hget Hv. unfold WriteUnder.get_token. rewrite (falsy_opt _ Ht).
    rewrite bind_run, Hget, bind_run, Hv. cbn [negb andb ret].
    rewrite bind_run, Hv. reflexivity.
  - intros v w1 Ht Hn Hget Hv.
    assert (E : WriteUnder.get_token a w = (Ret v, log_event (EvLog ERROR NeedNickname) w1)).
    { unfold WriteUnder.get_token. rewrite (falsy_opt _ Ht), (falsy_opt _ Hn).
      rewrite bind_run, Hget, bind_run, Hv. cbn [negb andb ret].
      rewrite bind_run, Hv. reflexivity. }
    split; [exact E|]. unfold WriteUnder.main. rewrite bind_run, E, Hv. reflexivity.
  - intros v w1 n tok w2 Ht Hget Hv Hn Hne Hreg.
    assert (E : WriteUnder.get_token a w
                = (Ret tok, if truthy tok then w2
                            else log_event (EvLog ERROR RegisterFailed) w2)).
    { unfold WriteUnder.get_token. rewrite (falsy_opt _ Ht), Hn. cbn [WriteDash.py_opt].
      rewrite (truthy_str n Hne).
      rewrite bind_run, Hget, bind_run, Hv. cbn [negb andb]. rewrite Hreg.
      rewrite bind_run. destruct (truthy tok); reflexivity. }
    split; [exact E|]. intros Htok. unfold WriteUnder.main. rewrite bind_run, E, Htok.
    reflexivity.
Qed.

End TokenSources.


(** A run of X16: no token, no nickname, no credentials file. *)
Lemma dash_main_token_sources_witness :
  let a := sender_args None None in
  let w := fresh_world [Accept [Chunk (lit "Hello")] []] no_files in
  fst (WriteDash.main a w) = Ret tt
  /\ exists d,
       w_trace (snd (WriteDash.main a w)) = d ++ [EvLog ERROR NoTokenNoNickname]
       /\ forallb is_log d = true.
Proof.
  intros a w.
  destruct (dash_main_token_sources a w) as (_ & _ & H & _).
  destruct (H JNull (or_introl eq_refl) (or_introl eq_refl) eq_refl eq_refl)
    as (Hr & d & Hd & Hl).
  split; [exact Hr|]. exists d. split; [exact Hd|exact Hl].
Defined.

(** A run of X17: no token, no nickname, no credentials file. *)
Lemma under_token_sources_witness :
  let a := under_args None None in
  let w := fresh_world [Accept [Chunk (lit "Hello")] []] no_files in
  WriteUnder.main a w
  = (Ret tt, log_event (EvLog ERROR NeedNickname)
               (log_event (EvLog DEBUG (CredFileMissing (lit "credentials.json"))) w)).
Proof.
  intros a w.
  destruct (under_token_sources a w) as (_ & _ & H & _).
  destruct (H JNull _ (or_introl eq_refl) (or_introl eq_refl) eq_refl eq_refl) as (_ & Hm).
  exact Hm.
Defined.

Section UnderVerdict.
Context {J : JsonLib}.

(** X18.  [main] of write_minechat.py with a token, on a connection that
    delivers greeting and response.  A response that parses to [null] or
    does not parse: the failure is logged, the message is not sent, and only
    the token went out.  Any other parsed response, an empty object
    included: the message is sent behind the token.  Either way [main]
    returns and the connection is closed once. *)
Theorem under_main_verdict (a : WriteUnder.args) (t : str) (w : world)
        (greeting response : bytes) (more : list rd) (rest : list dial)
        (token_unit message_unit : bytes) :
  WriteUnder.token a = Some t -> t <> [] ->
  w_dial w = Accept (Chunk greeting :: Chunk response :: more) [] :: rest ->
  w_nap w = [] ->
  short greeting -> short response ->
  encode (WriteDash.clean_message t) = Some token_unit ->
  encode (WriteDash.clean_message (WriteUnder.message a)) = Some message_unit ->
  let h := List.length (w_conn w) in
  let parse := json_loads (first_line (WriteDash.decode_strip response)) in
  let r := WriteUnder.main a w in
  fst r = Ret tt
  /\ closes h (w_trace (snd r)) = S (closes h (w_trace w))
  /\ (parse = Some JNull \/ parse = None ->
      wire (w_trace (snd r)) = wire (w_trace w) ++ [(h, token_unit ++ [NL; NL])]
      /\ In (EvLog ERROR SendFailed) (w_trace (snd r)))
  /\ (forall v,
        parse = Some v -> v <> JNull ->
        wire (w_trace (snd r))
        = wire (w_trace w) ++ [(h, token_unit ++ [NL; NL]); (h, message_unit ++ [NL; NL])]).
Proof.
  intros Ht Hne Hd Hnap Hg Hr Hn Hm h parse r.
  destruct (under_main_run a t w greeting response more rest token_unit message_unit
              Ht Hne Hd Hnap Hg Hr Hn Hm) as (w' & Hrun & Htr).
  fold h parse in Htr. subst r. rewrite Hrun. simpl fst. simpl snd. rewrite Htr.
  assert (Hh : Nat.eqb h h = true) by apply Nat.eqb_refl.
  split; [reflexivity|]. split; [|split].
  - rewrite !closes_app. destruct parse as [[|b|z|f|s|l|d]|]; simpl; rewrite Hh; lia.
  - intros [Hp|Hp]; rewrite Hp, !wire_app; simpl; (split; [reflexivity|]);
      apply in_or_app; right; simpl; tauto.
  - intros v Hp Hv. rewrite Hp, !wire_app.
    destruct v; try congruence; reflexivity.
Qed.

End UnderVerdict.

(** A run of X18 on the response [null]. *)
Lemma under_main_verdict_witness :
  let a := under_args (Some (lit "abc123")) None in
  let w := fresh_world [Accept [Chunk (lit "Hello"); Chunk (lit "null
")] []] no_files in
  fst (WriteUnder.main a w) = Ret tt
  /\ wire (w_trace (snd (WriteUnder.main a w))) = [(0%nat, lit "abc123" ++ [NL; NL])]
  /\ closes 0 (w_trace (snd (WriteUnder.main a w))) = 1%nat.
Proof.
  intros a w.
  assert (H1 : short (lit "Hello")) by (split; [discriminate|vm_compute; lia]).
  assert (H2 : short (lit "null
")) by (split; [discriminate|vm_compute; lia]).
  destruct (under_main_verdict a (lit "abc123") w (lit "Hello") (lit "null
") [] [] (lit "abc123") (lit "hi") eq_refl ltac:(discriminate) eq_refl eq_refl H1 H2
              eq_refl eq_refl) as (Hr & Hc & Hn & _).
  split; [exact Hr|]. split; [|exact Hc].
  destruct (Hn (or_introl eq_refl)) as [Hw _]. exact Hw.
Defined.

(** ** What leaves the sender *)

Section Escapes.
Context {J : JsonLib}.



End Escapes.


(** ** The two registrations side by side *)

Section Handshakes.
Context {J : JsonLib}.

(** X20.  The registration dialogue of the two senders, on a server that
    delivers greeting, prompt and response.  write-minechat.py opens it
    with an empty message, that is the bare terminator of two newlines,
    and closes the connection exactly when it returns the pair;
    write_minechat.py opens it with one newline and closes the connection
    once whatever the response was.  Both send the cleaned nickname next
    and nothing after it. *)
Theorem register_dialogues (host : str) (port : N) (nickname filepath : str) (w : world)
        (greeting prompt response : bytes) (more : list rd) (rest : list dial)
        (name_unit : bytes) :
  w_dial w = Accept (Chunk greeting :: Chunk prompt :: Chunk response :: more) [] :: rest ->
  w_nap w = [] ->
  short greeting -> short prompt -> short response ->
  encode (WriteDash.clean_message nickname) = Some name_unit ->
  let h := List.length (w_conn w) in
  let dash := WriteDash.register host port nickname filepath w in
  let under := WriteUnder.register host port nickname filepath w in
  wire (w_trace (snd dash)) = wire (w_trace w) ++ [(h, [NL; NL]); (h, name_unit ++ [NL; NL])]
  /\ closes h (w_trace (snd dash))
     = (closes h (w_trace w) + match fst dash with Ret (Some _) => 1 | _ => 0 end)%nat
  /\ wire (w_trace (snd under)) = wire (w_trace w) ++ [(h, [NL]); (h, name_unit ++ [NL; NL])]
  /\ closes h (w_trace (snd under)) = S (closes h (w_trace w)).
Proof.
  intros Hd Hnap Hg Hp Hr Hn h dash under.
  assert (Hh : Nat.eqb h h = true) by apply Nat.eqb_refl.
  destruct (register_run host port nickname filepath w greeting prompt response more rest
              name_unit Hd Hg Hp Hr Hn) as (w1 & Hrun1 & Htr1).
  destruct (register_under_run host port nickname filepath w greeting prompt response more
              rest name_unit Hd Hnap Hg Hp Hr Hn) as (w2 & Hrun2 & Htr2).
  fold h in Htr1, Htr2. subst dash under. rewrite Hrun1, Hrun2. simpl fst. simpl snd.
  rewrite Htr1, Htr2.
  set (parse := json_loads (first_line (WriteDash.decode_strip response))).
  assert (He : wire (under_epilogue filepath (w_writable w filepath) parse) = []
               /\ closes h (under_epilogue filepath (w_writable w filepath) parse) = O).
  { unfold under_epilogue.
    destruct parse as [[|b|z|f|s|l|d]|]; try (split; reflexivity).
    destruct (dict_get (lit "account_hash") d) as [token|]; [|split; reflexivity].
    destruct (truthy token); [|split; reflexivity].
    destruct (w_writable w filepath); split; reflexivity. }
  destruct He as [He1 He2].
  assert (Hf : wire (register_epilogue h filepath (w_writable w filepath) parse) = []
               /\ closes h (register_epilogue h filepath (w_writable w filepath) parse)
                  = match register_verdict nickname parse with Some _ => 1 | None => 0 end%nat).
  { unfold register_epilogue, register_verdict.
    destruct parse as [[|b|z|f|s|l|d]|]; try (split; reflexivity).
    destruct (dict_get (lit "account_hash") d) as [token|]; [|split; reflexivity].
    destruct (truthy token); [|split; reflexivity].
    destruct (w_writable w filepath); simpl; rewrite Hh; split; reflexivity. }
  destruct Hf as [Hf1 Hf2].
  split; [|split; [|split]].
  - rewrite !wire_app, Hf1. simpl. now rewrite ?app_nil_r.
  - rewrite !closes_app, Hf2. simpl. lia.
  - rewrite !wire_app, He1. simpl. now rewrite ?app_nil_r.
  - rewrite !closes_app, He2. simpl. rewrite Hh. lia.
Qed.

End Handshakes.

(** A run of X20 on a response without token: write-minechat.py leaves
    the connection as it is, write_minechat.py closes it. *)
Lemma register_dialogues_witness :
  let w := fresh_world [Accept [Chunk (lit "Hello"); Chunk (lit "Enter nick");
                                Chunk (lit "{}
")] []] no_files in
  let dash := WriteDash.register (lit "minechat.dvmn.org") 5050 (lit "bob")
                (lit "credentials.json") w in
  let under := WriteUnder.register (lit "minechat.dvmn.org") 5050 (lit "bob")
                 (lit "credentials.json") w in
  wire (w_trace (snd dash)) = [(0%nat, [NL; NL]); (0%nat, lit "bob" ++ [NL; NL])]
  /\ closes 0 (w_trace (snd dash)) = 0%nat
  /\ wire (w_trace (snd under)) = [(0%nat, [NL]); (0%nat, lit "bob" ++ [NL; NL])]
  /\ closes 0 (w_trace (snd under)) = 1%nat.
Proof.
  intros w dash under.
  assert (H1 : short (lit "Hello")) by (split; [discriminate|vm_compute; lia]).
  assert (H2 : short (lit "Enter nick")) by (split; [discriminate|vm_compute; lia]).
  assert (H3 : short (lit "{}
")) by (split; [discriminate|vm_compute; lia]).
  destruct (register_dialogues (lit "minechat.dvmn.org") 5050 (lit "bob")
              (lit "credentials.json") w (lit "Hello") (lit "Enter nick") (lit "{}
") [] [] (lit "bob") eq_refl eq_refl H1 H2 H3 eq_refl) as (A & B & C & D).
  split; [exact A|]. split; [exact B|]. split; [exact C|exact D].
Defined.
